(** * RoomMesh codec

    A shallow embedding of [roommesh.py]: the primitive readers and writers,
    the value classes, the structural aggregates, the seven point classes and
    the [RoomMesh] document, followed by the properties of the codec.

    Conventions of the embedding.
    - A Python method [def m(self, file)] mutates [self] and the file, and
      may raise.  It is a computation in the monad [M (t * file)], whose
      state survives an exception, as Python's does.
    - A binary file opened for reading is the list of the bytes not read
      yet; a binary file opened for writing is the list of the bytes
      written so far.
    - Python [int] is [Z]; Python [float] is an IEEE-754 binary64 value,
      [spec_float] in its canonical binary64 form; Python [str] is [string].
    - The [context] arguments of the helpers only feed error messages and
      are left out. *)

From Stdlib Require Import ZArith List String Ascii Lia Bool.
From Stdlib Require Import Strings.Byte DecimalString DecimalZ.
From Stdlib Require DecimalFacts DecimalPos.
From Stdlib Require Import Floats.SpecFloat.
Import ListNotations.
Local Open Scope Z_scope.

(** ** Exceptions and the method monad *)

Inductive exn : Type :=
| EOFError            (* raised by the read helpers *)
| StructError         (* struct.error: struct.pack('B', v) out of range *)
| OverflowError       (* int.to_bytes, struct.pack('<f', v), round(inf) *)
| UnicodeDecodeError  (* bytes.decode('ascii') *)
| UnicodeEncodeError  (* str.encode('ascii') *)
| ValueError          (* int(token), round(nan), unexpected signature *)
| TypeError           (* wrong number of positional arguments *)
| OSError.            (* raised by the write helpers on a short write *)

Inductive result (A : Type) : Type :=
| Ok (a : A)
| Raise (e : exn).
Arguments Ok {A} a.
Arguments Raise {A} e.

Definition M (S A : Type) : Type := S -> S * result A.

Definition ret {S A} (a : A) : M S A := fun s => (s, Ok a).

Definition raise {S A} (e : exn) : M S A := fun s => (s, Raise e).

Definition bind {S A B} (m : M S A) (k : A -> M S B) : M S B :=
  fun s =>
    let '(s1, r) := m s in
    match r with
    | Ok a => k a s1
    | Raise e => (s1, Raise e)
    end.

Declare Scope method_scope.
Delimit Scope method_scope with method.
Notation "x <- m ;; k" := (bind m (fun x => k))
  (at level 61, m at next level, right associativity) : method_scope.
Notation "' pat <- m ;; k" := (bind m (fun x => let 'pat := x in k))
  (at level 61, pat pattern, m at next level, right associativity) : method_scope.
Notation "m ;; k" := (bind m (fun _ => k))
  (at level 61, right associativity) : method_scope.
Local Open Scope method_scope.

(** A method's state is [(self, file)]. *)

(** [file]-only helper called from a method. *)
Definition on_file {S F A} (m : M F A) : M (S * F) A :=
  fun '(self, file) => let '(file1, r) := m file in ((self, file1), r).

(** [self.attr = v], and other in-place updates of [self]. *)
Definition on_self {S F} (f : S -> S) : M (S * F) unit :=
  fun '(self, file) => ((f self, file), Ok tt).

Definition get_self {S F} : M (S * F) S :=
  fun '(self, file) => ((self, file), Ok self).

(** [self.attr.m(file)]: the method [m] runs on the object held in an
    attribute of [self], which it may mutate in place. *)
Definition on_attr {S X F A} (get : S -> X) (set : X -> S -> S)
    (m : M (X * F) A) : M (S * F) A :=
  fun '(self, file) =>
    let '((x1, file1), r) := m (get self, file) in ((set x1 self, file1), r).

(** [obj = X(); obj.m(file)]: the object is returned when [m] returns and is
    dropped when [m] raises. *)
Definition new {X F} (init : X) (m : M (X * F) unit) : M F X :=
  fun file =>
    let '((x1, file1), r) := m (init, file) in
    (file1, match r with Ok _ => Ok x1 | Raise e => Raise e end).

(** [for _ in range(count): item = X(); item.m(file); xs.append(item)], on
    the list [xs] held by [self]. *)
Fixpoint append_each {X F} (make : M F X) (count : nat) : M (list X * F) unit :=
  match count with
  | O => ret tt
  | S n =>
      item <- on_file make ;;
      on_self (fun xs => xs ++ [item]) ;;
      append_each make n
  end.

(** [for item in xs: item.m(file)]: the elements are visited in order, each
    one being mutated in place by the method. *)
Fixpoint for_each_from {X F} (m : M (X * F) unit) (done todo : list X)
    (file : F) : (list X * F) * result unit :=
  match todo with
  | [] => ((done, file), Ok tt)
  | item :: rest =>
      let '((item1, file1), r) := m (item, file) in
      match r with
      | Ok _ => for_each_from m (done ++ [item1]) rest file1
      | Raise e => ((done ++ item1 :: rest, file1), Raise e)
      end
  end.

Definition for_each {X F} (m : M (X * F) unit) : M (list X * F) unit :=
  fun '(xs, file) => for_each_from m [] xs file.

(** ** Bytes and files *)

Definition rfile : Type := list byte.   (* open(..., 'rb'): bytes left to read *)
Definition wfile : Type := list byte.   (* open(..., 'wb'): bytes written *)

Definition len {A} (l : list A) : Z := Z.of_nat (List.length l).

(** [file.read(n)] *)
Definition file_read (n : Z) : M rfile (list byte) :=
  fun file => (skipn (Z.to_nat n) file, Ok (firstn (Z.to_nat n) file)).

(** [file.write(data)], which returns the number of bytes written. *)
Definition file_write (data : list byte) : M wfile Z :=
  fun file => (file ++ data, Ok (len data)).

Definition byte_val (b : byte) : Z := Z.of_N (Byte.to_N b).

Definition byte_of (v : Z) : option byte := Byte.of_N (Z.to_N v).

(** [struct.unpack('<I', bs)[0]] on four bytes. *)
Definition unpack_I (bs : list byte) : Z :=
  match bs with
  | [b0; b1; b2; b3] =>
      Z.lor (byte_val b0)
        (Z.lor (Z.shiftl (byte_val b1) 8)
           (Z.lor (Z.shiftl (byte_val b2) 16) (Z.shiftl (byte_val b3) 24)))
  | _ => 0
  end.

Definition byte_at (v : Z) (shift : Z) : byte :=
  match byte_of (Z.land (Z.shiftr v shift) 255) with
  | Some b => b
  | None => x00
  end.

(** The four little-endian bytes of [v]. *)
Definition le_bytes4 (v : Z) : list byte :=
  [byte_at v 0; byte_at v 8; byte_at v 16; byte_at v 24].

(** [value.to_bytes(4, 'little', signed=False)] *)
Definition to_bytes4 (value : Z) : result (list byte) :=
  if (0 <=? value) && (value <? 2 ^ 32)
  then Ok (le_bytes4 value)
  else Raise OverflowError.

(** [struct.pack('B', value)] *)
Definition pack_B (value : Z) : result (list byte) :=
  if (0 <=? value) && (value <=? 255)
  then Ok [byte_at value 0]
  else Raise StructError.

Definition lift_result {S A} (r : result A) : M S A := fun s => (s, r).

(** ** Strings *)

Definition is_ascii_byte (b : byte) : bool := byte_val b <? 128.

Definition is_ascii_char (c : ascii) : bool := Z.of_N (N_of_ascii c) <? 128.

(** [bs.decode('ascii')] *)
Definition decode_ascii (bs : list byte) : result string :=
  if forallb is_ascii_byte bs
  then Ok (string_of_list_ascii (map ascii_of_byte bs))
  else Raise UnicodeDecodeError.

(** [s.encode('ascii')] *)
Definition encode_ascii (s : string) : result (list byte) :=
  if forallb is_ascii_char (list_ascii_of_string s)
  then Ok (map byte_of_ascii (list_ascii_of_string s))
  else Raise UnicodeEncodeError.

Definition str_len (s : string) : Z := Z.of_nat (String.length s).

(** ** Numbers

    A Python [float] is a binary64 value: [spec_float] with 53 bits of
    precision and [emax = 1024], kept in canonical form so that two floats
    are equal exactly when they have the same sign, mantissa and exponent
    (the one NaN of [spec_float] stands for every NaN; payloads are not
    told apart).  The wire format holds binary32 values. *)

Definition prec32 : Z := 24.
Definition emax32 : Z := 128.
Definition prec64 : Z := 53.
Definition emax64 : Z := 1024.

(** The binary64 float nearest to [m * 2^e]. *)
Definition f64 (m e : Z) : spec_float := binary_normalize prec64 emax64 m e false.

(** C's [(float)x]: round to the nearest binary32 value, ties to even. *)
Definition SF32_of_SF64 (x : spec_float) : spec_float :=
  match x with
  | S754_finite s m e => binary_round prec32 emax32 s m e
  | _ => x
  end.

(** C's [(double)y]: exact. *)
Definition SF64_of_SF32 (y : spec_float) : spec_float :=
  match y with
  | S754_finite s m e => binary_round prec64 emax64 s m e
  | _ => y
  end.

Definition sign_bit (s : bool) : Z := if s then Z.shiftl 1 31 else 0.

(** The IEEE-754 binary32 interchange encoding. *)
Definition bits_of_SF32 (y : spec_float) : Z :=
  match y with
  | S754_zero s => sign_bit s
  | S754_infinity s => Z.lor (sign_bit s) (Z.shiftl 255 23)
  | S754_nan => Z.lor (Z.shiftl 255 23) (Z.shiftl 1 22)
  | S754_finite s m e =>
      if Z.pos m <? 2 ^ 23
      then Z.lor (sign_bit s) (Z.pos m)
      else Z.lor (sign_bit s)
             (Z.lor (Z.shiftl (e + 150) 23) (Z.land (Z.pos m) (Z.ones 23)))
  end.

Definition SF32_of_bits (bits : Z) : spec_float :=
  let s := Z.testbit bits 31 in
  let expo := Z.land (Z.shiftr bits 23) 255 in
  let frac := Z.land bits (Z.ones 23) in
  if expo =? 255 then
    if frac =? 0 then S754_infinity s else S754_nan
  else if expo =? 0 then
    match frac with
    | Z.pos m => S754_finite s m (-149)
    | _ => S754_zero s
    end
  else
    match Z.lor (Z.shiftl 1 23) frac with
    | Z.pos m => S754_finite s m (expo - 150)
    | _ => S754_zero s
    end.

(** [struct.pack('<f', value)] for a float [value]: a finite value beyond the
    binary32 range raises [OverflowError]. *)
Definition pack_f (value : spec_float) : result (list byte) :=
  match value, SF32_of_SF64 value with
  | S754_finite _ _ _, S754_infinity _ => Raise OverflowError
  | _, y => Ok (le_bytes4 (bits_of_SF32 y))
  end.

(** [struct.unpack('<f', bs)[0]] on four bytes. *)
Definition unpack_f (bs : list byte) : spec_float :=
  SF64_of_SF32 (SF32_of_bits (unpack_I bs)).

(** An attribute annotated [float] that the code also assigns [int]s to. *)
Inductive pynum : Type :=
| PyInt (n : Z)
| PyFloat (x : spec_float).

(** [float(n)] for an [int] [n], as [struct.pack] applies it. *)
Definition float_of_int (n : Z) : result spec_float :=
  match binary_normalize prec64 emax64 n 0 false with
  | S754_infinity _ => Raise OverflowError
  | x => Ok x
  end.

Definition float_of_pynum (v : pynum) : result spec_float :=
  match v with
  | PyInt n => float_of_int n
  | PyFloat x => Ok x
  end.

(** The integer nearest to [m * 2^e], ties to the even one. *)
Definition round_half_even (m : positive) (e : Z) : Z :=
  if 0 <=? e then Z.pos m * 2 ^ e
  else
    let d := 2 ^ (- e) in
    let q := Z.pos m / d in
    let r := Z.pos m mod d in
    match 2 * r ?= d with
    | Lt => q
    | Gt => q + 1
    | Eq => if Z.even q then q else q + 1
    end.

(** The builtin [round(v)] with one argument. *)
Definition py_round (v : pynum) : result Z :=
  match v with
  | PyInt n => Ok n
  | PyFloat (S754_zero _) => Ok 0
  | PyFloat (S754_finite s m e) => Ok (cond_Zopp s (round_half_even m e))
  | PyFloat (S754_infinity _) => Raise OverflowError
  | PyFloat S754_nan => Raise ValueError
  end.

(** [str(n)] for an [int] [n], which is also how an f-string formats it. *)
Definition py_str (n : Z) : string := NilZero.string_of_int (Z.to_int n).

(** [str.isspace] on the code points a [string] can hold. *)
Definition is_space (c : ascii) : bool :=
  let n := Z.of_N (N_of_ascii c) in
  ((9 <=? n) && (n <=? 13)) || ((28 <=? n) && (n <=? 32))
  || (n =? 133) || (n =? 160).

(** [s.split()]: the maximal runs of non-whitespace characters; [tok] is the
    run being read. *)
Fixpoint split_from (s : string) (tok : string) : list string :=
  match s with
  | EmptyString => if (tok =? "")%string then [] else [tok]
  | String c s' =>
      if is_space c then
        if (tok =? "")%string then split_from s' "" else tok :: split_from s' ""
      else split_from s' (tok ++ String c "")
  end.

Definition py_split (s : string) : list string := split_from s "".

(** The digits of the numeral given to [int()]: decimal digits, with single
    underscores allowed between two digits. *)
Fixpoint int_digits (s : string) (after_digit : bool) : option Decimal.uint :=
  match s with
  | EmptyString => if after_digit then Some Decimal.Nil else None
  | String c s' =>
      if (c =? "_")%char then
        if after_digit then int_digits s' false else None
      else uint_of_char c (int_digits s' true)
  end.

(** [int(token)] for a token without whitespace: an optional sign and a
    decimal numeral.  The interpreter's configurable limit on the number of
    digits is not part of the model. *)
Definition py_int (token : string) : result Z :=
  let parsed :=
    match token with
    | EmptyString => None
    | String c s =>
        if (c =? "+")%char then
          option_map Z.of_uint (int_digits s false)
        else if (c =? "-")%char then
          option_map (fun d => - Z.of_uint d) (int_digits s false)
        else option_map Z.of_uint (int_digits token false)
    end in
  match parsed with
  | Some n => Ok n
  | None => Raise ValueError
  end.

(** [map(int, tokens)] consumed by a call's star unpacking: the tokens are
    converted in order and the first bad one raises. *)
Fixpoint map_int (tokens : list string) : result (list Z) :=
  match tokens with
  | [] => Ok []
  | token :: rest =>
      match py_int token with
      | Raise e => Raise e
      | Ok n =>
          match map_int rest with
          | Raise e => Raise e
          | Ok ns => Ok (n :: ns)
          end
      end
  end.

(** A star-unpacked call of a method [f(self, a, b, c)]: exactly three positional
    arguments, else [TypeError]. *)
Definition star_args3 {A} (args : list A) : result (A * A * A) :=
  match args with
  | [a; b; c] => Ok (a, b, c)
  | _ => Raise TypeError
  end.

(** ** The read and write helpers *)

Definition unpack_B (bs : list byte) : Z :=
  match bs with
  | [b] => byte_val b
  | _ => 0
  end.

Definition read_byte : M rfile Z :=
  byte <- file_read 1 ;;
  if negb (len byte =? 1) then raise EOFError
  else ret (unpack_B byte).

Definition read_integer : M rfile Z :=
  integer_bytes <- file_read 4 ;;
  if negb (len integer_bytes =? 4) then raise EOFError
  else ret (unpack_I integer_bytes).

Definition read_float : M rfile spec_float :=
  float_bytes <- file_read 4 ;;
  if negb (len float_bytes =? 4) then raise EOFError
  else ret (unpack_f float_bytes).

Definition read_string : M rfile string :=
  string_length <- read_integer ;;
  string_bytes <- file_read string_length ;;
  if len string_bytes <? string_length then raise EOFError
  else lift_result (decode_ascii string_bytes).

Definition write_byte (value : Z) : M wfile unit :=
  value_bytes <- lift_result (pack_B value) ;;
  written <- file_write value_bytes ;;
  if negb (written =? 1) then raise OSError else ret tt.

Definition write_integer (value : Z) : M wfile unit :=
  value_bytes <- lift_result (to_bytes4 value) ;;
  written <- file_write value_bytes ;;
  if written <? 4 then raise OSError else ret tt.

Definition write_float (value : pynum) : M wfile unit :=
  value_bytes <- lift_result
    (match float_of_pynum value with
     | Ok x => pack_f x
     | Raise e => Raise e
     end) ;;
  written <- file_write value_bytes ;;
  if written <? 4 then raise OSError else ret tt.

Definition write_string (string : string) : M wfile unit :=
  write_integer (str_len string) ;;
  string_bytes <- lift_result (encode_ascii string) ;;
  written <- file_write string_bytes ;;
  if written <? str_len string then raise OSError else ret tt.

(** ** The value classes *)

Module Texture.
Record t : Type := mk { layer_ID : Z; filename : string }.

(** [Texture()]: the defaults of [__init__] are [layer_ID = 1] and
    [filename = '']. *)
Definition init : t := mk 1 "".

Definition set_layer_ID (v : Z) (self : t) : t := mk v (filename self).
Definition set_filename (v : string) (self : t) : t := mk (layer_ID self) v.

Definition parse : M (t * rfile) unit :=
  v <- on_file read_byte ;;
  on_self (set_layer_ID v) ;;
  self <- get_self ;;
  if layer_ID self =? 0 then
    on_self (set_filename "")
  else
    v <- on_file read_string ;;
    on_self (set_filename v).

Definition write : M (t * wfile) unit :=
  self <- get_self ;;
  if layer_ID self =? 0 then
    on_file (write_byte 0)
  else
    on_file (write_byte (layer_ID self)) ;;
    on_file (write_string (filename self)).
End Texture.

Module Coordinate3.
Record t : Type := mk { x : spec_float; y : spec_float; z : spec_float }.

Definition init : t := mk (S754_zero false) (S754_zero false) (S754_zero false).

Definition set_pos (vx vy vz : spec_float) (self : t) : t := mk vx vy vz.

(** [self.set_pos(x=read_float(..), z=read_float(..), y=read_float(..))]:
    the keyword arguments are evaluated in the order they are written. *)
Definition parse : M (t * rfile) unit :=
  vx <- on_file read_float ;;
  vz <- on_file read_float ;;
  vy <- on_file read_float ;;
  on_self (set_pos vx vy vz).

Definition write : M (t * wfile) unit :=
  self <- get_self ;;
  on_file (write_float (PyFloat (x self))) ;;
  on_file (write_float (PyFloat (z self))) ;;
  on_file (write_float (PyFloat (y self))).
End Coordinate3.

Module UV.
Record t : Type := mk { u : spec_float; v : spec_float }.

Definition init : t := mk (S754_zero false) (S754_zero false).

Definition set_pos (vu vv : spec_float) (self : t) : t := mk vu vv.

Definition parse : M (t * rfile) unit :=
  vu <- on_file read_float ;;
  vv <- on_file read_float ;;
  on_self (set_pos vu vv).

Definition write : M (t * wfile) unit :=
  self <- get_self ;;
  on_file (write_float (PyFloat (u self))) ;;
  on_file (write_float (PyFloat (v self))).
End UV.

Module Color.
Record t : Type := mk { r : Z; g : Z; b : Z }.

Definition init : t := mk 0 0 0.

Definition set_rgb (vr vg vb : Z) (self : t) : t := mk vr vg vb.

Definition parse_as_bytes : M (t * rfile) unit :=
  vr <- on_file read_byte ;;
  vg <- on_file read_byte ;;
  vb <- on_file read_byte ;;
  on_self (set_rgb vr vg vb).

(** [set_rgb] is called on the star-unpacked
    [map(int, color_string.split())]. *)
Definition parse_as_string : M (t * rfile) unit :=
  color_string <- on_file read_string ;;
  values <- lift_result (map_int (py_split color_string)) ;;
  '(vr, vg, vb) <- lift_result (star_args3 values) ;;
  on_self (set_rgb vr vg vb).

Definition write_as_bytes : M (t * wfile) unit :=
  self <- get_self ;;
  on_file (write_byte (r self)) ;;
  on_file (write_byte (g self)) ;;
  on_file (write_byte (b self)).

Definition write_as_string : M (t * wfile) unit :=
  self <- get_self ;;
  let color_string :=
    (py_str (r self) ++ " " ++ py_str (g self) ++ " " ++ py_str (b self))%string in
  on_file (write_string color_string).
End Color.

Module Angle.
Record t : Type := mk { pitch : pynum; yaw : pynum; roll : pynum }.

Definition init : t :=
  mk (PyFloat (S754_zero false)) (PyFloat (S754_zero false))
     (PyFloat (S754_zero false)).

Definition set_angle (vp vy vr : pynum) (self : t) : t := mk vp vy vr.

Definition parse_as_bytes : M (t * rfile) unit :=
  vp <- on_file read_float ;;
  vy <- on_file read_float ;;
  vr <- on_file read_float ;;
  on_self (set_angle (PyFloat vp) (PyFloat vy) (PyFloat vr)).

(** [set_angle] is called on the star-unpacked
    [map(int, angle_string.split())]: the attributes become [int]s. *)
Definition parse_as_string : M (t * rfile) unit :=
  angle_string <- on_file read_string ;;
  values <- lift_result (map_int (py_split angle_string)) ;;
  '(vp, vy, vr) <- lift_result (star_args3 values) ;;
  on_self (set_angle (PyInt vp) (PyInt vy) (PyInt vr)).

Definition write_as_bytes : M (t * wfile) unit :=
  self <- get_self ;;
  on_file (write_float (pitch self)) ;;
  on_file (write_float (yaw self)) ;;
  on_file (write_float (roll self)).

Definition write_as_string : M (t * wfile) unit :=
  self <- get_self ;;
  vp <- lift_result (py_round (pitch self)) ;;
  vy <- lift_result (py_round (yaw self)) ;;
  vr <- lift_result (py_round (roll self)) ;;
  let angle_string := (py_str vp ++ " " ++ py_str vy ++ " " ++ py_str vr)%string in
  on_file (write_string angle_string).
End Angle.

Module Scale.
Record t : Type := mk { x_scale : spec_float; y_scale : spec_float; z_scale : spec_float }.

Definition one : spec_float := S754_finite false 4503599627370496 (-52).

Definition init : t := mk one one one.

Definition set_scale (vx vy vz : spec_float) (self : t) : t := mk vx vy vz.

Definition parse : M (t * rfile) unit :=
  vx <- on_file read_float ;;
  vy <- on_file read_float ;;
  vz <- on_file read_float ;;
  on_self (set_scale vx vy vz).

Definition write : M (t * wfile) unit :=
  self <- get_self ;;
  on_file (write_float (PyFloat (x_scale self))) ;;
  on_file (write_float (PyFloat (y_scale self))) ;;
  on_file (write_float (PyFloat (z_scale self))).
End Scale.

(** ** The structural aggregates *)

Module Vertex.
Record t : Type := mk {
  pos : Coordinate3.t; uv_1 : UV.t; uv_2 : UV.t; color : Color.t }.

Definition init : t := mk Coordinate3.init UV.init UV.init Color.init.

Definition set_pos (v : Coordinate3.t) (self : t) : t :=
  mk v (uv_1 self) (uv_2 self) (color self).
Definition set_uv_1 (v : UV.t) (self : t) : t :=
  mk (pos self) v (uv_2 self) (color self).
Definition set_uv_2 (v : UV.t) (self : t) : t :=
  mk (pos self) (uv_1 self) v (color self).
Definition set_color (v : Color.t) (self : t) : t :=
  mk (pos self) (uv_1 self) (uv_2 self) v.

Definition parse : M (t * rfile) unit :=
  on_attr pos set_pos Coordinate3.parse ;;
  on_attr uv_1 set_uv_1 UV.parse ;;
  on_attr uv_2 set_uv_2 UV.parse ;;
  on_attr color set_color Color.parse_as_bytes.

Definition write : M (t * wfile) unit :=
  on_attr pos set_pos Coordinate3.write ;;
  on_attr uv_1 set_uv_1 UV.write ;;
  on_attr uv_2 set_uv_2 UV.write ;;
  on_attr color set_color Color.write_as_bytes.
End Vertex.

Module Triangle.
Record t : Type := mk { index_1 : Z; index_2 : Z; index_3 : Z }.

Definition init : t := mk 0 0 0.

Definition set_indices (v1 v2 v3 : Z) (self : t) : t := mk v1 v2 v3.

Definition parse : M (t * rfile) unit :=
  v1 <- on_file read_integer ;;
  v2 <- on_file read_integer ;;
  v3 <- on_file read_integer ;;
  on_self (set_indices v1 v2 v3).

Definition write : M (t * wfile) unit :=
  self <- get_self ;;
  on_file (write_integer (index_1 self)) ;;
  on_file (write_integer (index_2 self)) ;;
  on_file (write_integer (index_3 self)).
End Triangle.

Module Object.
Record t : Type := mk {
  textures : list Texture.t;
  vertices : list Vertex.t;
  triangles : list Triangle.t }.

Definition init : t := mk [] [] [].

Definition set_textures (v : list Texture.t) (self : t) : t :=
  mk v (vertices self) (triangles self).
Definition set_vertices (v : list Vertex.t) (self : t) : t :=
  mk (textures self) v (triangles self).
Definition set_triangles (v : list Triangle.t) (self : t) : t :=
  mk (textures self) (vertices self) v.

Definition parse : M (t * rfile) unit :=
  on_attr textures set_textures
    (append_each (new Texture.init Texture.parse) 2) ;;
  vertex_count <- on_file read_integer ;;
  on_attr vertices set_vertices
    (append_each (new Vertex.init Vertex.parse) (Z.to_nat vertex_count)) ;;
  triangle_count <- on_file read_integer ;;
  on_attr triangles set_triangles
    (append_each (new Triangle.init Triangle.parse) (Z.to_nat triangle_count)).

(** [while len(self.textures) < 2: self.textures.insert(0, Texture())].
    Every turn makes the list longer, so two turns are enough
    ([ensure_textures_exit]). *)
Fixpoint ensure_textures_loop (turns : nat) (textures : list Texture.t)
    : list Texture.t :=
  match turns with
  | O => textures
  | S n =>
      if len textures <? 2
      then ensure_textures_loop n (Texture.init :: textures)
      else textures
  end.

Definition ensure_textures (textures : list Texture.t) : list Texture.t :=
  ensure_textures_loop 2 textures.

Definition write : M (t * wfile) unit :=
  on_self (fun self => set_textures (ensure_textures (textures self)) self) ;;
  on_attr textures set_textures (for_each Texture.write) ;;
  self <- get_self ;;
  on_file (write_integer (len (vertices self))) ;;
  on_attr vertices set_vertices (for_each Vertex.write) ;;
  self <- get_self ;;
  on_file (write_integer (len (triangles self))) ;;
  on_attr triangles set_triangles (for_each Triangle.write).
End Object.

Module Collision.
Record t : Type := mk {
  vertices : list Coordinate3.t;
  triangles : list Triangle.t }.

Definition init : t := mk [] [].

Definition set_vertices (v : list Coordinate3.t) (self : t) : t :=
  mk v (triangles self).
Definition set_triangles (v : list Triangle.t) (self : t) : t :=
  mk (vertices self) v.

Definition parse : M (t * rfile) unit :=
  vertex_count <- on_file read_integer ;;
  on_attr vertices set_vertices
    (append_each (new Coordinate3.init Coordinate3.parse) (Z.to_nat vertex_count)) ;;
  triangle_count <- on_file read_integer ;;
  on_attr triangles set_triangles
    (append_each (new Triangle.init Triangle.parse) (Z.to_nat triangle_count)).

Definition write : M (t * wfile) unit :=
  self <- get_self ;;
  on_file (write_integer (len (vertices self))) ;;
  on_attr vertices set_vertices (for_each Coordinate3.write) ;;
  self <- get_self ;;
  on_file (write_integer (len (triangles self))) ;;
  on_attr triangles set_triangles (for_each Triangle.write).
End Collision.

Module TriggerBox.
Record t : Type := mk { collisions : list Collision.t; name : string }.

Definition init : t := mk [] "".

Definition set_collisions (v : list Collision.t) (self : t) : t :=
  mk v (name self).
Definition set_name (v : string) (self : t) : t := mk (collisions self) v.

Definition parse : M (t * rfile) unit :=
  collision_count <- on_file read_integer ;;
  on_attr collisions set_collisions
    (append_each (new Collision.init Collision.parse) (Z.to_nat collision_count)) ;;
  v <- on_file read_string ;;
  on_self (set_name v).

Definition write : M (t * wfile) unit :=
  self <- get_self ;;
  on_file (write_integer (len (collisions self))) ;;
  on_attr collisions set_collisions (for_each Collision.write) ;;
  self <- get_self ;;
  on_file (write_string (name self)).
End TriggerBox.

(** ** The point classes

    Each subclass of [Point] carries the [classname] that [Point.__init__]
    stores and that [write] emits first. *)

Module Screen.
Record t : Type := mk { classname : string; pos : Coordinate3.t; path : string }.

Definition init : t := mk "screen" Coordinate3.init "".

Definition set_pos (v : Coordinate3.t) (self : t) : t :=
  mk (classname self) v (path self).
Definition set_path (v : string) (self : t) : t :=
  mk (classname self) (pos self) v.

Definition parse : M (t * rfile) unit :=
  on_attr pos set_pos Coordinate3.parse ;;
  v <- on_file read_string ;;
  on_self (set_path v).

Definition write : M (t * wfile) unit :=
  self <- get_self ;;
  on_file (write_string (classname self)) ;;
  on_attr pos set_pos Coordinate3.write ;;
  self <- get_self ;;
  on_file (write_string (path self)).
End Screen.

Module Waypoint.
Record t : Type := mk { classname : string; pos : Coordinate3.t }.

Definition init : t := mk "waypoint" Coordinate3.init.

Definition set_pos (v : Coordinate3.t) (self : t) : t := mk (classname self) v.

Definition parse : M (t * rfile) unit :=
  on_attr pos set_pos Coordinate3.parse.

Definition write : M (t * wfile) unit :=
  self <- get_self ;;
  on_file (write_string (classname self)) ;;
  on_attr pos set_pos Coordinate3.write.
End Waypoint.

Module Light.
Record t : Type := mk {
  classname : string; pos : Coordinate3.t; range : spec_float;
  color : Color.t; intensity : spec_float }.

Definition init : t :=
  mk "light" Coordinate3.init (S754_zero false) Color.init (S754_zero false).

Definition set_pos (v : Coordinate3.t) (self : t) : t :=
  mk (classname self) v (range self) (color self) (intensity self).
Definition set_range (v : spec_float) (self : t) : t :=
  mk (classname self) (pos self) v (color self) (intensity self).
Definition set_color (v : Color.t) (self : t) : t :=
  mk (classname self) (pos self) (range self) v (intensity self).
Definition set_intensity (v : spec_float) (self : t) : t :=
  mk (classname self) (pos self) (range self) (color self) v.

Definition parse : M (t * rfile) unit :=
  on_attr pos set_pos Coordinate3.parse ;;
  v <- on_file read_float ;;
  on_self (set_range v) ;;
  on_attr color set_color Color.parse_as_string ;;
  v <- on_file read_float ;;
  on_self (set_intensity v).

Definition write : M (t * wfile) unit :=
  self <- get_self ;;
  on_file (write_string (classname self)) ;;
  on_attr pos set_pos Coordinate3.write ;;
  self <- get_self ;;
  on_file (write_float (PyFloat (range self))) ;;
  on_attr color set_color Color.write_as_string ;;
  self <- get_self ;;
  on_file (write_float (PyFloat (intensity self))).
End Light.

Module Spotlight.
Record t : Type := mk {
  classname : string; pos : Coordinate3.t; range : spec_float;
  color : Color.t; intensity : spec_float; angle : Angle.t;
  inner_angle : Z; outer_angle : Z }.

Definition init : t :=
  mk "spotlight" Coordinate3.init (S754_zero false) Color.init
     (S754_zero false) Angle.init 0 0.

Definition set_pos (v : Coordinate3.t) (self : t) : t :=
  mk (classname self) v (range self) (color self) (intensity self)
     (angle self) (inner_angle self) (outer_angle self).
Definition set_range (v : spec_float) (self : t) : t :=
  mk (classname self) (pos self) v (color self) (intensity self)
     (angle self) (inner_angle self) (outer_angle self).
Definition set_color (v : Color.t) (self : t) : t :=
  mk (classname self) (pos self) (range self) v (intensity self)
     (angle self) (inner_angle self) (outer_angle self).
Definition set_intensity (v : spec_float) (self : t) : t :=
  mk (classname self) (pos self) (range self) (color self) v
     (angle self) (inner_angle self) (outer_angle self).
Definition set_angle (v : Angle.t) (self : t) : t :=
  mk (classname self) (pos self) (range self) (color self) (intensity self)
     v (inner_angle self) (outer_angle self).
Definition set_inner_angle (v : Z) (self : t) : t :=
  mk (classname self) (pos self) (range self) (color self) (intensity self)
     (angle self) v (outer_angle self).
Definition set_outer_angle (v : Z) (self : t) : t :=
  mk (classname self) (pos self) (range self) (color self) (intensity self)
     (angle self) (inner_angle self) v.

Definition parse : M (t * rfile) unit :=
  on_attr pos set_pos Coordinate3.parse ;;
  v <- on_file read_float ;;
  on_self (set_range v) ;;
  on_attr color set_color Color.parse_as_string ;;
  v <- on_file read_float ;;
  on_self (set_intensity v) ;;
  on_attr angle set_angle Angle.parse_as_string ;;
  v <- on_file read_integer ;;
  on_self (set_inner_angle v) ;;
  v <- on_file read_integer ;;
  on_self (set_outer_angle v).

Definition write : M (t * wfile) unit :=
  self <- get_self ;;
  on_file (write_string (classname self)) ;;
  on_attr pos set_pos Coordinate3.write ;;
  self <- get_self ;;
  on_file (write_float (PyFloat (range self))) ;;
  on_attr color set_color Color.write_as_string ;;
  self <- get_self ;;
  on_file (write_float (PyFloat (intensity self))) ;;
  on_attr angle set_angle Angle.write_as_string ;;
  self <- get_self ;;
  on_file (write_integer (inner_angle self)) ;;
  on_file (write_integer (outer_angle self)).
End Spotlight.

Module SoundEmitter.
Record t : Type := mk {
  classname : string; pos : Coordinate3.t; sound : Z; range : spec_float }.

Definition init : t := mk "soundemitter" Coordinate3.init 0 (S754_zero false).

Definition set_pos (v : Coordinate3.t) (self : t) : t :=
  mk (classname self) v (sound self) (range self).
Definition set_sound (v : Z) (self : t) : t :=
  mk (classname self) (pos self) v (range self).
Definition set_range (v : spec_float) (self : t) : t :=
  mk (classname self) (pos self) (sound self) v.

Definition parse : M (t * rfile) unit :=
  on_attr pos set_pos Coordinate3.parse ;;
  v <- on_file read_integer ;;
  on_self (set_sound v) ;;
  v <- on_file read_float ;;
  on_self (set_range v).

Definition write : M (t * wfile) unit :=
  self <- get_self ;;
  on_file (write_string (classname self)) ;;
  on_attr pos set_pos Coordinate3.write ;;
  self <- get_self ;;
  on_file (write_integer (sound self)) ;;
  on_file (write_float (PyFloat (range self))).
End SoundEmitter.

Module PlayerStart.
Record t : Type := mk { classname : string; pos : Coordinate3.t; angle : Angle.t }.

Definition init : t := mk "playerstart" Coordinate3.init Angle.init.

Definition set_pos (v : Coordinate3.t) (self : t) : t :=
  mk (classname self) v (angle self).
Definition set_angle (v : Angle.t) (self : t) : t :=
  mk (classname self) (pos self) v.

Definition parse : M (t * rfile) unit :=
  on_attr pos set_pos Coordinate3.parse ;;
  on_attr angle set_angle Angle.parse_as_string.

Definition write : M (t * wfile) unit :=
  self <- get_self ;;
  on_file (write_string (classname self)) ;;
  on_attr pos set_pos Coordinate3.write ;;
  on_attr angle set_angle Angle.write_as_string.
End PlayerStart.

Module Model.
Record t : Type := mk {
  classname : string; path : string; pos : Coordinate3.t;
  angle : Angle.t; scale : Scale.t }.

Definition init : t := mk "model" "" Coordinate3.init Angle.init Scale.init.

Definition set_path (v : string) (self : t) : t :=
  mk (classname self) v (pos self) (angle self) (scale self).
Definition set_pos (v : Coordinate3.t) (self : t) : t :=
  mk (classname self) (path self) v (angle self) (scale self).
Definition set_angle (v : Angle.t) (self : t) : t :=
  mk (classname self) (path self) (pos self) v (scale self).
Definition set_scale (v : Scale.t) (self : t) : t :=
  mk (classname self) (path self) (pos self) (angle self) v.

Definition parse : M (t * rfile) unit :=
  v <- on_file read_string ;;
  on_self (set_path v) ;;
  on_attr pos set_pos Coordinate3.parse ;;
  on_attr angle set_angle Angle.parse_as_bytes ;;
  on_attr scale set_scale Scale.parse.

Definition write : M (t * wfile) unit :=
  self <- get_self ;;
  on_file (write_string (classname self)) ;;
  on_file (write_string (path self)) ;;
  on_attr pos set_pos Coordinate3.write ;;
  on_attr angle set_angle Angle.write_as_bytes ;;
  on_attr scale set_scale Scale.write.
End Model.

Module Point.
(** An instance of one of the seven subclasses of [Point]. *)
Inductive t : Type :=
| screen (p : Screen.t)
| waypoint (p : Waypoint.t)
| light (p : Light.t)
| spotlight (p : Spotlight.t)
| soundemitter (p : SoundEmitter.t)
| playerstart (p : PlayerStart.t)
| model (p : Model.t).

Definition as_point {X F A} (wrap : X -> t) (m : M (X * F) A)
    (p : X) (file : F) : (t * F) * result A :=
  let '((p1, file1), r) := m (p, file) in ((wrap p1, file1), r).

(** [point.write(file)]: the [write] of the point's own class. *)
Definition write : M (t * wfile) unit :=
  fun '(point, file) =>
    match point with
    | screen p => as_point screen Screen.write p file
    | waypoint p => as_point waypoint Waypoint.write p file
    | light p => as_point light Light.write p file
    | spotlight p => as_point spotlight Spotlight.write p file
    | soundemitter p => as_point soundemitter SoundEmitter.write p file
    | playerstart p => as_point playerstart PlayerStart.write p file
    | model p => as_point model Model.write p file
    end.
End Point.

(** ** The document *)

Module RoomMesh.
Record t : Type := mk {
  signature : string;
  objects : list Object.t;
  collisions : list Collision.t;
  triggers : list TriggerBox.t;
  points : list Point.t }.

(** [RoomMesh()] *)
Definition init : t := mk "" [] [] [] [].

Definition set_signature (v : string) (self : t) : t :=
  mk v (objects self) (collisions self) (triggers self) (points self).
Definition set_objects (v : list Object.t) (self : t) : t :=
  mk (signature self) v (collisions self) (triggers self) (points self).
Definition set_collisions (v : list Collision.t) (self : t) : t :=
  mk (signature self) (objects self) v (triggers self) (points self).
Definition set_triggers (v : list TriggerBox.t) (self : t) : t :=
  mk (signature self) (objects self) (collisions self) v (points self).
Definition set_points (v : list Point.t) (self : t) : t :=
  mk (signature self) (objects self) (collisions self) (triggers self) v.

Definition known_signature (s : string) : bool :=
  ((s =? "RoomMesh") || (s =? "RoomMesh.HasTriggerBox"))%string.

(** The blocks of [parse], in the order of the method body. *)

Definition get_signature : M (t * rfile) unit :=
  v <- on_file read_string ;;
  on_self (set_signature v) ;;
  self <- get_self ;;
  if negb (known_signature (signature self)) then raise ValueError
  else ret tt.

Definition get_objects : M (t * rfile) unit :=
  object_count <- on_file read_integer ;;
  on_attr objects set_objects
    (append_each (new Object.init Object.parse) (Z.to_nat object_count)).

Definition get_collisions : M (t * rfile) unit :=
  collision_count <- on_file read_integer ;;
  on_attr collisions set_collisions
    (append_each (new Collision.init Collision.parse) (Z.to_nat collision_count)).

Definition get_trigger_boxes : M (t * rfile) unit :=
  self <- get_self ;;
  if (signature self =? "RoomMesh.HasTriggerBox")%string then
    trigger_count <- on_file read_integer ;;
    on_attr triggers set_triggers
      (append_each (new TriggerBox.init TriggerBox.parse) (Z.to_nat trigger_count))
  else ret tt.

Definition append_point {X} (wrap : X -> Point.t) (make : M rfile X)
    : M (list Point.t * rfile) unit :=
  point <- on_file make ;;
  on_self (fun points => points ++ [wrap point]).

(** The [match classname:] statement; it has no default case. *)
Definition match_classname (classname : string) : M (list Point.t * rfile) unit :=
  if (classname =? "screen")%string then
    append_point Point.screen (new Screen.init Screen.parse)
  else if (classname =? "waypoint")%string then
    append_point Point.waypoint (new Waypoint.init Waypoint.parse)
  else if (classname =? "light")%string then
    append_point Point.light (new Light.init Light.parse)
  else if (classname =? "spotlight")%string then
    append_point Point.spotlight (new Spotlight.init Spotlight.parse)
  else if (classname =? "soundemitter")%string then
    append_point Point.soundemitter (new SoundEmitter.init SoundEmitter.parse)
  else if (classname =? "playerstart")%string then
    append_point Point.playerstart (new PlayerStart.init PlayerStart.parse)
  else if (classname =? "model")%string then
    append_point Point.model (new Model.init Model.parse)
  else ret tt.

Fixpoint points_loop (count : nat) : M (list Point.t * rfile) unit :=
  match count with
  | O => ret tt
  | S n =>
      classname <- on_file read_string ;;
      match_classname classname ;;
      points_loop n
  end.

Definition get_points : M (t * rfile) unit :=
  point_count <- on_file read_integer ;;
  on_attr points set_points (points_loop (Z.to_nat point_count)).

Definition parse : M (t * rfile) unit :=
  get_signature ;;
  get_objects ;;
  get_collisions ;;
  get_trigger_boxes ;;
  get_points.

(** The blocks of [write]. *)

Definition write_signature : M (t * wfile) unit :=
  self <- get_self ;;
  on_file (write_string (signature self)).

Definition write_objects : M (t * wfile) unit :=
  self <- get_self ;;
  on_file (write_integer (len (objects self))) ;;
  on_attr objects set_objects (for_each Object.write).

Definition write_collisions : M (t * wfile) unit :=
  self <- get_self ;;
  on_file (write_integer (len (collisions self))) ;;
  on_attr collisions set_collisions (for_each Collision.write).

Definition write_trigger_boxes : M (t * wfile) unit :=
  self <- get_self ;;
  if len (triggers self) >? 0 then
    on_file (write_integer (len (triggers self))) ;;
    on_attr triggers set_triggers (for_each TriggerBox.write)
  else ret tt.

Definition write_points : M (t * wfile) unit :=
  self <- get_self ;;
  on_file (write_integer (len (points self))) ;;
  on_attr points set_points (for_each Point.write).

Definition write_EOF : M (t * wfile) unit :=
  on_file (write_string "EOF").

Definition write : M (t * wfile) unit :=
  write_signature ;;
  write_objects ;;
  write_collisions ;;
  write_trigger_boxes ;;
  write_points ;;
  write_EOF.
End RoomMesh.

(** ** Vocabulary of the properties *)

(** The classnames the points loop knows. *)
Definition known_classnames : list string :=
  ["screen"; "waypoint"; "light"; "spotlight"; "soundemitter";
   "playerstart"; "model"]%string.

(** The bytes a writer appends to an empty file. *)
Definition emitted {X} (w : M (X * wfile) unit) (x : X) : list byte :=
  snd (fst (w (x, []))).

(** The document [d] with the lists of [base] put in front of its own. *)
Definition prepend (base d : RoomMesh.t) : RoomMesh.t :=
  RoomMesh.mk (RoomMesh.signature d)
    (RoomMesh.objects base ++ RoomMesh.objects d)
    (RoomMesh.collisions base ++ RoomMesh.collisions d)
    (RoomMesh.triggers base ++ RoomMesh.triggers d)
    (RoomMesh.points base ++ RoomMesh.points d).

(** A method that treats what [self] already holds as a frame: run on
    [prepend base d] it does what it does on [d], in front of [base]. *)
Definition frames (m : M (RoomMesh.t * rfile) unit) : Prop :=
  forall base d file,
    m (prepend base d, file) =
      let '((d1, file1), r) := m (d, file) in ((prepend base d1, file1), r).

(** A value that a reader and a writer agree on: the writer appends some
    bytes [enc] to any file, and the reader gets the value back from [enc],
    consuming exactly those bytes. *)
Definition codec_ok {A} (rd : M rfile A) (wr : A -> M wfile unit) (a : A) : Prop :=
  exists enc,
    (forall file, wr a file = (file ++ enc, Ok tt)) /\
    (forall rest, rd (enc ++ rest) = (rest, Ok a)).

(** The same for a pair of methods: [write] leaves the object as it is and
    appends [enc]; [parse], called on [init], rebuilds the object from
    [enc]. *)
Definition method_ok {X} (parse : M (X * rfile) unit) (write : M (X * wfile) unit)
    (init x : X) : Prop :=
  exists enc,
    (forall file, write (x, file) = ((x, file ++ enc), Ok tt)) /\
    (forall rest, parse (init, enc ++ rest) = ((x, rest), Ok tt)).

(** A string that [encode('ascii')] accepts. *)
Definition ascii_string (s : string) : Prop :=
  forallb is_ascii_char (list_ascii_of_string s) = true.

(** A character that is neither whitespace nor outside ASCII. *)
Definition plain_char (c : ascii) : bool := negb (is_space c) && is_ascii_char c.

Definition plain_string (s : string) : Prop :=
  forallb plain_char (list_ascii_of_string s) = true.

(** What a list of tokens takes in the string it was split from: its
    characters and one separator each. *)
Fixpoint tokens_weight (tokens : list string) : nat :=
  match tokens with
  | [] => O
  | token :: rest => S (String.length token + tokens_weight rest)
  end.

(** A string as [write_string] lays it out: its length, then its bytes. *)
Definition wire_string (s : string) : list byte :=
  le_bytes4 (str_len s) ++ map byte_of_ascii (list_ascii_of_string s).

(** [n] is the integer nearest to the rational [num / den] (with
    [0 < den]), and the even one of the two when [num / den] lies halfway. *)
Definition nearest_ties_even (num den n : Z) : Prop :=
  2 * Z.abs (n * den - num) <= den /\
  (2 * Z.abs (n * den - num) = den -> Z.even n = true).

(** A float that is exactly a binary32 value: the widening of a valid
    single-precision float. *)
Definition binary32_value (x : spec_float) : Prop :=
  exists y, valid_binary prec32 emax32 y = true /\ x = SF64_of_SF32 y.

(** The same for a point class: [write] emits the classname before the
    fields, [parse] reads the fields only (the points loop has read the
    classname). *)
Definition body_ok {X} (name : string) (parse : M (X * rfile) unit)
    (write : M (X * wfile) unit) (init x : X) : Prop :=
  exists enc,
    (forall file, write (x, file) = ((x, file ++ wire_string name ++ enc), Ok tt)) /\
    (forall rest, parse (init, enc ++ rest) = ((x, rest), Ok tt)).

(** A point that [Point.write] and one turn of the points loop agree on. *)
Definition point_ok (p : Point.t) : Prop :=
  exists enc,
    (forall file, Point.write (p, file) = ((p, file ++ enc), Ok tt)) /\
    (forall points rest,
        RoomMesh.points_loop 1 (points, enc ++ rest) =
          ((points ++ [p], rest), Ok tt)).

(** ** Sample streams *)

(** A document with two points, as another tool could have written it: the
    angle of the player start is spelled with two spaces and signs. *)
Definition two_points_stream : list byte :=
  wire_string "RoomMesh" ++ le_bytes4 0 ++ le_bytes4 0 ++ le_bytes4 2 ++
  wire_string "waypoint" ++
  [x00; x00; x80; x3f; x00; x00; x00; x40; x00; x00; x40; x40] ++
  wire_string "playerstart" ++
  [x00; x00; x80; x3f; x00; x00; x00; x40; x00; x00; x40; x40] ++
  wire_string "0  +90 -0" ++
  wire_string "EOF".

Definition two_points : RoomMesh.t :=
  let pos :=
    Coordinate3.mk (S754_finite false 4503599627370496 (-52))
                   (S754_finite false 6755399441055744 (-51))
                   (S754_finite false 4503599627370496 (-51)) in
  RoomMesh.mk "RoomMesh" [] [] []
    [Point.waypoint (Waypoint.mk "waypoint" pos);
     Point.playerstart
       (PlayerStart.mk "playerstart" pos (Angle.mk (PyInt 0) (PyInt 90) (PyInt 0)))].

(** A stream that announces trigger boxes and has none: the signature, no
    objects, no collisions, a trigger count of zero, no points, the
    sentinel. *)
Definition no_trigger_stream : list byte :=
  wire_string "RoomMesh.HasTriggerBox" ++
  le_bytes4 0 ++ le_bytes4 0 ++ le_bytes4 0 ++ le_bytes4 0 ++
  wire_string "EOF".

Definition no_trigger : RoomMesh.t :=
  RoomMesh.mk "RoomMesh.HasTriggerBox" [] [] [] [].

(** A Python float that is neither a NaN nor an infinity. *)
Definition finite64 (x : spec_float) : Prop :=
  match x with
  | S754_zero _ => True
  | S754_finite _ m e => bounded prec64 emax64 m e = true
  | _ => False
  end.

(** A method that reads a record of [size] bytes: with that many bytes left
    it returns and has consumed exactly [size] of them; with fewer it raises
    [EOFError] and the file is at its end. *)
Definition fixed_size {S} (size : nat) (m : M (S * rfile) unit) : Prop :=
  forall (self : S) (file : rfile),
    ((size <= List.length file)%nat ->
     exists self1, m (self, file) = ((self1, skipn size file), Ok tt)) /\
    ((List.length file < size)%nat ->
     exists self1, m (self, file) = ((self1, []), Raise EOFError)).

(** A method that leaves [self] as it was, whether it returns or raises. *)
Definition keeps_self {S F A} (m : M (S * F) A) : Prop :=
  forall self file self1 file1 r,
    m (self, file) = ((self1, file1), r) -> self1 = self.

(** What the padding loop of [Object.write] makes of an object. *)
Definition padded (o : Object.t) : Object.t :=
  Object.set_textures (Object.ensure_textures (Object.textures o)) o.

(** A reading method whose successful runs do not depend on what follows
    the bytes they consume. *)
Definition ignores_tail {S A} (m : M (S * rfile) A) : Prop :=
  forall (self : S) (file : rfile) (self1 : S) (file1 : rfile) (a : A)
         (tail : list byte),
    m (self, file) = ((self1, file1), Ok a) ->
    m (self, file ++ tail) = ((self1, file1 ++ tail), Ok a).

(** ** Colours in the importer and the exporter

    The two [normalize_color] functions of [roommesh_import.py] and
    [roommesh_export.py] convert between the integer components of a
    [Color] and the float components Blender uses. *)

(** [int(x)] for a float [x]: truncation towards zero. *)
Definition int_of_float (x : spec_float) : result Z :=
  match x with
  | S754_zero _ => Ok 0
  | S754_finite s m e =>
      Ok (cond_Zopp s (if 0 <=? e then Z.pos m * 2 ^ e else Z.pos m / 2 ^ (- e)))
  | S754_infinity _ => Raise OverflowError
  | S754_nan => Raise ValueError
  end.

Module roommesh_import.
(** [n / 255.0] for an [int] [n]: the integer is converted to a float
    first. *)
Definition div_255 (n : Z) : result spec_float :=
  match float_of_int n with
  | Ok x => Ok (SFdiv prec64 emax64 x (f64 255 0))
  | Raise e => Raise e
  end.

(** The tuple has four components with [use_alpha] and three without. *)
Definition normalize_color (color : Color.t) (use_alpha : bool)
    : result (list spec_float) :=
  match div_255 (Color.r color) with
  | Raise e => Raise e
  | Ok fr =>
      match div_255 (Color.g color) with
      | Raise e => Raise e
      | Ok fg =>
          match div_255 (Color.b color) with
          | Raise e => Raise e
          | Ok fb =>
              if use_alpha then Ok [fr; fg; fb; f64 1 0] else Ok [fr; fg; fb]
          end
      end
  end.
End roommesh_import.

Module roommesh_export.
(** [int(x * 255)] for a float [x]. *)
Definition times_255 (x : spec_float) : result Z :=
  int_of_float (SFmul prec64 emax64 x (f64 255 0)).

Definition normalize_color (r g b : spec_float) : result (Z * Z * Z) :=
  match times_255 r with
  | Raise e => Raise e
  | Ok vr =>
      match times_255 g with
      | Raise e => Raise e
      | Ok vg =>
          match times_255 b with
          | Raise e => Raise e
          | Ok vb => Ok (vr, vg, vb)
          end
      end
  end.

(** *** The scene loop

    The exporter walks over the objects of the Blender scene.  What it
    reads off an object, and the conversions that go through Blender's
    mesh, light and image data, are parameters here: an object is any
    type with these attributes, and a conversion is any function that
    returns the converted value or raises. *)
Section Scene.
Variable BObject : Type.
Variable obj_type : BObject -> string.        (* obj.type *)
Variable is_collision : BObject -> bool.      (* obj.roommesh.is_collision *)
Variable is_trigger : BObject -> bool.        (* obj.roommesh.is_trigger *)
Variable trigger_name : BObject -> string.    (* obj.roommesh.trigger_name *)
Variable role : BObject -> string.            (* obj.roommesh.role *)
Variable light_type : BObject -> string.      (* obj.data.type *)
Variable convert_object : BObject -> result Object.t.
Variable convert_collision : BObject -> result Collision.t.
Variable convert_screen : BObject -> result Screen.t.
Variable convert_waypoint : BObject -> result Waypoint.t.
Variable convert_light : BObject -> result Light.t.
Variable convert_spotlight : BObject -> result Spotlight.t.
Variable convert_soundemitter : BObject -> result SoundEmitter.t.
Variable convert_playerstart : BObject -> result PlayerStart.t.

(** The loop of [convert_trigger_box] over [room.triggers]: the collision
    is appended to the first trigger that has the name, and [None] stands
    for the loop ending without a [return]. *)
Fixpoint append_to_trigger (name : string) (collision : Collision.t)
    (triggers : list TriggerBox.t) : option (list TriggerBox.t) :=
  match triggers with
  | [] => None
  | trigger :: rest =>
      if (name =? TriggerBox.name trigger)%string then
        Some (TriggerBox.set_collisions
                (TriggerBox.collisions trigger ++ [collision]) trigger :: rest)
      else option_map (cons trigger) (append_to_trigger name collision rest)
  end.

Definition convert_trigger_box (obj : BObject) : M RoomMesh.t unit :=
  collision <- lift_result (convert_collision obj) ;;
  fun room =>
    match append_to_trigger (trigger_name obj) collision (RoomMesh.triggers room) with
    | Some triggers => (RoomMesh.set_triggers triggers room, Ok tt)
    | None =>
        let trigger :=
          TriggerBox.set_collisions
            (TriggerBox.collisions TriggerBox.init ++ [collision])
            (TriggerBox.set_name (trigger_name obj) TriggerBox.init) in
        (RoomMesh.set_triggers (RoomMesh.triggers room ++ [trigger]) room, Ok tt)
    end.

(** [room.points.append(point)] and the like. *)
Definition append_to {X} (get : RoomMesh.t -> list X)
    (set : list X -> RoomMesh.t -> RoomMesh.t) (r : result X)
    : M RoomMesh.t unit :=
  item <- lift_result r ;;
  fun room => (set (get room ++ [item]) room, Ok tt).

Definition append_point_of {X} (wrap : X -> Point.t) (r : result X)
    : M RoomMesh.t unit :=
  point <- lift_result r ;;
  fun room =>
    (RoomMesh.set_points (RoomMesh.points room ++ [wrap point]) room, Ok tt).

(** The body of the loop over [context.scene.objects]. *)
Definition export_object (obj : BObject) : M RoomMesh.t unit :=
  if (obj_type obj =? "MESH")%string then
    if is_collision obj then
      if is_trigger obj then convert_trigger_box obj
      else append_to RoomMesh.collisions RoomMesh.set_collisions
             (convert_collision obj)
    else append_to RoomMesh.objects RoomMesh.set_objects (convert_object obj)
  else if (obj_type obj =? "EMPTY")%string then
    if (role obj =? "SCREEN")%string then
      append_point_of Point.screen (convert_screen obj)
    else if (role obj =? "WAYPOINT")%string then
      append_point_of Point.waypoint (convert_waypoint obj)
    else if (role obj =? "PLAYERSTART")%string then
      append_point_of Point.playerstart (convert_playerstart obj)
    else ret tt
  else if (obj_type obj =? "LIGHT")%string then
    if (light_type obj =? "SPOT")%string then
      append_point_of Point.spotlight (convert_spotlight obj)
    else append_point_of Point.light (convert_light obj)
  else if (obj_type obj =? "SPEAKER")%string then
    append_point_of Point.soundemitter (convert_soundemitter obj)
  else ret tt.

Fixpoint export_objects (objs : list BObject) : M RoomMesh.t unit :=
  match objs with
  | [] => ret tt
  | obj :: rest => export_object obj ;; export_objects rest
  end.

(** The signature is chosen once the scene has been walked. *)
Definition choose_signature : M RoomMesh.t unit :=
  fun room =>
    if len (RoomMesh.triggers room) >? 0
    then (RoomMesh.set_signature "RoomMesh.HasTriggerBox" room, Ok tt)
    else (RoomMesh.set_signature "RoomMesh" room, Ok tt).

(** [export_roommesh], on the objects of the scene: the document built and
    the file written, which is [None] when the file was not opened
    because a conversion raised. *)
Definition export_roommesh (objs : list BObject)
    : (RoomMesh.t * option wfile) * result unit :=
  let '(room, r) := (export_objects objs ;; choose_signature) RoomMesh.init in
  match r with
  | Raise e => ((room, None), Raise e)
  | Ok _ =>
      let '((room1, file), r1) := RoomMesh.write (room, []) in
      ((room1, Some file), r1)
  end.
End Scene.
End roommesh_export.

(** A float between 0 and 1, the bounds included. *)
Definition unit_float (x : spec_float) : Prop :=
  match x with
  | S754_zero _ => True
  | S754_finite false m e => e <= 0 /\ Z.pos m <= 2 ^ (- e)
  | _ => False
  end.

(** *** Vocabulary for the scene loop *)

(** The collisions held by the first trigger box of a list that has the
    name; none if there is no such trigger box. *)
Definition collisions_of (name : string) (triggers : list TriggerBox.t)
    : list Collision.t :=
  match find (fun t => (TriggerBox.name t =? name)%string) triggers with
  | Some t => TriggerBox.collisions t
  | None => []
  end.

Section SceneVocabulary.
Variable BObject : Type.
Variable obj_type : BObject -> string.
Variable is_collision : BObject -> bool.
Variable is_trigger : BObject -> bool.
Variable trigger_name : BObject -> string.
Variable convert_collision : BObject -> result Collision.t.

(** The objects that the exporter makes trigger boxes of. *)
Definition is_trigger_object (obj : BObject) : bool :=
  (obj_type obj =? "MESH")%string && is_collision obj && is_trigger obj.

(** The converted collisions of the trigger objects that have the name, in
    the order of the scene. *)
Definition converted_triggers (name : string) (objs : list BObject)
    : list Collision.t :=
  flat_map
    (fun obj =>
       if is_trigger_object obj && (trigger_name obj =? name)%string then
         match convert_collision obj with
         | Ok collision => [collision]
         | Raise _ => []
         end
       else [])
    objs.
End SceneVocabulary.

(** A point of any class but [Model]. *)
Definition not_model (p : Point.t) : Prop :=
  match p with Point.model _ => False | _ => True end.

(*END-DEFINITIONS*)

(** * Properties *)

(** ** The method monad *)

Lemma bind_ok {S A B} (m : M S A) (k : A -> M S B) s s1 a :
  m s = (s1, Ok a) -> bind m k s = k a s1.
Proof. unfold bind; intros ->; reflexivity. Qed.

Lemma bind_raise {S A B} (m : M S A) (k : A -> M S B) s s1 e :
  m s = (s1, Raise e) -> bind m k s = (s1, Raise e).
Proof. unfold bind; intros ->; reflexivity. Qed.

Lemma bind_ok_inv {S A B} (m : M S A) (k : A -> M S B) s s2 b :
  bind m k s = (s2, Ok b) ->
  exists s1 a, m s = (s1, Ok a) /\ k a s1 = (s2, Ok b).
Proof.
  unfold bind; destruct (m s) as [s1 [a|e]]; intros H.
  - exists s1, a; auto.
  - discriminate.
Qed.

Lemma on_file_ok {S F A} (m : M F A) (self : S) file file1 a :
  m file = (file1, Ok a) -> on_file m (self, file) = ((self, file1), Ok a).
Proof. unfold on_file; intros ->; reflexivity. Qed.

Lemma on_file_inv {S F A} (m : M F A) (self self1 : S) file file1 r :
  on_file m (self, file) = ((self1, file1), r) ->
  self1 = self /\ m file = (file1, r).
Proof.
  unfold on_file; destruct (m file) as [f r0]; intros H; inversion H; auto.
Qed.

Lemma on_attr_ok {S X F A} (get : S -> X) set (m : M (X * F) A)
    (self : S) file x1 file1 a :
  m (get self, file) = ((x1, file1), Ok a) ->
  on_attr get set m (self, file) = ((set x1 self, file1), Ok a).
Proof. unfold on_attr; intros ->; reflexivity. Qed.

Lemma on_attr_inv {S X F A} (get : S -> X) set (m : M (X * F) A)
    (self self1 : S) file file1 r :
  on_attr get set m (self, file) = ((self1, file1), r) ->
  exists x1, m (get self, file) = ((x1, file1), r) /\ self1 = set x1 self.
Proof.
  unfold on_attr; destruct (m (get self, file)) as [[x1 f1] r0]; intros H.
  inversion H; subst; eauto.
Qed.

Lemma new_ok {X F} (init : X) (m : M (X * F) unit) file x1 file1 :
  m (init, file) = ((x1, file1), Ok tt) -> new init m file = (file1, Ok x1).
Proof. unfold new; intros ->; reflexivity. Qed.

Lemma new_inv {X F} (init : X) (m : M (X * F) unit) file x1 file1 :
  new init m file = (file1, Ok x1) -> m (init, file) = ((x1, file1), Ok tt).
Proof.
  unfold new; destruct (m (init, file)) as [[x f] [[]|e]]; intros H;
    inversion H; subst; reflexivity.
Qed.


(** ** The read helpers on the bytes they consume *)

Lemma read_byte_cons b rest : read_byte (b :: rest) = (rest, Ok (byte_val b)).
Proof. reflexivity. Qed.

Lemma read_integer_cons b0 b1 b2 b3 rest :
  read_integer (b0 :: b1 :: b2 :: b3 :: rest) =
    (rest, Ok (unpack_I [b0; b1; b2; b3])).
Proof. reflexivity. Qed.

Lemma read_float_cons b0 b1 b2 b3 rest :
  read_float (b0 :: b1 :: b2 :: b3 :: rest) =
    (rest, Ok (unpack_f [b0; b1; b2; b3])).
Proof. reflexivity. Qed.

(** ** C7: the empty texture *)

(** C7. A texture whose layer ID is 0 is written as the single byte 0,
    whatever its filename; parsing a stream that starts with the byte 0 reads
    that byte only and leaves an empty filename. *)
Theorem C7_texture_layer_zero :
  (forall (tex : Texture.t) (file : wfile),
      Texture.layer_ID tex = 0 ->
      Texture.write (tex, file) = ((tex, file ++ [x00]), Ok tt)) /\
  (forall (self : Texture.t) (b : byte) (rest : rfile),
      byte_val b = 0 ->
      Texture.parse (self, b :: rest) = ((Texture.mk 0 "", rest), Ok tt)).
Proof.
  split.
  - intros [l f] file H; simpl in H; subst l. reflexivity.
  - intros [l f] b rest H.
    unfold Texture.parse.
    erewrite bind_ok by (apply on_file_ok, read_byte_cons).
    rewrite H. reflexivity.
Qed.

Lemma C7_witness :
  Texture.write (Texture.mk 0 "anything", []) =
    ((Texture.mk 0 "anything", [x00]), Ok tt) /\
  Texture.parse (Texture.init, [x00; x2a]) = ((Texture.mk 0 "", [x2a]), Ok tt).
Proof.
  split.
  - apply (proj1 C7_texture_layer_zero (Texture.mk 0 "anything") []).
    reflexivity.
  - apply (proj2 C7_texture_layer_zero Texture.init x00 [x2a]).
    reflexivity.
Defined.

(** ** C4: a classname the points loop does not know *)

Lemma match_classname_unknown (classname : string) :
  ~ In classname known_classnames ->
  RoomMesh.match_classname classname = ret tt.
Proof.
  intros Hn. unfold RoomMesh.match_classname.
  repeat match goal with
  | |- context [(classname =? ?lit)%string] =>
      destruct (String.eqb_spec classname lit) as [->|_];
      [exfalso; apply Hn; simpl; tauto|]
  end.
  reflexivity.
Qed.

(** C4. For a classname outside the seven known ones the [match] statement
    does nothing: no point is appended and the file is left where the
    classname ended, so a turn of the points loop consumes the classname
    string and nothing of the bytes that follow it. *)
Theorem C4_unknown_classname_dropped (classname : string) :
  ~ In classname known_classnames ->
  (forall (points : list Point.t) (file : rfile),
      RoomMesh.match_classname classname (points, file) = ((points, file), Ok tt)) /\
  (forall (points : list Point.t) (file file1 : rfile),
      read_string file = (file1, Ok classname) ->
      RoomMesh.points_loop 1 (points, file) = ((points, file1), Ok tt)).
Proof.
  intros Hn; split.
  - intros points file. rewrite (match_classname_unknown _ Hn). reflexivity.
  - intros points file file1 Hread. simpl.
    erewrite bind_ok by (apply on_file_ok, Hread).
    rewrite (match_classname_unknown _ Hn). reflexivity.
Qed.

Lemma C4_witness :
  RoomMesh.points_loop 1
    ([], [x05; x00; x00; x00; x62; x6f; x67; x75; x73; x01; x02; x03]) =
  (([], [x01; x02; x03]), Ok tt).
Proof.
  apply (proj2 (C4_unknown_classname_dropped "bogus"
          ltac:(simpl; intuition discriminate)) []
          [x05; x00; x00; x00; x62; x6f; x67; x75; x73; x01; x02; x03]
          [x01; x02; x03]).
  reflexivity.
Defined.

(** ** C9: the signature *)

(** C9. [parse] starts by reading the signature string: when that read
    raises, [parse] raises the same exception; when the string is neither
    ["RoomMesh"] nor ["RoomMesh.HasTriggerBox"], [parse] stores it and raises
    [ValueError]; for the two known literals the signature block returns and
    [parse] goes on with the object count. *)
Theorem C9_signature_check (self : RoomMesh.t) (file : rfile) :
  (forall file1 e,
      read_string file = (file1, Raise e) ->
      RoomMesh.parse (self, file) = ((self, file1), Raise e)) /\
  (forall file1 sig,
      read_string file = (file1, Ok sig) ->
      sig <> "RoomMesh"%string -> sig <> "RoomMesh.HasTriggerBox"%string ->
      RoomMesh.parse (self, file) =
        ((RoomMesh.set_signature sig self, file1), Raise ValueError)) /\
  (forall file1 sig,
      read_string file = (file1, Ok sig) ->
      sig = "RoomMesh"%string \/ sig = "RoomMesh.HasTriggerBox"%string ->
      RoomMesh.get_signature (self, file) =
        ((RoomMesh.set_signature sig self, file1), Ok tt) /\
      RoomMesh.parse (self, file) =
        (RoomMesh.get_objects ;; RoomMesh.get_collisions ;;
         RoomMesh.get_trigger_boxes ;; RoomMesh.get_points)
          (RoomMesh.set_signature sig self, file1)).
Proof.
  split; [|split].
  - intros file1 e Hread. unfold RoomMesh.parse, RoomMesh.get_signature.
    apply bind_raise. apply bind_raise.
    unfold on_file. rewrite Hread. reflexivity.
  - intros file1 sig Hread H1 H2. unfold RoomMesh.parse.
    apply bind_raise. unfold RoomMesh.get_signature.
    erewrite bind_ok by (apply on_file_ok, Hread).
    cbn. unfold RoomMesh.known_signature.
    destruct (String.eqb_spec sig "RoomMesh"); [contradiction|].
    destruct (String.eqb_spec sig "RoomMesh.HasTriggerBox"); [contradiction|].
    reflexivity.
  - intros file1 sig Hread Hsig.
    assert (Hs : RoomMesh.get_signature (self, file) =
                 ((RoomMesh.set_signature sig self, file1), Ok tt)).
    { unfold RoomMesh.get_signature.
      erewrite bind_ok by (apply on_file_ok, Hread).
      destruct Hsig as [-> | ->]; reflexivity. }
    split; [exact Hs|].
    unfold RoomMesh.parse. rewrite (bind_ok _ _ _ _ _ Hs). reflexivity.
Qed.

Lemma C9_witness :
  RoomMesh.parse (RoomMesh.init, [x03; x00; x00; x00; x61; x62; x63; x00]) =
    ((RoomMesh.set_signature "abc" RoomMesh.init, [x00]), Raise ValueError) /\
  RoomMesh.parse (RoomMesh.init, [x03; x00; x00]) =
    ((RoomMesh.init, []), Raise EOFError) /\
  RoomMesh.get_signature
    (RoomMesh.init,
     [x08; x00; x00; x00; x52; x6f; x6f; x6d; x4d; x65; x73; x68; x00]) =
    ((RoomMesh.set_signature "RoomMesh" RoomMesh.init, [x00]), Ok tt).
Proof.
  split; [|split].
  - apply (proj1 (proj2 (C9_signature_check RoomMesh.init _)) [x00] "abc"%string);
      [reflexivity | discriminate | discriminate].
  - apply (proj1 (C9_signature_check RoomMesh.init _) [] EOFError).
    reflexivity.
  - apply (proj2 (proj2 (C9_signature_check RoomMesh.init _)) [x00]
             "RoomMesh"%string); [reflexivity | left; reflexivity].
Defined.

(** ** C10: [parse] appends to what the instance holds *)

Lemma append_each_app {X} (make : M rfile X) (count : nat) :
  forall (xs ys : list X) (file : rfile),
    append_each make count (xs ++ ys, file) =
      let '((zs, file1), r) := append_each make count (ys, file) in
      ((xs ++ zs, file1), r).
Proof.
  induction count as [|n IH]; intros xs ys file; [reflexivity|].
  cbn [append_each]. unfold bind at 1 3, on_file.
  destruct (make file) as [file1 [item|e]]; [|reflexivity].
  unfold bind, on_self. rewrite <- app_assoc. apply IH.
Qed.

Lemma append_point_app {X} (wrap : X -> Point.t) (make : M rfile X) :
  forall (xs ys : list Point.t) (file : rfile),
    RoomMesh.append_point wrap make (xs ++ ys, file) =
      let '((zs, file1), r) := RoomMesh.append_point wrap make (ys, file) in
      ((xs ++ zs, file1), r).
Proof.
  intros xs ys file. unfold RoomMesh.append_point, bind, on_file, on_self.
  destruct (make file) as [file1 [item|e]]; [|reflexivity].
  rewrite <- app_assoc. reflexivity.
Qed.

Lemma match_classname_app (classname : string) :
  forall (xs ys : list Point.t) (file : rfile),
    RoomMesh.match_classname classname (xs ++ ys, file) =
      let '((zs, file1), r) := RoomMesh.match_classname classname (ys, file) in
      ((xs ++ zs, file1), r).
Proof.
  intros xs ys file. unfold RoomMesh.match_classname.
  repeat match goal with
  | |- context [(classname =? ?lit)%string] =>
      destruct (classname =? lit)%string; [apply append_point_app|]
  end.
  reflexivity.
Qed.

Lemma points_loop_app (count : nat) :
  forall (xs ys : list Point.t) (file : rfile),
    RoomMesh.points_loop count (xs ++ ys, file) =
      let '((zs, file1), r) := RoomMesh.points_loop count (ys, file) in
      ((xs ++ zs, file1), r).
Proof.
  induction count as [|n IH]; intros xs ys file; [reflexivity|].
  cbn [RoomMesh.points_loop]. unfold bind at 1 3, on_file.
  destruct (read_string file) as [file1 [classname|e]]; [|reflexivity].
  unfold bind. rewrite match_classname_app.
  destruct (RoomMesh.match_classname classname (ys, file1)) as [[zs file2] [[]|e]];
    [apply IH | reflexivity].
Qed.

Lemma frames_bind (m k : M (RoomMesh.t * rfile) unit) :
  frames m -> frames k -> frames (m ;; k).
Proof.
  intros Hm Hk base d file. unfold bind. rewrite Hm.
  destruct (m (d, file)) as [[d1 file1] [[]|e]]; [apply Hk | reflexivity].
Qed.

Lemma frames_get_objects : frames RoomMesh.get_objects.
Proof.
  intros base d file. unfold RoomMesh.get_objects, bind, on_file.
  destruct (read_integer file) as [file1 [n|e]]; [|reflexivity].
  unfold on_attr. cbn [prepend RoomMesh.objects]. rewrite append_each_app.
  destruct (append_each _ _ (RoomMesh.objects d, file1)) as [[zs file2] r].
  reflexivity.
Qed.

Lemma frames_get_collisions : frames RoomMesh.get_collisions.
Proof.
  intros base d file. unfold RoomMesh.get_collisions, bind, on_file.
  destruct (read_integer file) as [file1 [n|e]]; [|reflexivity].
  unfold on_attr. cbn [prepend RoomMesh.collisions]. rewrite append_each_app.
  destruct (append_each _ _ (RoomMesh.collisions d, file1)) as [[zs file2] r].
  reflexivity.
Qed.

Lemma frames_get_trigger_boxes : frames RoomMesh.get_trigger_boxes.
Proof.
  intros base d file. unfold RoomMesh.get_trigger_boxes, bind, get_self.
  cbn [prepend RoomMesh.signature].
  destruct (RoomMesh.signature d =? "RoomMesh.HasTriggerBox")%string;
    [|reflexivity].
  unfold on_file.
  destruct (read_integer file) as [file1 [n|e]]; [|reflexivity].
  unfold on_attr. cbn [prepend RoomMesh.triggers]. rewrite append_each_app.
  destruct (append_each _ _ (RoomMesh.triggers d, file1)) as [[zs file2] r].
  reflexivity.
Qed.

Lemma frames_get_points : frames RoomMesh.get_points.
Proof.
  intros base d file. unfold RoomMesh.get_points, bind, on_file.
  destruct (read_integer file) as [file1 [n|e]]; [|reflexivity].
  unfold on_attr. cbn [prepend RoomMesh.points]. rewrite points_loop_app.
  destruct (RoomMesh.points_loop _ (RoomMesh.points d, file1)) as [[zs file2] r].
  reflexivity.
Qed.

Lemma frames_get_signature : frames RoomMesh.get_signature.
Proof.
  intros base d file. unfold RoomMesh.get_signature, bind, on_file.
  destruct (read_string file) as [file1 [sig|e]]; [|reflexivity].
  unfold on_self, get_self.
  cbn [RoomMesh.set_signature RoomMesh.signature prepend].
  destruct (negb (RoomMesh.known_signature sig)); reflexivity.
Qed.

Lemma frames_parse : frames RoomMesh.parse.
Proof.
  unfold RoomMesh.parse.
  repeat apply frames_bind;
    auto using frames_get_signature, frames_get_objects,
      frames_get_collisions, frames_get_trigger_boxes, frames_get_points.
Qed.

Lemma prepend_init (self : RoomMesh.t) :
  RoomMesh.objects (prepend self RoomMesh.init) = RoomMesh.objects self /\
  RoomMesh.collisions (prepend self RoomMesh.init) = RoomMesh.collisions self /\
  RoomMesh.triggers (prepend self RoomMesh.init) = RoomMesh.triggers self /\
  RoomMesh.points (prepend self RoomMesh.init) = RoomMesh.points self.
Proof. cbn. rewrite !app_nil_r. auto. Qed.

(** C10. [parse] never clears the lists of the instance it is called on.
    Whatever the instance holds and whether [parse] returns or raises, the
    objects, collisions, triggers and points it held stay where they were,
    and the elements read from the file (those an instance with empty lists
    ends up with) are appended after them. *)
Theorem C10_parse_appends (self : RoomMesh.t) (file : rfile) :
  let empty := RoomMesh.set_signature (RoomMesh.signature self) RoomMesh.init in
  let '((d, file1), r) := RoomMesh.parse (empty, file) in
  RoomMesh.parse (self, file) =
    ((RoomMesh.mk (RoomMesh.signature d)
        (RoomMesh.objects self ++ RoomMesh.objects d)
        (RoomMesh.collisions self ++ RoomMesh.collisions d)
        (RoomMesh.triggers self ++ RoomMesh.triggers d)
        (RoomMesh.points self ++ RoomMesh.points d),
      file1), r).
Proof.
  intros empty.
  assert (Hself : prepend self empty = self).
  { destruct self; unfold prepend, empty; cbn. rewrite !app_nil_r. reflexivity. }
  pose proof (frames_parse self empty file) as H.
  rewrite Hself in H.
  destruct (RoomMesh.parse (empty, file)) as [[d file1] r]. exact H.
Qed.

(** ** C6: the trigger section *)









(** The two branches of the trigger blocks. *)

Lemma write_trigger_boxes_empty self file :
  RoomMesh.triggers self = [] ->
  RoomMesh.write_trigger_boxes (self, file) = ((self, file), Ok tt).
Proof.
  intros H. unfold RoomMesh.write_trigger_boxes, bind, get_self.
  rewrite H. reflexivity.
Qed.

Lemma write_trigger_boxes_nonempty self file :
  RoomMesh.triggers self <> [] ->
  RoomMesh.write_trigger_boxes (self, file) =
    (on_file (write_integer (len (RoomMesh.triggers self))) ;;
     on_attr RoomMesh.triggers RoomMesh.set_triggers (for_each TriggerBox.write))
      (self, file).
Proof.
  intros H. unfold RoomMesh.write_trigger_boxes at 1. unfold bind at 1, get_self.
  destruct (RoomMesh.triggers self) as [|t ts] eqn:E; [contradiction|].
  reflexivity.
Qed.

Lemma get_trigger_boxes_skip self file :
  RoomMesh.signature self <> "RoomMesh.HasTriggerBox"%string ->
  RoomMesh.get_trigger_boxes (self, file) = ((self, file), Ok tt).
Proof.
  intros H. unfold RoomMesh.get_trigger_boxes, bind, get_self.
  destruct (String.eqb_spec (RoomMesh.signature self) "RoomMesh.HasTriggerBox");
    [contradiction | reflexivity].
Qed.

Lemma get_trigger_boxes_read self file :
  RoomMesh.signature self = "RoomMesh.HasTriggerBox"%string ->
  RoomMesh.get_trigger_boxes (self, file) =
    (trigger_count <- on_file read_integer ;;
     on_attr RoomMesh.triggers RoomMesh.set_triggers
       (append_each (new TriggerBox.init TriggerBox.parse)
          (Z.to_nat trigger_count))) (self, file).
Proof.
  intros H. unfold RoomMesh.get_trigger_boxes at 1. unfold bind at 1, get_self.
  rewrite H. reflexivity.
Qed.



(** ** Bytes and 32-bit integers *)

Lemma byte_val_range b : 0 <= byte_val b < 256.
Proof.
  unfold byte_val. pose proof (Byte.to_N_bounded b). lia.
Qed.

Lemma byte_of_val b : byte_of (byte_val b) = Some b.
Proof.
  unfold byte_of, byte_val. rewrite N2Z.id. apply Byte.of_to_N.
Qed.

Lemma byte_of_small v :
  0 <= v < 256 -> exists b, byte_of v = Some b /\ byte_val b = v.
Proof.
  intros Hv. unfold byte_of, byte_val.
  destruct (Byte.of_N (Z.to_N v)) as [b|] eqn:E.
  - exists b. split; [reflexivity|].
    apply Byte.to_of_N in E. rewrite E. lia.
  - apply Byte.of_N_None_iff in E. lia.
Qed.

Lemma lor_shiftl_add a b k :
  0 <= k -> 0 <= a < 2 ^ k -> Z.lor a (Z.shiftl b k) = a + b * 2 ^ k.
Proof.
  intros Hk Ha. rewrite Z.shiftl_mul_pow2 by lia.
  assert (L : Z.land a (b * 2 ^ k) = 0).
  { apply Z.bits_inj'. intros n Hn.
    rewrite Z.land_spec, Z.bits_0.
    destruct (Z.ltb_spec n k).
    - rewrite Z.mul_pow2_bits_low by lia. apply andb_false_r.
    - replace a with (a mod 2 ^ k) by (apply Z.mod_small; lia).
      rewrite Z.mod_pow2_bits_high by lia. reflexivity. }
  pose proof (Z.add_lor_land a (b * 2 ^ k)). lia.
Qed.

Lemma unpack_I_arith b0 b1 b2 b3 :
  unpack_I [b0; b1; b2; b3] =
    byte_val b0 + 256 * byte_val b1 + 65536 * byte_val b2
    + 16777216 * byte_val b3.
Proof.
  unfold unpack_I.
  pose proof (byte_val_range b0). pose proof (byte_val_range b1).
  pose proof (byte_val_range b2). pose proof (byte_val_range b3).
  replace (Z.shiftl (byte_val b2) 16) with (Z.shiftl (Z.shiftl (byte_val b2) 8) 8)
    by (rewrite Z.shiftl_shiftl by lia; reflexivity).
  replace (Z.shiftl (byte_val b3) 24)
    with (Z.shiftl (Z.shiftl (Z.shiftl (byte_val b3) 8) 8) 8)
    by (rewrite !Z.shiftl_shiftl by lia; reflexivity).
  rewrite <- !Z.shiftl_lor.
  rewrite (lor_shiftl_add (byte_val b2)) by lia.
  rewrite (lor_shiftl_add (byte_val b1)) by lia.
  rewrite (lor_shiftl_add (byte_val b0)) by lia.
  change (2 ^ 8) with 256. lia.
Qed.

Lemma unpack_I_range bs : 0 <= unpack_I bs < 2 ^ 32.
Proof.
  destruct bs as [|b0 [|b1 [|b2 [|b3 [|b4 bs]]]]];
    try (cbn; lia).
  rewrite unpack_I_arith.
  pose proof (byte_val_range b0). pose proof (byte_val_range b1).
  pose proof (byte_val_range b2). pose proof (byte_val_range b3).
  change (2 ^ 32) with 4294967296. lia.
Qed.

Lemma byte_at_spec v s :
  0 <= s -> byte_val (byte_at v s) = (v / 2 ^ s) mod 256.
Proof.
  intros Hs. unfold byte_at.
  rewrite Z.shiftr_div_pow2 by lia.
  change 255 with (Z.ones 8). rewrite Z.land_ones by lia.
  change (2 ^ 8) with 256.
  destruct (byte_of_small ((v / 2 ^ s) mod 256)) as [b [-> Hb]]; [|exact Hb].
  apply Z.mod_pos_bound. lia.
Qed.

Lemma byte_val_inj b b' : byte_val b = byte_val b' -> b = b'.
Proof.
  intros H. pose proof (byte_of_val b) as E. rewrite H, byte_of_val in E.
  congruence.
Qed.

Lemma unpack_I_le_bytes4 v :
  0 <= v < 2 ^ 32 -> unpack_I (le_bytes4 v) = v.
Proof.
  intros Hv. unfold le_bytes4. rewrite unpack_I_arith.
  rewrite !byte_at_spec by lia.
  change (2 ^ 0) with 1. change (2 ^ 8) with 256.
  change (2 ^ 16) with 65536. change (2 ^ 24) with 16777216.
  change (2 ^ 32) with 4294967296 in Hv.
  Z.div_mod_to_equations. lia.
Qed.

Lemma le_bytes4_unpack_I b0 b1 b2 b3 :
  le_bytes4 (unpack_I [b0; b1; b2; b3]) = [b0; b1; b2; b3].
Proof.
  rewrite unpack_I_arith. unfold le_bytes4.
  pose proof (byte_val_range b0). pose proof (byte_val_range b1).
  pose proof (byte_val_range b2). pose proof (byte_val_range b3).
  repeat f_equal; apply byte_val_inj; rewrite byte_at_spec by lia;
    [change (2 ^ 0) with 1 | change (2 ^ 8) with 256
     | change (2 ^ 16) with 65536 | change (2 ^ 24) with 16777216];
    Z.div_mod_to_equations; lia.
Qed.

(** ** The helpers read back what they write *)

Lemma len_nonneg {A} (l : list A) : 0 <= len l.
Proof. unfold len. lia. Qed.

Lemma len_app {A} (l l' : list A) : len (l ++ l') = len l + len l'.
Proof. unfold len. rewrite length_app. lia. Qed.

Lemma file_read_app (bs rest : list byte) :
  file_read (len bs) (bs ++ rest) = (rest, Ok bs).
Proof.
  unfold file_read, len. rewrite Nat2Z.id.
  rewrite skipn_app, firstn_app, Nat.sub_diag, skipn_all, firstn_all.
  cbn. rewrite app_nil_r. reflexivity.
Qed.

Lemma file_read_inv n file file1 bs :
  file_read n file = (file1, Ok bs) -> file = bs ++ file1.
Proof.
  unfold file_read. intros H. inversion H. symmetry. apply firstn_skipn.
Qed.

Lemma read_byte_inv file file1 v :
  read_byte file = (file1, Ok v) ->
  exists b, file = b :: file1 /\ v = byte_val b.
Proof.
  destruct file as [|b file]; [discriminate|].
  rewrite read_byte_cons. intros H. inversion H. eauto.
Qed.

Lemma read_integer_inv file file1 v :
  read_integer file = (file1, Ok v) ->
  exists b0 b1 b2 b3,
    file = b0 :: b1 :: b2 :: b3 :: file1 /\ v = unpack_I [b0; b1; b2; b3].
Proof.
  destruct file as [|b0 [|b1 [|b2 [|b3 file]]]]; try discriminate.
  rewrite read_integer_cons. intros H. inversion H. eauto 6.
Qed.

Lemma read_float_inv file file1 v :
  read_float file = (file1, Ok v) ->
  exists b0 b1 b2 b3,
    file = b0 :: b1 :: b2 :: b3 :: file1 /\ v = unpack_f [b0; b1; b2; b3].
Proof.
  destruct file as [|b0 [|b1 [|b2 [|b3 file]]]]; try discriminate.
  rewrite read_float_cons. intros H. inversion H. eauto 6.
Qed.

Lemma write_byte_ok v file :
  0 <= v < 256 -> write_byte v file = (file ++ [byte_at v 0], Ok tt).
Proof.
  intros Hv. unfold write_byte, pack_B, bind, lift_result.
  replace ((0 <=? v) && (v <=? 255)) with true
    by (symmetry; apply andb_true_intro; split; lia).
  reflexivity.
Qed.

Lemma write_integer_ok v file :
  0 <= v < 2 ^ 32 -> write_integer v file = (file ++ le_bytes4 v, Ok tt).
Proof.
  intros Hv. unfold write_integer, to_bytes4, bind, lift_result.
  replace ((0 <=? v) && (v <? 2 ^ 32)) with true
    by (symmetry; apply andb_true_intro; split; lia).
  reflexivity.
Qed.

Lemma read_byte_codec file file1 v :
  read_byte file = (file1, Ok v) -> codec_ok read_byte write_byte v.
Proof.
  intros H. apply read_byte_inv in H. destruct H as [b [_ ->]].
  exists [b]. split.
  - intros file'. rewrite write_byte_ok by apply byte_val_range.
    repeat f_equal. apply byte_val_inj. rewrite byte_at_spec by lia.
    pose proof (byte_val_range b). change (2 ^ 0) with 1.
    Z.div_mod_to_equations. lia.
  - intros rest. apply read_byte_cons.
Qed.

Lemma read_integer_codec file file1 v :
  read_integer file = (file1, Ok v) -> codec_ok read_integer write_integer v.
Proof.
  intros H. apply read_integer_inv in H.
  destruct H as [b0 [b1 [b2 [b3 [_ ->]]]]].
  exists [b0; b1; b2; b3]. split.
  - intros file'. rewrite write_integer_ok by apply unpack_I_range.
    rewrite le_bytes4_unpack_I. reflexivity.
  - intros rest. apply read_integer_cons.
Qed.

Lemma count_codec (n : Z) :
  0 <= n < 2 ^ 32 -> codec_ok read_integer write_integer n.
Proof.
  intros Hn. exists (le_bytes4 n). split.
  - intros file. apply write_integer_ok, Hn.
  - intros rest. unfold le_bytes4. cbn [app]. rewrite read_integer_cons.
    change [byte_at n 0; byte_at n 8; byte_at n 16; byte_at n 24]
      with (le_bytes4 n).
    rewrite unpack_I_le_bytes4 by exact Hn. reflexivity.
Qed.

(** ** Strings on the wire *)

Lemma forallb_map_eq {A B} (f : B -> bool) (g : A -> B) l :
  forallb f (map g l) = forallb (fun a => f (g a)) l.
Proof. induction l; cbn; congruence. Qed.

Lemma forallb_ext_eq {A} (f g : A -> bool) l :
  (forall a, f a = g a) -> forallb f l = forallb g l.
Proof. intros H. induction l; cbn; congruence. Qed.

Lemma is_ascii_char_of_byte b : is_ascii_char (ascii_of_byte b) = is_ascii_byte b.
Proof.
  unfold is_ascii_char, is_ascii_byte, byte_val.
  rewrite ascii_of_byte_via_N, N_ascii_embedding; [reflexivity|].
  pose proof (Byte.to_N_bounded b). lia.
Qed.

Lemma is_ascii_byte_of_char c : is_ascii_byte (byte_of_ascii c) = is_ascii_char c.
Proof.
  rewrite <- is_ascii_char_of_byte, ascii_of_byte_of_ascii. reflexivity.
Qed.

Lemma string_length_of_list l :
  String.length (string_of_list_ascii l) = List.length l.
Proof. induction l; cbn; congruence. Qed.

Lemma list_of_string_length s :
  List.length (list_ascii_of_string s) = String.length s.
Proof. induction s; cbn; congruence. Qed.

Lemma decode_ascii_inv bs s :
  decode_ascii bs = Ok s ->
  ascii_string s /\ str_len s = len bs /\
  map byte_of_ascii (list_ascii_of_string s) = bs.
Proof.
  unfold decode_ascii, ascii_string, str_len, len.
  destruct (forallb is_ascii_byte bs) eqn:E; [|discriminate].
  intros H. inversion H. subst s. clear H.
  rewrite list_ascii_of_string_of_list_ascii, string_length_of_list.
  rewrite length_map, map_map. repeat split.
  - rewrite forallb_map_eq.
    rewrite (forallb_ext_eq _ is_ascii_byte) by apply is_ascii_char_of_byte.
    exact E.
  - rewrite <- (map_id bs) at 2. apply map_ext. apply byte_of_ascii_of_byte.
Qed.

Lemma decode_encoded s :
  ascii_string s ->
  decode_ascii (map byte_of_ascii (list_ascii_of_string s)) = Ok s.
Proof.
  unfold ascii_string, decode_ascii. intros H.
  rewrite forallb_map_eq.
  rewrite (forallb_ext_eq _ is_ascii_char) by apply is_ascii_byte_of_char.
  rewrite H, map_map.
  rewrite (map_ext _ (fun c => c)) by apply ascii_of_byte_of_ascii.
  rewrite map_id, string_of_list_ascii_of_string. reflexivity.
Qed.

Lemma write_string_ok s file :
  ascii_string s -> str_len s < 2 ^ 32 ->
  write_string s file =
    (file ++ le_bytes4 (str_len s) ++ map byte_of_ascii (list_ascii_of_string s),
     Ok tt).
Proof.
  intros Ha Hl. unfold write_string.
  erewrite bind_ok by (apply write_integer_ok; unfold str_len in *; lia).
  unfold encode_ascii. rewrite Ha. unfold bind, lift_result, file_write.
  replace (len (map byte_of_ascii (list_ascii_of_string s))) with (str_len s)
    by (unfold len, str_len; rewrite length_map, list_of_string_length;
        reflexivity).
  rewrite Z.ltb_irrefl, <- app_assoc. reflexivity.
Qed.

Lemma read_string_written s rest :
  ascii_string s -> str_len s < 2 ^ 32 ->
  read_string
    (le_bytes4 (str_len s) ++ map byte_of_ascii (list_ascii_of_string s) ++ rest)
  = (rest, Ok s).
Proof.
  intros Ha Hl. unfold read_string.
  assert (Hn : 0 <= str_len s < 2 ^ 32) by (unfold str_len in *; lia).
  destruct (count_codec _ Hn) as [enc [Hw Hr]].
  pose proof (Hw []) as Hw0. rewrite write_integer_ok in Hw0 by exact Hn.
  inversion Hw0 as [He]. cbn [app] in He. rewrite <- He in Hr.
  rewrite (bind_ok _ _ _ _ _ (Hr _)).
  assert (Hlen : str_len s = len (map byte_of_ascii (list_ascii_of_string s))).
  { unfold len, str_len. rewrite length_map, list_of_string_length. reflexivity. }
  rewrite Hlen at 1.
  rewrite (bind_ok _ _ _ _ _ (file_read_app _ _)).
  rewrite <- Hlen, Z.ltb_irrefl.
  unfold lift_result. rewrite decode_encoded by exact Ha. reflexivity.
Qed.

Lemma string_codec s :
  ascii_string s -> str_len s < 2 ^ 32 -> codec_ok read_string write_string s.
Proof.
  intros Ha Hl.
  exists (le_bytes4 (str_len s) ++ map byte_of_ascii (list_ascii_of_string s)).
  split.
  - intros file. apply write_string_ok; assumption.
  - intros rest. rewrite <- app_assoc. apply read_string_written; assumption.
Qed.

Lemma read_string_inv file file1 s :
  read_string file = (file1, Ok s) -> ascii_string s /\ str_len s < 2 ^ 32.
Proof.
  unfold read_string. intros H.
  apply bind_ok_inv in H. destruct H as [f0 [n [Hn H]]].
  apply bind_ok_inv in H. destruct H as [f1 [bs [Hbs H]]].
  destruct (Z.ltb_spec (len bs) n); [discriminate|].
  unfold lift_result in H. inversion H as [[Hf Hd]].
  apply decode_ascii_inv in Hd. destruct Hd as [Ha [Hl _]].
  split; [exact Ha|].
  assert (Hr : 0 <= n < 2 ^ 32).
  { apply read_integer_inv in Hn. destruct Hn as [b0 [b1 [b2 [b3 [_ ->]]]]].
    apply unpack_I_range. }
  unfold file_read in Hbs. injection Hbs as Hs Hb.
  assert (len bs <= n).
  { rewrite <- Hb. unfold len. rewrite length_firstn. lia. }
  lia.
Qed.

Lemma read_string_codec file file1 s :
  read_string file = (file1, Ok s) -> codec_ok read_string write_string s.
Proof.
  intros H. apply read_string_inv in H. destruct H. apply string_codec; assumption.
Qed.

(** ** Integers as text *)

Lemma int_digits_of_uint (d : Decimal.uint) (b : bool) :
  d <> Decimal.Nil \/ b = true ->
  int_digits (NilEmpty.string_of_uint d) b = Some d.
Proof.
  revert b. induction d; intros b Hb; cbn;
    try (rewrite IHd by (right; reflexivity); reflexivity).
  destruct Hb as [Hb | ->]; [contradiction | reflexivity].
Qed.

Lemma uint_string_plain (d : Decimal.uint) :
  plain_string (NilEmpty.string_of_uint d).
Proof.
  unfold plain_string. induction d; cbn [NilEmpty.string_of_uint
    list_ascii_of_string forallb]; try rewrite IHd; reflexivity.
Qed.

Lemma uint_string_length (d : Decimal.uint) :
  String.length (NilEmpty.string_of_uint d) = Decimal.nb_digits d.
Proof. induction d; cbn; congruence. Qed.

Lemma nilzero_string_length (d : Decimal.uint) :
  String.length (NilZero.string_of_uint d) = Nat.max 1 (Decimal.nb_digits d).
Proof.
  destruct d; cbn [NilZero.string_of_uint]; try reflexivity;
    rewrite uint_string_length; cbn; lia.
Qed.

Lemma py_int_uint_string (d : Decimal.uint) :
  d <> Decimal.Nil ->
  py_int (NilEmpty.string_of_uint d) = Ok (Z.of_uint d) /\
  py_int (String "-" (NilEmpty.string_of_uint d)) = Ok (- Z.of_uint d).
Proof.
  intros Hd. split.
  - unfold py_int.
    pose proof (int_digits_of_uint d false (or_introl Hd)) as E.
    destruct d; try contradiction; cbn [NilEmpty.string_of_uint] in *;
      cbn [Ascii.eqb Bool.eqb andb]; rewrite E; reflexivity.
  - unfold py_int. cbn [Ascii.eqb Bool.eqb andb].
    rewrite int_digits_of_uint by (left; exact Hd). reflexivity.
Qed.

Lemma py_str_cases (n : Z) :
  match n with
  | 0 => py_str n = "0"%string
  | Z.pos p => py_str n = NilEmpty.string_of_uint (Pos.to_uint p)
  | Z.neg p => py_str n = String "-" (NilEmpty.string_of_uint (Pos.to_uint p))
  end.
Proof.
  destruct n as [|p|p]; [reflexivity| |]; unfold py_str; cbn;
    pose proof (DecimalPos.Unsigned.to_uint_nonnil p);
    destruct (Pos.to_uint p); try contradiction; reflexivity.
Qed.

Lemma py_int_py_str (n : Z) : py_int (py_str n) = Ok n.
Proof.
  pose proof (py_str_cases n) as E. destruct n as [|p|p]; rewrite E.
  - reflexivity.
  - rewrite (proj1 (py_int_uint_string _ (DecimalPos.Unsigned.to_uint_nonnil p))).
    unfold Z.of_uint. rewrite DecimalPos.Unsigned.of_to. reflexivity.
  - rewrite (proj2 (py_int_uint_string _ (DecimalPos.Unsigned.to_uint_nonnil p))).
    unfold Z.of_uint. rewrite DecimalPos.Unsigned.of_to. reflexivity.
Qed.

Lemma py_str_plain (n : Z) : plain_string (py_str n).
Proof.
  pose proof (py_str_cases n) as E. destruct n as [|p|p]; rewrite E.
  - reflexivity.
  - apply uint_string_plain.
  - unfold plain_string. cbn [list_ascii_of_string forallb].
    rewrite (uint_string_plain (Pos.to_uint p)). reflexivity.
Qed.

Lemma py_str_nonempty (n : Z) : py_str n <> ""%string.
Proof.
  pose proof (py_str_cases n) as E. destruct n as [|p|p]; rewrite E;
    try discriminate.
  pose proof (DecimalPos.Unsigned.to_uint_nonnil p).
  destruct (Pos.to_uint p); try contradiction; discriminate.
Qed.

Lemma plain_string_app (s t : string) :
  plain_string s -> plain_string t -> plain_string (s ++ t).
Proof.
  unfold plain_string. induction s as [|c s IH]; cbn; [auto|].
  intros Hs Ht. apply andb_prop in Hs. destruct Hs as [Hc Hs].
  rewrite Hc, IH by assumption. reflexivity.
Qed.

Lemma string_app_nonempty (s t : string) :
  t <> ""%string -> ((s ++ t) =? "")%string = false.
Proof.
  intros Ht. destruct s; cbn; [|reflexivity].
  destruct t; [contradiction | reflexivity].
Qed.

Lemma string_app_assoc (s t u : string) :
  ((s ++ t) ++ u = s ++ (t ++ u))%string.
Proof. induction s; cbn; congruence. Qed.

Lemma string_app_nil_r (s : string) : (s ++ "")%string = s.
Proof. induction s; cbn; congruence. Qed.

(** A run of non-whitespace characters goes to the token being read. *)
Lemma split_from_plain (t rest tok : string) :
  plain_string t ->
  split_from (t ++ rest) tok = split_from rest (tok ++ t).
Proof.
  unfold plain_string. revert tok.
  induction t as [|c t IH]; intros tok Ht; cbn.
  - rewrite string_app_nil_r. reflexivity.
  - cbn in Ht. apply andb_prop in Ht. destruct Ht as [Hc Ht].
    unfold plain_char in Hc. apply andb_prop in Hc. destruct Hc as [Hc _].
    apply negb_true_iff in Hc. rewrite Hc.
    rewrite IH by exact Ht. rewrite string_app_assoc. reflexivity.
Qed.

Lemma py_split_three (a b c : string) :
  plain_string a -> plain_string b -> plain_string c ->
  a <> ""%string -> b <> ""%string -> c <> ""%string ->
  py_split (a ++ " " ++ b ++ " " ++ c) = [a; b; c].
Proof.
  intros Ha Hb Hc Na Nb Nc. unfold py_split.
  rewrite split_from_plain by exact Ha. cbn [append split_from is_space].
  change (is_space " ") with true. cbv iota.
  destruct a as [|a0 a]; [contradiction|]. cbn [String.eqb].
  replace (String a0 a =? "")%string with false by reflexivity.
  f_equal.
  rewrite split_from_plain by exact Hb. cbn [append split_from].
  change (is_space " ") with true. cbv iota.
  destruct b as [|b0 b]; [contradiction|].
  replace (String b0 b =? "")%string with false by reflexivity.
  f_equal.
  rewrite <- (string_app_nil_r c) at 1.
  rewrite split_from_plain by exact Hc. cbn [append split_from].
  destruct c as [|c0 c]; [contradiction|]. reflexivity.
Qed.

Lemma string_length_app (s t : string) :
  String.length (s ++ t) = (String.length s + String.length t)%nat.
Proof. induction s; cbn; congruence. Qed.

(** The tokens of a string fit in it. *)
Lemma split_from_weight (s tok : string) :
  (tokens_weight (split_from s tok) <= String.length s + String.length tok + 1)%nat.
Proof.
  revert tok. induction s as [|c s IH]; intros tok; cbn [split_from].
  - destruct (tok =? "")%string; cbn; lia.
  - destruct (is_space c).
    + destruct (tok =? "")%string.
      * specialize (IH ""%string). cbn in *. lia.
      * specialize (IH ""%string). cbn in *. lia.
    + specialize (IH (tok ++ String c "")%string).
      rewrite string_length_app in IH. cbn in *. lia.
Qed.

Lemma int_digits_length (s : string) :
  forall b d, int_digits s b = Some d ->
    (Decimal.nb_digits d <= String.length s)%nat /\
    (b = false -> d <> Decimal.Nil).
Proof.
  induction s as [|c s IH]; intros b d H; cbn in H.
  - destruct b; [|discriminate]. inversion H. split; [cbn; lia|discriminate].
  - destruct (c =? "_")%char.
    + destruct b; [|discriminate]. apply IH in H. destruct H as [H1 H2].
      split; [cbn; lia | discriminate].
    + destruct (int_digits s true) as [d'|] eqn:E; [|discriminate].
      apply IH in E. destruct E as [E _].
      apply uint_of_char_spec in H.
      split.
      * decompose [or and] H; subst; cbn; lia.
      * intros _. decompose [or and] H; subst; discriminate.
Qed.

Lemma py_str_of_uint_length (d : Decimal.uint) :
  d <> Decimal.Nil ->
  (String.length (py_str (Z.of_uint d)) <= Decimal.nb_digits d)%nat /\
  (String.length (py_str (- Z.of_uint d)) <= S (Decimal.nb_digits d))%nat.
Proof.
  intros Hd.
  assert (H1 : (1 <= Decimal.nb_digits d)%nat)
    by (destruct d; try contradiction; cbn; lia).
  unfold py_str. split.
  - change (Z.of_uint d) with (Z.of_int (Decimal.Pos d)).
    rewrite DecimalZ.to_of. cbn [Decimal.norm NilZero.string_of_int].
    rewrite nilzero_string_length.
    pose proof (DecimalFacts.nb_digits_unorm d Hd). lia.
  - change (- Z.of_uint d) with (Z.of_int (Decimal.Neg d)).
    rewrite DecimalZ.to_of. cbn [Decimal.norm].
    pose proof (DecimalFacts.nb_digits_nzhead d).
    destruct (Decimal.nzhead d) eqn:E; cbn [NilZero.string_of_int];
      try (cbn [String.length]; rewrite nilzero_string_length; lia).
    cbn. lia.
Qed.

Lemma py_int_length (token : string) (n : Z) :
  py_int token = Ok n ->
  (String.length (py_str n) <= String.length token)%nat.
Proof.
  unfold py_int. destruct token as [|c s]; [discriminate|].
  destruct (c =? "+")%char.
  - destruct (int_digits s false) as [d|] eqn:E; [|discriminate].
    cbn. intros H. inversion H. apply int_digits_length in E.
    destruct E as [E1 E2].
    pose proof (proj1 (py_str_of_uint_length d (E2 eq_refl))). lia.
  - destruct (c =? "-")%char.
    + destruct (int_digits s false) as [d|] eqn:E; [|discriminate].
      cbn. intros H. inversion H. apply int_digits_length in E.
      destruct E as [E1 E2].
      pose proof (proj2 (py_str_of_uint_length d (E2 eq_refl))). lia.
    + destruct (int_digits (String c s) false) as [d|] eqn:E; [|discriminate].
      cbn [option_map]. intros H. inversion H. apply int_digits_length in E.
      destruct E as [E1 E2].
      pose proof (proj1 (py_str_of_uint_length d (E2 eq_refl))).
      cbn [String.length] in *. lia.
Qed.

Lemma map_int_inv (tokens : list string) (ns : list Z) :
  map_int tokens = Ok ns ->
  match tokens, ns with
  | [], [] => True
  | t :: ts, n :: ns' => py_int t = Ok n /\ map_int ts = Ok ns'
  | _, _ => False
  end.
Proof.
  destruct tokens as [|t ts]; cbn.
  - intros H. inversion H. exact I.
  - destruct (py_int t) as [n|e]; [|discriminate].
    destruct (map_int ts) as [ns'|e]; [|discriminate].
    intros H. inversion H. auto.
Qed.

Lemma map_int_three (tokens : list string) (vr vg vb : Z) :
  map_int tokens = Ok [vr; vg; vb] ->
  exists tr tg tb,
    tokens = [tr; tg; tb] /\
    py_int tr = Ok vr /\ py_int tg = Ok vg /\ py_int tb = Ok vb.
Proof.
  intros H. apply map_int_inv in H.
  destruct tokens as [|tr tokens]; [contradiction|]. destruct H as [Hr H].
  apply map_int_inv in H.
  destruct tokens as [|tg tokens]; [contradiction|]. destruct H as [Hg H].
  apply map_int_inv in H.
  destruct tokens as [|tb tokens]; [contradiction|]. destruct H as [Hb H].
  apply map_int_inv in H.
  destruct tokens as [|t tokens]; [|contradiction].
  eauto 8.
Qed.

Lemma plain_is_ascii (s : string) : plain_string s -> ascii_string s.
Proof.
  unfold plain_string, ascii_string. induction s as [|c s IH]; cbn; [auto|].
  intros H. apply andb_prop in H. destruct H as [Hc Hs].
  unfold plain_char in Hc. apply andb_prop in Hc. destruct Hc as [_ Hc].
  rewrite Hc, IH by exact Hs. reflexivity.
Qed.

Lemma ascii_string_app (s t : string) :
  ascii_string s -> ascii_string t -> ascii_string (s ++ t).
Proof.
  unfold ascii_string. induction s as [|c s IH]; cbn; [auto|].
  intros Hs Ht. apply andb_prop in Hs. destruct Hs as [Hc Hs].
  rewrite Hc, IH by assumption. reflexivity.
Qed.

(** Three integers formatted as ["R G B"]: the text is read back as the same
    three integers, and it is no longer than any text they were read from. *)
Lemma three_ints_text (vr vg vb : Z) :
  let text := (py_str vr ++ " " ++ py_str vg ++ " " ++ py_str vb)%string in
  ascii_string text /\
  map_int (py_split text) = Ok [vr; vg; vb] /\
  forall s, map_int (py_split s) = Ok [vr; vg; vb] -> str_len text <= str_len s.
Proof.
  intros text. split; [|split].
  - unfold text.
    repeat apply ascii_string_app;
      try (apply plain_is_ascii, py_str_plain); reflexivity.
  - unfold text.
    rewrite py_split_three by (apply py_str_plain || apply py_str_nonempty).
    cbn [map_int]. rewrite !py_int_py_str. reflexivity.
  - intros s H. apply map_int_three in H.
    destruct H as [tr [tg [tb [Hs [Hr [Hg Hb]]]]]].
    pose proof (split_from_weight s "") as W. fold (py_split s) in W.
    rewrite Hs in W. cbn [tokens_weight String.length] in W.
    apply py_int_length in Hr, Hg, Hb.
    unfold str_len, text. rewrite !string_length_app.
    cbn [String.length]. lia.
Qed.

(** ** C3: a colour as text *)

Lemma map_int_raises (tokens : list string) (e : exn) :
  map_int tokens = Raise e -> e = ValueError.
Proof.
  induction tokens as [|t ts IH]; cbn; [discriminate|].
  unfold py_int at 1.
  destruct (match t with EmptyString => _ | String _ _ => _ end).
  - destruct (map_int ts) as [ns|e']; [discriminate|].
    intros H. inversion H. subst. apply IH. reflexivity.
  - intros H. inversion H. reflexivity.
Qed.

(** C3, as the code has it.  [Color.parse_as_string] reads one
    length-prefixed string, splits it at whitespace and converts every token
    with [int]; ["255 128 0"] gives [Color(255, 128, 0)].  The parse returns
    only for exactly three tokens that are all integers: with fewer or with
    more than three integer tokens the call of [set_rgb] raises [TypeError]
    and the colour is left as it was (no token is ignored), and a token that
    is not an integer raises [ValueError]. *)
Theorem C3_color_string_exactly_three
    (self : Color.t) (file file1 : rfile) (color_string : string) :
  read_string file = (file1, Ok color_string) ->
  (forall vr vg vb,
      map_int (py_split color_string) = Ok [vr; vg; vb] ->
      Color.parse_as_string (self, file) = ((Color.mk vr vg vb, file1), Ok tt)) /\
  (forall values,
      map_int (py_split color_string) = Ok values ->
      List.length values <> 3%nat ->
      Color.parse_as_string (self, file) = ((self, file1), Raise TypeError)) /\
  (forall e,
      map_int (py_split color_string) = Raise e ->
      Color.parse_as_string (self, file) = ((self, file1), Raise ValueError)).
Proof.
  intros Hread. unfold Color.parse_as_string.
  rewrite (bind_ok _ _ _ _ _ (on_file_ok _ self _ _ _ Hread)).
  unfold bind, lift_result. split; [|split].
  - intros vr vg vb ->. reflexivity.
  - intros values -> Hlen.
    destruct values as [|a [|b [|c [|d values]]]]; try reflexivity.
    contradiction Hlen. reflexivity.
  - intros e He. rewrite He. rewrite (map_int_raises _ _ He). reflexivity.
Qed.

Lemma C3_witness :
  Color.parse_as_string (Color.init, wire_string "255 128 0") =
    ((Color.mk 255 128 0, []), Ok tt) /\
  Color.parse_as_string (Color.init, wire_string "10 20") =
    ((Color.init, []), Raise TypeError) /\
  Color.parse_as_string (Color.init, wire_string "10 x 20") =
    ((Color.init, []), Raise ValueError).
Proof.
  split; [|split].
  - apply (proj1 (C3_color_string_exactly_three Color.init
             (wire_string "255 128 0") [] "255 128 0" eq_refl)).
    reflexivity.
  - apply (proj1 (proj2 (C3_color_string_exactly_three Color.init
             (wire_string "10 20") [] "10 20" eq_refl)) [10; 20]).
    + reflexivity.
    + discriminate.
  - apply (proj2 (proj2 (C3_color_string_exactly_three Color.init
             (wire_string "10 x 20") [] "10 x 20" eq_refl)) ValueError).
    reflexivity.
Defined.

(** The claim as stated fails: four integer tokens are not accepted with the
    fourth ignored, the parse raises. *)
Lemma C3_counterexample :
  Color.parse_as_string (Color.init, wire_string "1 2 3 4") =
    ((Color.init, []), Raise TypeError) /\
  ~ (exists c rest,
        Color.parse_as_string (Color.init, wire_string "1 2 3 4") =
          ((c, rest), Ok tt)).
Proof.
  split; [reflexivity|].
  intros [c [rest H]]. vm_compute in H. discriminate.
Qed.

(** ** C2: the two texture slots of an object *)

(** The padding loop stops with its condition false: two turns are enough. *)
Lemma ensure_textures_exit (textures : list Texture.t) :
  (len (Object.ensure_textures textures) <? 2) = false.
Proof.
  unfold Object.ensure_textures. cbn [Object.ensure_textures_loop].
  destruct (Z.ltb_spec (len textures) 2) as [H|H].
  - destruct (Z.ltb_spec (len (Texture.init :: textures)) 2) as [H'|H'].
    + unfold len in *. cbn [List.length] in *. apply Z.ltb_ge. lia.
    + apply Z.ltb_ge. exact H'.
  - apply Z.ltb_ge. exact H.
Qed.

(** C2, on the code.  With fewer than two textures [Object.write] inserts at
    the front as many [Texture()] as are missing, and with two or more it
    keeps the list; every texture of the resulting list is written.  But
    [Texture()] has [layer_ID = 1]: a padding slot is the five bytes
    [01 00 00 00 00] (layer 1, empty filename), not the single byte [00] of
    the empty texture [Texture(layer_ID=0)] that the claim and the comment in
    the loop speak of. *)
Theorem C2_padding_uses_default_texture :
  (forall textures,
      Object.ensure_textures textures =
        if len textures <? 2
        then repeat Texture.init (2 - List.length textures) ++ textures
        else textures) /\
  Texture.init = Texture.mk 1 "" /\
  Object.write (Object.mk [] [] [], []) =
    ((Object.mk [Texture.mk 1 ""; Texture.mk 1 ""] [] [],
      [x01; x00; x00; x00; x00; x01; x00; x00; x00; x00;
       x00; x00; x00; x00; x00; x00; x00; x00]), Ok tt) /\
  (emitted Object.write (Object.mk [] [] []) <>
     emitted Object.write (Object.mk [Texture.mk 0 ""; Texture.mk 0 ""] [] [])).
Proof.
  split; [|split; [|split]].
  - intros textures. unfold Object.ensure_textures.
    destruct textures as [|t0 [|t1 textures]]; try reflexivity.
    cbn [Object.ensure_textures_loop].
    replace (len (t0 :: t1 :: textures) <? 2) with false; [reflexivity|].
    symmetry. apply Z.ltb_ge. unfold len. cbn [List.length]. lia.
  - reflexivity.
  - reflexivity.
  - vm_compute. discriminate.
Qed.

(** ** C8: an angle as text *)

Lemma round_half_even_nearest (m : positive) (e : Z) :
  e < 0 -> nearest_ties_even (Z.pos m) (2 ^ (- e)) (round_half_even m e).
Proof.
  intros He. unfold round_half_even, nearest_ties_even.
  destruct (Z.leb_spec 0 e); [lia|].
  assert (Hd : 0 < 2 ^ (- e)) by (apply Z.pow_pos_nonneg; lia).
  set (d := 2 ^ (- e)) in *.
  pose proof (Z.div_mod (Z.pos m) d ltac:(lia)) as Hm.
  pose proof (Z.mod_pos_bound (Z.pos m) d Hd) as Hr.
  set (q := Z.pos m / d) in *. set (r := Z.pos m mod d) in *.
  assert (Hq : q * d - Z.pos m = - r) by (rewrite Hm at 1; ring).
  assert (Hq1 : (q + 1) * d - Z.pos m = d - r) by (rewrite Hm at 1; ring).
  destruct (Z.compare_spec (2 * r) d) as [Heq|Hlt|Hgt].
  - destruct (Z.even q) eqn:Ev.
    + rewrite Hq. split; [lia | auto].
    + rewrite Hq1. split; [lia|]. intros _.
      replace (q + 1) with (Z.succ q) by lia.
      rewrite Z.even_succ, <- Z.negb_even, Ev. reflexivity.
  - rewrite Hq. split; lia.
  - rewrite Hq1. split; lia.
Qed.

Lemma nearest_ties_even_opp (num den n : Z) :
  nearest_ties_even num den n -> nearest_ties_even (- num) den (- n).
Proof.
  unfold nearest_ties_even.
  replace (- n * den - - num) with (- (n * den - num)) by ring.
  rewrite Z.abs_opp, Z.even_opp. auto.
Qed.

(** C8. [Angle.write_as_string] passes pitch, yaw and roll through the
    builtin [round] and writes the three integers, separated by single
    spaces, as one string; parsing that string gives the three integers.
    [round] leaves an [int] as it is and takes a finite [float] to the
    nearest integer, to the even one on a tie.  So
    [Angle(pitch=44.5, yaw=0, roll=0)] is written as ["44 0 0"] and read
    back with pitch 44. *)
Theorem C8_angle_text_rounding :
  (forall (angle : Angle.t) (file : wfile) (vp vy vr : Z),
      py_round (Angle.pitch angle) = Ok vp ->
      py_round (Angle.yaw angle) = Ok vy ->
      py_round (Angle.roll angle) = Ok vr ->
      let text := (py_str vp ++ " " ++ py_str vy ++ " " ++ py_str vr)%string in
      str_len text < 2 ^ 32 ->
      Angle.write_as_string (angle, file) =
        ((angle, file ++ wire_string text), Ok tt) /\
      forall (self : Angle.t) (rest : rfile),
        Angle.parse_as_string (self, wire_string text ++ rest) =
          ((Angle.mk (PyInt vp) (PyInt vy) (PyInt vr), rest), Ok tt)) /\
  (forall n : Z, py_round (PyInt n) = Ok n) /\
  (forall (s : bool) (m : positive) (e : Z),
      0 <= e ->
      py_round (PyFloat (S754_finite s m e)) =
        Ok (cond_Zopp s (Z.pos m * 2 ^ e))) /\
  (forall (s : bool) (m : positive) (e : Z),
      e < 0 ->
      exists n,
        py_round (PyFloat (S754_finite s m e)) = Ok n /\
        nearest_ties_even (cond_Zopp s (Z.pos m)) (2 ^ (- e)) n).
Proof.
  split; [|split; [|split]].
  - intros angle file vp vy vr Hp Hy Hr text Hlen.
    destruct (three_ints_text vp vy vr) as [Ha [Hs _]]. fold text in Ha, Hs.
    split.
    + unfold Angle.write_as_string, bind, get_self, lift_result.
      rewrite Hp, Hy, Hr. fold text.
      apply on_file_ok. apply write_string_ok; assumption.
    + intros self rest. unfold Angle.parse_as_string.
      erewrite bind_ok.
      2:{ apply on_file_ok. unfold wire_string. rewrite <- app_assoc.
          apply read_string_written; assumption. }
      unfold bind, lift_result. rewrite Hs. reflexivity.
  - reflexivity.
  - intros s m e He. cbn. unfold round_half_even.
    destruct (Z.leb_spec 0 e); [reflexivity | lia].
  - intros s m e He. eexists. split; [reflexivity|].
    pose proof (round_half_even_nearest m e He) as H.
    destruct s; cbn [cond_Zopp]; [apply nearest_ties_even_opp|]; exact H.
Qed.

Lemma C8_witness :
  Angle.write_as_string (Angle.mk (PyFloat (f64 89 (-1))) (PyInt 0) (PyInt 0), []) =
    ((Angle.mk (PyFloat (f64 89 (-1))) (PyInt 0) (PyInt 0),
      wire_string "44 0 0"), Ok tt) /\
  Angle.parse_as_string (Angle.init, wire_string "44 0 0") =
    ((Angle.mk (PyInt 44) (PyInt 0) (PyInt 0), []), Ok tt) /\
  nearest_ties_even 6262818231812096 (2 ^ 47) 44.
Proof.
  pose proof (proj1 C8_angle_text_rounding
                (Angle.mk (PyFloat (f64 89 (-1))) (PyInt 0) (PyInt 0)) []
                44 0 0 eq_refl eq_refl eq_refl eq_refl) as [Hw Hp].
  split; [exact Hw|]. split; [exact (Hp Angle.init [])|].
  destruct (proj2 (proj2 (proj2 C8_angle_text_rounding))
              false 6262818231812096%positive (-47) eq_refl) as [n [Hn Hnear]].
  vm_compute in Hn. inversion Hn. subst n. exact Hnear.
Defined.

(** ** Binary32 values inside binary64 *)

Lemma digits2_pos_size (m : positive) : digits2_pos m = Pos.size m.
Proof. induction m; cbn; congruence. Qed.

Lemma digits2_bounds (m : positive) :
  2 ^ (Z.pos (digits2_pos m) - 1) <= Z.pos m < 2 ^ Z.pos (digits2_pos m).
Proof.
  rewrite digits2_pos_size.
  pose proof (Pos.size_gt m) as Hgt. pose proof (Pos.size_le m) as Hle.
  apply Pos2Z.pos_lt_pos in Hgt. apply Pos2Z.pos_le_pos in Hle.
  rewrite Pos2Z.inj_pow in Hgt, Hle.
  change (Z.pos m~0) with (2 * Z.pos m) in Hle.
  replace (Z.pos (Pos.size m)) with (Z.succ (Z.pos (Pos.size m) - 1)) in Hle at 1
    by lia.
  rewrite Z.pow_succ_r in Hle by lia. lia.
Qed.

Lemma digits2_iter_xO (d m : positive) :
  digits2_pos (Pos.iter xO m d) = (digits2_pos m + d)%positive.
Proof.
  revert m. induction d as [d IH|d IH|]; intros m; cbn [Pos.iter digits2_pos].
  - rewrite !IH. lia.
  - rewrite !IH. lia.
  - lia.
Qed.

Lemma iter_shr_1_xO (d m : positive) :
  iter_pos shr_1 d (Build_shr_record (Z.pos (Pos.iter xO m d)) false false) =
    Build_shr_record (Z.pos m) false false.
Proof.
  revert m. induction d as [d IH|d IH|]; intros m; cbn [Pos.iter iter_pos].
  - cbn [shr_1 orb]. rewrite !IH. reflexivity.
  - rewrite !IH. reflexivity.
  - reflexivity.
Qed.

Lemma binary_round_aux_exact (prec emax : Z) (s : bool) (m : positive) (e : Z) :
  fexp prec emax (Z.pos (digits2_pos m) + e) = e ->
  e <= emax - prec ->
  binary_round_aux prec emax s (Z.pos m) e loc_Exact = S754_finite s m e.
Proof.
  intros Hc He. unfold binary_round_aux, shr_fexp.
  cbn [Zdigits2 shr_record_of_loc]. rewrite Hc, Z.sub_diag.
  cbn [shr shr_m loc_of_shr_record round_nearest_even Zdigits2 shr_record_of_loc].
  rewrite Hc, Z.sub_diag. cbn [shr shr_m].
  replace (e <=? emax - prec) with true by (symmetry; apply Z.leb_le; exact He).
  reflexivity.
Qed.

(** Rounding a value whose mantissa is shorter than the precision: the
    mantissa is shifted left, nothing is lost. *)
Lemma binary_round_widen (prec emax : Z) (s : bool) (m d : positive) (e : Z) :
  fexp prec emax (Z.pos (digits2_pos m) + e) = e - Z.pos d ->
  e - Z.pos d <= emax - prec ->
  binary_round prec emax s m e =
    S754_finite s (Pos.iter xO m d) (e - Z.pos d).
Proof.
  intros Hc He. unfold binary_round, shl_align. rewrite Hc.
  replace (e - Z.pos d - e) with (Z.neg d) by lia.
  apply binary_round_aux_exact; [|exact He].
  rewrite digits2_iter_xO, Pos2Z.inj_add.
  replace (Z.pos (digits2_pos m) + Z.pos d + (e - Z.pos d))
    with (Z.pos (digits2_pos m) + e) by lia.
  exact Hc.
Qed.

(** Rounding a value whose mantissa ends in enough zeros: the zeros are
    shifted out, nothing is lost. *)
Lemma binary_round_narrow (prec emax : Z) (s : bool) (m d : positive) (e : Z) :
  fexp prec emax (Z.pos (digits2_pos m) + e) = e ->
  e <= emax - prec ->
  binary_round prec emax s (Pos.iter xO m d) (e - Z.pos d) = S754_finite s m e.
Proof.
  intros Hc He. unfold binary_round, shl_align.
  rewrite digits2_iter_xO, Pos2Z.inj_add.
  replace (Z.pos (digits2_pos m) + Z.pos d + (e - Z.pos d))
    with (Z.pos (digits2_pos m) + e) by lia.
  rewrite Hc. replace (e - (e - Z.pos d)) with (Z.pos d) by lia.
  unfold binary_round_aux, shr_fexp at 1.
  cbn [Zdigits2 shr_record_of_loc].
  rewrite digits2_iter_xO, Pos2Z.inj_add.
  replace (Z.pos (digits2_pos m) + Z.pos d + (e - Z.pos d))
    with (Z.pos (digits2_pos m) + e) by lia.
  rewrite Hc. replace (e - (e - Z.pos d)) with (Z.pos d) by lia.
  cbn [shr]. rewrite iter_shr_1_xO.
  replace (e - Z.pos d + Z.pos d) with e by lia.
  cbn [shr_m loc_of_shr_record round_nearest_even].
  unfold shr_fexp. cbn [Zdigits2 shr_record_of_loc].
  rewrite Hc, Z.sub_diag. cbn [shr shr_m].
  replace (e <=? emax - prec) with true by (symmetry; apply Z.leb_le; exact He).
  reflexivity.
Qed.

Lemma bounded32_inv (m : positive) (e : Z) :
  bounded prec32 emax32 m e = true ->
  fexp prec32 emax32 (Z.pos (digits2_pos m) + e) = e /\
  Z.pos (digits2_pos m) <= 24 /\
  ((Z.pos m < 2 ^ 23 /\ e = -149) \/
   (2 ^ 23 <= Z.pos m < 2 ^ 24 /\ -149 <= e <= 104)).
Proof.
  unfold bounded, canonical_mantissa. intros H.
  apply andb_prop in H. destruct H as [Hc He].
  apply Z.eqb_eq in Hc. apply Z.leb_le in He.
  split; [exact Hc|].
  unfold fexp, emin, prec32, emax32 in *.
  pose proof (digits2_bounds m) as [Hlo Hhi].
  set (k := Z.pos (digits2_pos m)) in *.
  assert (Hk : k <= 24) by lia. split; [exact Hk|].
  destruct (Z.eq_dec k 24) as [E|E].
  - right. rewrite E in Hlo, Hhi. change (24 - 1) with 23 in Hlo. lia.
  - left. assert (Hp : 2 ^ k <= 2 ^ 23) by (apply Z.pow_le_mono_r; lia).
    split; lia.
Qed.

Lemma SF32_of_SF64_of_SF32 (y : spec_float) :
  valid_binary prec32 emax32 y = true ->
  SF32_of_SF64 (SF64_of_SF32 y) = y /\
  match SF64_of_SF32 y, y with
  | S754_finite _ _ _, S754_finite _ _ _ => True
  | S754_finite _ _ _, _ => False
  | _, S754_finite _ _ _ => False
  | _, _ => True
  end.
Proof.
  destruct y as [s|s| |s m e]; cbn [valid_binary]; try (intros _; split; reflexivity).
  intros Hb. apply bounded32_inv in Hb. destruct Hb as [Hc [Hk Hr]].
  set (k := Z.pos (digits2_pos m)) in *.
  assert (Hk1 : 1 <= k) by (unfold k; lia).
  assert (He : -149 <= e <= 104) by lia.
  set (d := Z.to_pos (53 - k)).
  assert (Hd : Z.pos d = 53 - k) by (unfold d; rewrite Z2Pos.id; lia).
  assert (Hw : SF64_of_SF32 (S754_finite s m e) =
               S754_finite s (Pos.iter xO m d) (e - Z.pos d)).
  { cbn [SF64_of_SF32]. apply binary_round_widen.
    - fold k. unfold fexp, emin, prec64, emax64. lia.
    - unfold prec64, emax64. lia. }
  rewrite Hw. split; [|exact I].
  cbn [SF32_of_SF64]. apply binary_round_narrow; [exact Hc|].
  unfold prec32, emax32. lia.
Qed.

(** ** The binary32 encoding *)

Lemma lor_sign_bit (s : bool) (v : Z) :
  0 <= v < 2 ^ 31 ->
  Z.lor (sign_bit s) v = v + (if s then 2 ^ 31 else 0).
Proof.
  intros Hv. unfold sign_bit. destruct s.
  - rewrite Z.lor_comm, lor_shiftl_add by lia. lia.
  - rewrite Z.lor_0_l. lia.
Qed.

(** The three fields of a 32-bit pattern. *)
Lemma SF32_fields (s : bool) (expo frac : Z) :
  0 <= expo < 256 -> 0 <= frac < 2 ^ 23 ->
  let bits := frac + expo * 2 ^ 23 + (if s then 2 ^ 31 else 0) in
  Z.testbit bits 31 = s /\
  Z.land (Z.shiftr bits 23) 255 = expo /\
  Z.land bits (Z.ones 23) = frac /\
  0 <= bits < 2 ^ 32.
Proof.
  intros He Hf bits.
  change (2 ^ 23) with 8388608 in *.
  assert (Hs : 0 <= (if s then 2 ^ 31 else 0) <= 2147483648)
    by (destruct s; cbn; lia).
  assert (Hb : 0 <= bits < 4294967296) by (unfold bits; destruct s; cbn; lia).
  repeat split; try (change (2 ^ 32) with 4294967296; lia).
  - rewrite Z.testbit_odd, Z.shiftr_div_pow2 by lia.
    change (2 ^ 31) with 2147483648.
    unfold bits. destruct s; change (2 ^ 31) with 2147483648.
    + replace ((frac + expo * 8388608 + 2147483648) / 2147483648) with 1;
        [reflexivity|].
      apply Z.div_unique with (r := frac + expo * 8388608); lia.
    + rewrite Z.add_0_r, Z.div_small by lia. reflexivity.
  - rewrite Z.shiftr_div_pow2 by lia. change 255 with (Z.ones 8).
    rewrite Z.land_ones by lia.
    change (2 ^ 23) with 8388608. change (2 ^ 8) with 256.
    unfold bits. destruct s; change (2 ^ 31) with 2147483648;
      Z.div_mod_to_equations; lia.
  - rewrite Z.land_ones by lia. change (2 ^ 23) with 8388608.
    unfold bits. destruct s; change (2 ^ 31) with 2147483648;
      Z.div_mod_to_equations; lia.
Qed.

Lemma SF32_of_bits_fields (s : bool) (expo frac : Z) :
  0 <= expo < 256 -> 0 <= frac < 2 ^ 23 ->
  SF32_of_bits (frac + expo * 2 ^ 23 + (if s then 2 ^ 31 else 0)) =
    if expo =? 255 then
      if frac =? 0 then S754_infinity s else S754_nan
    else if expo =? 0 then
      match frac with
      | Z.pos m => S754_finite s m (-149)
      | _ => S754_zero s
      end
    else
      match frac + 2 ^ 23 with
      | Z.pos m => S754_finite s m (expo - 150)
      | _ => S754_zero s
      end.
Proof.
  intros He Hf. unfold SF32_of_bits.
  destruct (SF32_fields s expo frac He Hf) as [-> [-> [-> _]]].
  rewrite (Z.lor_comm (Z.shiftl 1 23)), lor_shiftl_add by lia.
  replace (frac + 1 * 2 ^ 23) with (frac + 2 ^ 23) by lia.
  reflexivity.
Qed.

Lemma SF32_of_bits_of_SF32 (y : spec_float) :
  valid_binary prec32 emax32 y = true ->
  SF32_of_bits (bits_of_SF32 y) = y /\ 0 <= bits_of_SF32 y < 2 ^ 32.
Proof.
  destruct y as [s|s| |s m e]; cbn [valid_binary];
    [ intros _; destruct s; vm_compute; repeat split; discriminate
    | intros _; destruct s; vm_compute; repeat split; discriminate
    | intros _; vm_compute; repeat split; discriminate
    | ].
  intros Hb. apply bounded32_inv in Hb. destruct Hb as [_ [_ Hr]].
  unfold bits_of_SF32. destruct Hr as [[Hm He]|[Hm He]].
  - replace (Z.pos m <? 2 ^ 23) with true by (symmetry; apply Z.ltb_lt; exact Hm).
    rewrite lor_sign_bit by (change (2 ^ 23) with 8388608 in Hm;
                             change (2 ^ 31) with 2147483648; lia).
    replace (Z.pos m) with (Z.pos m + 0 * 2 ^ 23) at 1 2 by lia.
    split.
    + rewrite SF32_of_bits_fields by lia. subst e. reflexivity.
    + apply (SF32_fields s 0 (Z.pos m)); lia.
  - replace (Z.pos m <? 2 ^ 23) with false by (symmetry; apply Z.ltb_ge; lia).
    rewrite Z.land_ones by lia.
    assert (Hmod : Z.pos m mod 2 ^ 23 = Z.pos m - 2 ^ 23).
    { change (2 ^ 23) with 8388608 in *. change (2 ^ 24) with 16777216 in *.
      symmetry. apply Z.mod_unique with (q := 1); lia. }
    rewrite Hmod.
    assert (Hf : 0 <= Z.pos m - 2 ^ 23 < 2 ^ 23).
    { change (2 ^ 23) with 8388608 in *. change (2 ^ 24) with 16777216 in *. lia. }
    assert (Hx : 0 <= e + 150 < 256) by lia.
    rewrite (Z.lor_comm (Z.shiftl (e + 150) 23)), lor_shiftl_add by lia.
    rewrite lor_sign_bit.
    2:{ change (2 ^ 23) with 8388608 in *. change (2 ^ 31) with 2147483648. lia. }
    split.
    + rewrite SF32_of_bits_fields by lia.
      replace (e + 150 =? 255) with false by (symmetry; apply Z.eqb_neq; lia).
      replace (e + 150 =? 0) with false by (symmetry; apply Z.eqb_neq; lia).
      replace (Z.pos m - 2 ^ 23 + 2 ^ 23) with (Z.pos m) by lia.
      replace (e + 150 - 150) with e by lia. reflexivity.
    + apply (SF32_fields s (e + 150) (Z.pos m - 2 ^ 23)); lia.
Qed.

Lemma digits2_le (m : positive) (k : Z) :
  0 <= k -> Z.pos m < 2 ^ k -> Z.pos (digits2_pos m) <= k.
Proof.
  intros Hk Hm. pose proof (digits2_bounds m) as [Hlo _].
  assert (H : 2 ^ (Z.pos (digits2_pos m) - 1) < 2 ^ k) by lia.
  apply Z.pow_lt_mono_r_iff in H; lia.
Qed.

Lemma digits2_gt (m : positive) (k : Z) :
  0 <= k -> 2 ^ k <= Z.pos m -> k < Z.pos (digits2_pos m).
Proof.
  intros Hk Hm. pose proof (digits2_bounds m) as [_ Hhi].
  assert (H : 2 ^ k < 2 ^ Z.pos (digits2_pos m)) by lia.
  apply Z.pow_lt_mono_r_iff in H; lia.
Qed.

Lemma SF32_of_bits_valid (bits : Z) :
  0 <= bits < 2 ^ 32 -> valid_binary prec32 emax32 (SF32_of_bits bits) = true.
Proof.
  intros Hb.
  set (s := 2 ^ 31 <=? bits).
  set (expo := (bits / 2 ^ 23) mod 256).
  set (frac := bits mod 2 ^ 23).
  assert (He : 0 <= expo < 256) by (apply Z.mod_pos_bound; lia).
  assert (Hf : 0 <= frac < 2 ^ 23) by (apply Z.mod_pos_bound; lia).
  assert (E : bits = frac + expo * 2 ^ 23 + (if s then 2 ^ 31 else 0)).
  { unfold s, expo, frac.
    change (2 ^ 23) with 8388608 in *. change (2 ^ 32) with 4294967296 in *.
    change (2 ^ 31) with 2147483648.
    destruct (Z.leb_spec 2147483648 bits); Z.div_mod_to_equations; lia. }
  rewrite E, SF32_of_bits_fields by assumption.
  destruct (Z.eqb_spec expo 255) as [E255|N255].
  - destruct (frac =? 0); reflexivity.
  - destruct (Z.eqb_spec expo 0) as [E0|N0].
    + destruct frac as [|m|m] eqn:Ef; try reflexivity.
      cbn [valid_binary]. unfold bounded, canonical_mantissa, fexp, emin,
        prec32, emax32.
      pose proof (digits2_le m 23 ltac:(lia) ltac:(lia)) as Hd.
      apply andb_true_intro. split; [apply Z.eqb_eq | apply Z.leb_le]; lia.
    + destruct (frac + 2 ^ 23) as [|m|m] eqn:Em; try reflexivity.
      cbn [valid_binary]. unfold bounded, canonical_mantissa, fexp, emin,
        prec32, emax32.
      assert (Hlo : 2 ^ 23 <= Z.pos m) by lia.
      assert (Hhi : Z.pos m < 2 ^ 24)
        by (change (2 ^ 24) with (2 ^ 23 + 2 ^ 23); lia).
      pose proof (digits2_le m 24 ltac:(lia) Hhi).
      pose proof (digits2_gt m 23 ltac:(lia) Hlo).
      apply andb_true_intro. split; [apply Z.eqb_eq | apply Z.leb_le]; lia.
Qed.

Lemma unpack_f_binary32 (b0 b1 b2 b3 : byte) :
  binary32_value (unpack_f [b0; b1; b2; b3]).
Proof.
  exists (SF32_of_bits (unpack_I [b0; b1; b2; b3])). split; [|reflexivity].
  apply SF32_of_bits_valid, unpack_I_range.
Qed.

Lemma binary32_codec (x : spec_float) :
  binary32_value x ->
  codec_ok read_float (fun v => write_float (PyFloat v)) x.
Proof.
  intros [y [Hy ->]].
  destruct (SF32_of_SF64_of_SF32 y Hy) as [Hn Hfin].
  destruct (SF32_of_bits_of_SF32 y Hy) as [Hd Hr].
  exists (le_bytes4 (bits_of_SF32 y)). split.
  - intros file. unfold write_float, bind, lift_result.
    cbn [float_of_pynum]. unfold pack_f.
    destruct (SF64_of_SF32 y) as [s|s| |s m e]; rewrite Hn;
      destruct y; try contradiction; reflexivity.
  - intros rest. unfold le_bytes4. cbn [app]. rewrite read_float_cons.
    unfold unpack_f.
    change [byte_at (bits_of_SF32 y) 0; byte_at (bits_of_SF32 y) 8;
            byte_at (bits_of_SF32 y) 16; byte_at (bits_of_SF32 y) 24]
      with (le_bytes4 (bits_of_SF32 y)).
    rewrite unpack_I_le_bytes4 by exact Hr. rewrite Hd. reflexivity.
Qed.

Lemma read_float_codec file file1 v :
  read_float file = (file1, Ok v) ->
  codec_ok read_float (fun v => write_float (PyFloat v)) v.
Proof.
  intros H. apply read_float_inv in H.
  destruct H as [b0 [b1 [b2 [b3 [_ ->]]]]].
  apply binary32_codec, unpack_f_binary32.
Qed.

(** ** Methods that read back what they write *)

Lemma get_self_bind {S F B} (k : S -> M (S * F) B) (self : S) (file : F) :
  (x <- get_self ;; k x) (self, file) = k self (self, file).
Proof. reflexivity. Qed.

Lemma on_self_bind {S F B} (f : S -> S) (k : M (S * F) B) (self : S) (file : F) :
  (on_self f ;; k) (self, file) = k (f self, file).
Proof. reflexivity. Qed.

Lemma on_self_inv {S F} (f : S -> S) (self self1 : S) (file file1 : F) r :
  on_self f (self, file) = ((self1, file1), r) ->
  self1 = f self /\ file1 = file /\ r = Ok tt.
Proof. unfold on_self. intros H. inversion H. auto. Qed.

Lemma on_file_bind_inv {S F A B} (m : M F A) (k : A -> M (S * F) B)
    (self self2 : S) (file file2 : F) (b : B) :
  (a <- on_file m ;; k a) (self, file) = ((self2, file2), Ok b) ->
  exists a file1, m file = (file1, Ok a) /\ k a (self, file1) = ((self2, file2), Ok b).
Proof.
  intros H. apply bind_ok_inv in H. destruct H as [[s1 f1] [a [H1 H2]]].
  apply on_file_inv in H1. destruct H1 as [-> H1]. eauto.
Qed.

Lemma on_attr_bind_inv {S X F A B} (get : S -> X) set (m : M (X * F) A)
    (k : A -> M (S * F) B) (self self2 : S) (file file2 : F) (b : B) :
  (a <- on_attr get set m ;; k a) (self, file) = ((self2, file2), Ok b) ->
  exists a x1 file1,
    m (get self, file) = ((x1, file1), Ok a) /\
    k a (set x1 self, file1) = ((self2, file2), Ok b).
Proof.
  intros H. apply bind_ok_inv in H. destruct H as [[s1 f1] [a [H1 H2]]].
  apply on_attr_inv in H1. destruct H1 as [x1 [H1 ->]]. eauto 6.
Qed.

Lemma on_file_write {S A} (wr : A -> M wfile unit) (a : A) enc
    (k : M (S * wfile) unit) (self : S) (file : wfile) :
  (forall file, wr a file = (file ++ enc, Ok tt)) ->
  (on_file (wr a) ;; k) (self, file) = k (self, file ++ enc).
Proof. intros H. unfold bind, on_file. rewrite H. reflexivity. Qed.

Lemma on_file_write_last {S A} (wr : A -> M wfile unit) (a : A) enc
    (self : S) (file : wfile) :
  (forall file, wr a file = (file ++ enc, Ok tt)) ->
  on_file (wr a) (self, file) = ((self, file ++ enc), Ok tt).
Proof. intros H. unfold on_file. rewrite H. reflexivity. Qed.

Lemma on_file_read {S A B} (rd : M rfile A) (a : A) enc
    (k : A -> M (S * rfile) B) (self : S) (rest : rfile) :
  (forall rest, rd (enc ++ rest) = (rest, Ok a)) ->
  (v <- on_file rd ;; k v) (self, enc ++ rest) = k a (self, rest).
Proof. intros H. unfold bind, on_file. rewrite H. reflexivity. Qed.

Lemma on_attr_write {S X} (get : S -> X) set (w : M (X * wfile) unit) enc
    (k : M (S * wfile) unit) (self : S) (file : wfile) :
  (forall file, w (get self, file) = ((get self, file ++ enc), Ok tt)) ->
  (on_attr get set w ;; k) (self, file) = k (set (get self) self, file ++ enc).
Proof. intros H. unfold bind, on_attr. rewrite H. reflexivity. Qed.

Lemma on_attr_write_last {S X} (get : S -> X) set (w : M (X * wfile) unit) enc
    (self : S) (file : wfile) :
  (forall file, w (get self, file) = ((get self, file ++ enc), Ok tt)) ->
  on_attr get set w (self, file) = ((set (get self) self, file ++ enc), Ok tt).
Proof. intros H. unfold on_attr. rewrite H. reflexivity. Qed.

Lemma on_attr_read {S X B} (get : S -> X) set (p : M (X * rfile) unit) x enc
    (k : unit -> M (S * rfile) B) (self : S) (rest : rfile) :
  (forall rest, p (get self, enc ++ rest) = ((x, rest), Ok tt)) ->
  (v <- on_attr get set p ;; k v) (self, enc ++ rest) = k tt (set x self, rest).
Proof. intros H. unfold bind, on_attr. rewrite H. reflexivity. Qed.

Lemma on_attr_read_last {S X} (get : S -> X) set (p : M (X * rfile) unit) x enc
    (self : S) (rest : rfile) :
  (forall rest, p (get self, enc ++ rest) = ((x, rest), Ok tt)) ->
  on_attr get set p (self, enc ++ rest) = ((set x self, rest), Ok tt).
Proof. intros H. unfold on_attr. rewrite H. reflexivity. Qed.

(** *** Coordinate3 *)

Lemma Coordinate3_values_ok (vx vy vz : spec_float) (init : Coordinate3.t) :
  binary32_value vx -> binary32_value vy -> binary32_value vz ->
  method_ok Coordinate3.parse Coordinate3.write init (Coordinate3.mk vx vy vz).
Proof.
  intros Hx Hy Hz.
  destruct (binary32_codec _ Hx) as [ex [Wx Rx]].
  destruct (binary32_codec _ Hy) as [ey [Wy Ry]].
  destruct (binary32_codec _ Hz) as [ez [Wz Rz]].
  exists (ex ++ ez ++ ey). split.
  - intros file. unfold Coordinate3.write. rewrite get_self_bind.
    cbn [Coordinate3.x Coordinate3.y Coordinate3.z].
    rewrite (on_file_write (fun v => write_float (PyFloat v)) vx ex) by exact Wx.
    rewrite (on_file_write (fun v => write_float (PyFloat v)) vz ez) by exact Wz.
    rewrite (on_file_write_last (fun v => write_float (PyFloat v)) vy ey) by exact Wy.
    rewrite <- !app_assoc. reflexivity.
  - intros rest. unfold Coordinate3.parse. rewrite <- !app_assoc.
    rewrite (on_file_read read_float vx ex) by exact Rx.
    rewrite (on_file_read read_float vz ez) by exact Rz.
    rewrite (on_file_read read_float vy ey) by exact Ry.
    reflexivity.
Qed.

Lemma Coordinate3_parsed (self c : Coordinate3.t) (file file1 : rfile) :
  Coordinate3.parse (self, file) = ((c, file1), Ok tt) ->
  exists vx vy vz,
    c = Coordinate3.mk vx vy vz /\
    binary32_value vx /\ binary32_value vy /\ binary32_value vz.
Proof.
  unfold Coordinate3.parse. intros H.
  apply on_file_bind_inv in H. destruct H as [vx [f1 [Hx H]]].
  apply on_file_bind_inv in H. destruct H as [vz [f2 [Hz H]]].
  apply on_file_bind_inv in H. destruct H as [vy [f3 [Hy H]]].
  apply on_self_inv in H. destruct H as [-> _].
  apply read_float_inv in Hx, Hy, Hz.
  destruct Hx as [? [? [? [? [_ ->]]]]]. destruct Hy as [? [? [? [? [_ ->]]]]].
  destruct Hz as [? [? [? [? [_ ->]]]]].
  eexists _, _, _. split; [reflexivity|].
  repeat split; apply unpack_f_binary32.
Qed.

Lemma Coordinate3_ok (self c : Coordinate3.t) (file file1 : rfile) :
  Coordinate3.parse (self, file) = ((c, file1), Ok tt) ->
  forall init, method_ok Coordinate3.parse Coordinate3.write init c.
Proof.
  intros H init. apply Coordinate3_parsed in H.
  destruct H as [vx [vy [vz [-> [Hx [Hy Hz]]]]]].
  apply Coordinate3_values_ok; assumption.
Qed.

(** ** C5: the wire order of a position *)

Lemma write_float_packed (v : spec_float) (enc : list byte) (file : wfile) :
  pack_f v = Ok enc ->
  write_float (PyFloat v) file = (file ++ enc, Ok tt).
Proof.
  intros H. unfold write_float, bind, lift_result. cbn [float_of_pynum].
  rewrite H. unfold pack_f in H.
  destruct v, (SF32_of_SF64 _); inversion H; reflexivity.
Qed.

(** C5, as the code has it.  [Coordinate3.parse] reads three floats and takes
    the first as x, the second as z and the third as y; [Coordinate3.write]
    emits x, then z, then y.  The floats on the wire are binary32: a position
    whose coordinates are binary32 values (finite or not) is parsed back
    from what [write] emits for it exactly as it was. *)
Theorem C5_coordinate3_wire_order :
  (forall (self : Coordinate3.t) a0 a1 a2 a3 b0 b1 b2 b3 c0 c1 c2 c3 rest,
      Coordinate3.parse
        (self, a0 :: a1 :: a2 :: a3 :: b0 :: b1 :: b2 :: b3
               :: c0 :: c1 :: c2 :: c3 :: rest) =
        ((Coordinate3.mk (unpack_f [a0; a1; a2; a3])
                         (unpack_f [c0; c1; c2; c3])
                         (unpack_f [b0; b1; b2; b3]), rest), Ok tt)) /\
  (forall (vx vy vz : spec_float) (ex ey ez : list byte) (file : wfile),
      pack_f vx = Ok ex -> pack_f vy = Ok ey -> pack_f vz = Ok ez ->
      Coordinate3.write (Coordinate3.mk vx vy vz, file) =
        ((Coordinate3.mk vx vy vz, file ++ ex ++ ez ++ ey), Ok tt)) /\
  (forall (vx vy vz : spec_float) (init : Coordinate3.t),
      binary32_value vx -> binary32_value vy -> binary32_value vz ->
      exists enc,
        (forall file,
            Coordinate3.write (Coordinate3.mk vx vy vz, file) =
              ((Coordinate3.mk vx vy vz, file ++ enc), Ok tt)) /\
        (forall rest,
            Coordinate3.parse (init, enc ++ rest) =
              ((Coordinate3.mk vx vy vz, rest), Ok tt))).
Proof.
  split; [|split].
  - intros. reflexivity.
  - intros vx vy vz ex ey ez file Hx Hy Hz.
    unfold Coordinate3.write. rewrite get_self_bind.
    cbn [Coordinate3.x Coordinate3.y Coordinate3.z].
    rewrite (on_file_write (fun v => write_float (PyFloat v)) vx ex)
      by (intros; apply write_float_packed, Hx).
    rewrite (on_file_write (fun v => write_float (PyFloat v)) vz ez)
      by (intros; apply write_float_packed, Hz).
    rewrite (on_file_write_last (fun v => write_float (PyFloat v)) vy ey)
      by (intros; apply write_float_packed, Hy).
    rewrite <- !app_assoc. reflexivity.
  - intros vx vy vz init Hx Hy Hz.
    exact (Coordinate3_values_ok vx vy vz init Hx Hy Hz).
Qed.

Lemma C5_witness :
  Coordinate3.write
    (Coordinate3.mk (S754_finite false 4503599627370496 (-52))
       (S754_zero false) (S754_zero true), []) =
    ((Coordinate3.mk (S754_finite false 4503599627370496 (-52))
        (S754_zero false) (S754_zero true),
      [x00; x00; x80; x3f; x00; x00; x00; x80; x00; x00; x00; x00]), Ok tt) /\
  exists enc,
    (forall file,
        Coordinate3.write
          (Coordinate3.mk (S754_finite false 4503599627370496 (-52))
             (S754_zero false) (S754_zero true), file) =
          ((Coordinate3.mk (S754_finite false 4503599627370496 (-52))
              (S754_zero false) (S754_zero true), file ++ enc), Ok tt)) /\
    (forall rest,
        Coordinate3.parse (Coordinate3.init, enc ++ rest) =
          ((Coordinate3.mk (S754_finite false 4503599627370496 (-52))
              (S754_zero false) (S754_zero true), rest), Ok tt)).
Proof.
  split.
  - apply (proj1 (proj2 C5_coordinate3_wire_order)
             (S754_finite false 4503599627370496 (-52))
             (S754_zero false) (S754_zero true)
             [x00; x00; x80; x3f] [x00; x00; x00; x00] [x00; x00; x00; x80] []);
      reflexivity.
  - apply (proj2 (proj2 C5_coordinate3_wire_order)).
    + exists (S754_finite false 8388608 (-23)). split; reflexivity.
    + exists (S754_zero false). split; reflexivity.
    + exists (S754_zero true). split; reflexivity.
Defined.

(** The claim as stated fails.  The float 0.1 is finite, but it is not a
    binary32 value: written and parsed back, the x of [Coordinate3(0.1, 0, 0)]
    is 0.100000001490116..., another float.  A finite float beyond the
    binary32 range, such as [2 ** 200], is not written at all. *)
Lemma C5_counterexample :
  valid_binary prec64 emax64 (S754_finite false 7205759403792794 (-56)) = true /\
  Coordinate3.write
    (Coordinate3.mk (S754_finite false 7205759403792794 (-56))
       (S754_zero false) (S754_zero false), []) =
    ((Coordinate3.mk (S754_finite false 7205759403792794 (-56))
        (S754_zero false) (S754_zero false),
      [xcd; xcc; xcc; x3d; x00; x00; x00; x00; x00; x00; x00; x00]), Ok tt) /\
  Coordinate3.parse
    (Coordinate3.init,
     [xcd; xcc; xcc; x3d; x00; x00; x00; x00; x00; x00; x00; x00]) =
    ((Coordinate3.mk (S754_finite false 7205759511166976 (-56))
        (S754_zero false) (S754_zero false), []), Ok tt) /\
  Coordinate3.mk (S754_finite false 7205759511166976 (-56))
    (S754_zero false) (S754_zero false) <>
  Coordinate3.mk (S754_finite false 7205759403792794 (-56))
    (S754_zero false) (S754_zero false) /\
  snd (Coordinate3.write
         (Coordinate3.mk (S754_finite false 4503599627370496 148)
            (S754_zero false) (S754_zero false), [])) = Raise OverflowError.
Proof.
  repeat split; try reflexivity. discriminate.
Qed.

(** *** Lists of objects *)

Lemma append_each_inv {X} (init : X) (parse : M (X * rfile) unit) (count : nat) :
  forall xs file ys file1,
    append_each (new init parse) count (xs, file) = ((ys, file1), Ok tt) ->
    exists items,
      ys = xs ++ items /\ List.length items = count /\
      Forall (fun x => exists f f1, parse (init, f) = ((x, f1), Ok tt)) items.
Proof.
  induction count as [|n IH]; intros xs file ys file1 H.
  - cbn in H. inversion H. exists []. rewrite app_nil_r. auto.
  - cbn [append_each] in H.
    apply on_file_bind_inv in H. destruct H as [item [f1 [Hitem H]]].
    rewrite on_self_bind in H. apply new_inv in Hitem.
    apply IH in H. destruct H as [items [-> [Hlen Hall]]].
    exists (item :: items). rewrite <- app_assoc. cbn.
    repeat split; [congruence|]. constructor; eauto.
Qed.

Lemma for_each_from_ok {X} (init : X) (parse : M (X * rfile) unit)
    (write : M (X * wfile) unit) (items : list X) :
  Forall (method_ok parse write init) items ->
  exists enc,
    (forall done file,
        for_each_from write done items file =
          ((done ++ items, file ++ enc), Ok tt)) /\
    (forall xs rest,
        append_each (new init parse) (List.length items) (xs, enc ++ rest) =
          ((xs ++ items, rest), Ok tt)).
Proof.
  induction 1 as [|item items [e1 [Hw Hp]] _ [enc [IHw IHp]]].
  - exists []. split; intros; cbn; rewrite !app_nil_r; reflexivity.
  - exists (e1 ++ enc). split.
    + intros done file. cbn [for_each_from]. rewrite Hw, IHw.
      rewrite <- !app_assoc. reflexivity.
    + intros xs rest. cbn [List.length append_each].
      rewrite <- app_assoc.
      erewrite bind_ok by (apply on_file_ok, new_ok, Hp).
      rewrite on_self_bind, IHp, <- app_assoc. reflexivity.
Qed.

(** A counted section: a 32-bit count and that many objects. *)
Lemma counted_list_ok {X} (init : X) (parse : M (X * rfile) unit)
    (write : M (X * wfile) unit) (items : list X) :
  Forall (method_ok parse write init) items ->
  len items < 2 ^ 32 ->
  exists enc,
    (forall file,
        write_integer (len items) file = (file ++ le_bytes4 (len items), Ok tt)) /\
    (forall file, for_each write (items, file) = ((items, file ++ enc), Ok tt)) /\
    (forall rest,
        read_integer (le_bytes4 (len items) ++ rest) = (rest, Ok (len items))) /\
    (forall xs rest,
        append_each (new init parse) (Z.to_nat (len items)) (xs, enc ++ rest) =
          ((xs ++ items, rest), Ok tt)).
Proof.
  intros Hall Hlen.
  destruct (for_each_from_ok init parse write items Hall) as [enc [Hw Hp]].
  assert (Hn : 0 <= len items < 2 ^ 32) by (pose proof (len_nonneg items); lia).
  exists enc. split; [|split; [|split]].
  - intros file. apply write_integer_ok, Hn.
  - intros file. unfold for_each. apply Hw.
  - destruct (count_codec _ Hn) as [e [Hcw Hcr]].
    pose proof (Hcw []) as E. rewrite write_integer_ok in E by exact Hn.
    inversion E as [E']. cbn [app] in E'. rewrite <- E' in Hcr. exact Hcr.
  - intros xs rest. unfold len. rewrite Nat2Z.id. apply Hp.
Qed.

Lemma counted_inv {X} (init : X) (parse : M (X * rfile) unit)
    (count : Z) (file f1 f2 : rfile) (xs ys : list X) :
  read_integer file = (f1, Ok count) ->
  append_each (new init parse) (Z.to_nat count) (xs, f1) = ((ys, f2), Ok tt) ->
  exists items,
    ys = xs ++ items /\ len items < 2 ^ 32 /\
    Forall (fun x => exists f f', parse (init, f) = ((x, f'), Ok tt)) items.
Proof.
  intros Hc H. apply append_each_inv in H.
  destruct H as [items [-> [Hlen Hall]]].
  exists items. repeat split; [|exact Hall].
  apply read_integer_inv in Hc. destruct Hc as [b0 [b1 [b2 [b3 [_ Hc]]]]].
  pose proof (unpack_I_range [b0; b1; b2; b3]) as Hr. rewrite <- Hc in Hr.
  unfold len. lia.
Qed.

Lemma new_parsed {X} (init : X) (parse : M (X * rfile) unit)
    (write : M (X * wfile) unit) (items : list X) :
  (forall x f f1, parse (init, f) = ((x, f1), Ok tt) ->
                  method_ok parse write init x) ->
  Forall (fun x => exists f f1, parse (init, f) = ((x, f1), Ok tt)) items ->
  Forall (method_ok parse write init) items.
Proof.
  intros Hok Hall. induction Hall as [|x items [f [f1 Hx]] _ IH];
    constructor; eauto.
Qed.

Lemma on_file_w {S} (m : M wfile unit) enc (k : M (S * wfile) unit)
    (self : S) (file : wfile) :
  (forall file, m file = (file ++ enc, Ok tt)) ->
  (on_file m ;; k) (self, file) = k (self, file ++ enc).
Proof. intros H. unfold bind, on_file. rewrite H. reflexivity. Qed.

Lemma on_file_w_last {S} (m : M wfile unit) enc (self : S) (file : wfile) :
  (forall file, m file = (file ++ enc, Ok tt)) ->
  on_file m (self, file) = ((self, file ++ enc), Ok tt).
Proof. intros H. unfold on_file. rewrite H. reflexivity. Qed.

Ltac inv_step H :=
  match type of H with
  | bind get_self _ (_, _) = _ => rewrite get_self_bind in H
  | bind (on_self _) _ (_, _) = _ => rewrite on_self_bind in H
  | bind (on_file _) _ (_, _) = (_, Ok _) =>
      let a := fresh "v" in let f := fresh "f" in let Ha := fresh "Hv" in
      apply on_file_bind_inv in H; destruct H as [a [f [Ha H]]]
  | bind (on_attr _ _ _) _ (_, _) = (_, Ok _) =>
      let x := fresh "x" in let f := fresh "f" in let Hx := fresh "Hx" in
      apply on_attr_bind_inv in H; destruct H as [[] [x [f [Hx H]]]]
  end.

(** *** The value classes *)

Lemma Texture_ok (self t : Texture.t) (file file1 : rfile) :
  Texture.parse (self, file) = ((t, file1), Ok tt) ->
  forall init, method_ok Texture.parse Texture.write init t.
Proof.
  unfold Texture.parse. intros H init. destruct self as [l0 n0].
  repeat inv_step H. cbn [Texture.set_layer_ID Texture.layer_ID Texture.filename] in H.
  destruct (Z.eqb_spec v 0) as [E|E].
  - apply on_self_inv in H. destruct H as [-> _]. subst v.
    cbv [Texture.set_filename Texture.set_layer_ID].
    cbn [Texture.layer_ID Texture.filename].
    exists [x00]. split; intros; reflexivity.
  - inv_step H. apply on_self_inv in H. destruct H as [-> _].
    cbv [Texture.set_filename Texture.set_layer_ID].
    cbn [Texture.layer_ID Texture.filename].
    destruct (read_byte_codec _ _ _ Hv) as [eb [Wb Rb]].
    destruct (read_string_codec _ _ _ Hv0) as [es [Ws Rs]].
    exists (eb ++ es). split.
    + intros file'. unfold Texture.write. rewrite get_self_bind.
      cbn [Texture.layer_ID Texture.filename].
      replace (v =? 0) with false by (symmetry; apply Z.eqb_neq; exact E).
      rewrite (on_file_w _ eb) by exact Wb.
      rewrite (on_file_w_last _ es) by exact Ws.
      rewrite <- app_assoc. reflexivity.
    + intros rest. unfold Texture.parse. rewrite <- app_assoc.
      rewrite (on_file_read read_byte v eb) by exact Rb.
      rewrite on_self_bind, get_self_bind. destruct init as [l1 n1].
      cbn [Texture.set_layer_ID Texture.layer_ID Texture.filename].
      replace (v =? 0) with false by (symmetry; apply Z.eqb_neq; exact E).
      rewrite (on_file_read read_string v0 es) by exact Rs.
      reflexivity.
Qed.

Lemma UV_ok (self t : UV.t) (file file1 : rfile) :
  UV.parse (self, file) = ((t, file1), Ok tt) ->
  forall init, method_ok UV.parse UV.write init t.
Proof.
  unfold UV.parse. intros H init. repeat inv_step H.
  apply on_self_inv in H. destruct H as [-> _]. cbv [UV.set_pos].
  destruct (read_float_codec _ _ _ Hv) as [e1 [W1 R1]].
  destruct (read_float_codec _ _ _ Hv0) as [e2 [W2 R2]].
  exists (e1 ++ e2). split.
  - intros file'. unfold UV.write. rewrite get_self_bind. cbn [UV.u UV.v].
    rewrite (on_file_w _ e1) by exact W1.
    rewrite (on_file_w_last _ e2) by exact W2.
    rewrite <- app_assoc. reflexivity.
  - intros rest. unfold UV.parse. rewrite <- app_assoc.
    rewrite (on_file_read read_float v e1) by exact R1.
    rewrite (on_file_read read_float v0 e2) by exact R2.
    reflexivity.
Qed.

Lemma Scale_ok (self t : Scale.t) (file file1 : rfile) :
  Scale.parse (self, file) = ((t, file1), Ok tt) ->
  forall init, method_ok Scale.parse Scale.write init t.
Proof.
  unfold Scale.parse. intros H init. repeat inv_step H.
  apply on_self_inv in H. destruct H as [-> _]. cbv [Scale.set_scale].
  destruct (read_float_codec _ _ _ Hv) as [e1 [W1 R1]].
  destruct (read_float_codec _ _ _ Hv0) as [e2 [W2 R2]].
  destruct (read_float_codec _ _ _ Hv1) as [e3 [W3 R3]].
  exists (e1 ++ e2 ++ e3). split.
  - intros file'. unfold Scale.write. rewrite get_self_bind.
    cbn [Scale.x_scale Scale.y_scale Scale.z_scale].
    rewrite (on_file_w _ e1) by exact W1.
    rewrite (on_file_w _ e2) by exact W2.
    rewrite (on_file_w_last _ e3) by exact W3.
    rewrite <- !app_assoc. reflexivity.
  - intros rest. unfold Scale.parse. rewrite <- !app_assoc.
    rewrite (on_file_read read_float v e1) by exact R1.
    rewrite (on_file_read read_float v0 e2) by exact R2.
    rewrite (on_file_read read_float v1 e3) by exact R3.
    reflexivity.
Qed.

Lemma Triangle_ok (self t : Triangle.t) (file file1 : rfile) :
  Triangle.parse (self, file) = ((t, file1), Ok tt) ->
  forall init, method_ok Triangle.parse Triangle.write init t.
Proof.
  unfold Triangle.parse. intros H init. repeat inv_step H.
  apply on_self_inv in H. destruct H as [-> _]. cbv [Triangle.set_indices].
  destruct (read_integer_codec _ _ _ Hv) as [e1 [W1 R1]].
  destruct (read_integer_codec _ _ _ Hv0) as [e2 [W2 R2]].
  destruct (read_integer_codec _ _ _ Hv1) as [e3 [W3 R3]].
  exists (e1 ++ e2 ++ e3). split.
  - intros file'. unfold Triangle.write. rewrite get_self_bind.
    cbn [Triangle.index_1 Triangle.index_2 Triangle.index_3].
    rewrite (on_file_w _ e1) by exact W1.
    rewrite (on_file_w _ e2) by exact W2.
    rewrite (on_file_w_last _ e3) by exact W3.
    rewrite <- !app_assoc. reflexivity.
  - intros rest. unfold Triangle.parse. rewrite <- !app_assoc.
    rewrite (on_file_read read_integer v e1) by exact R1.
    rewrite (on_file_read read_integer v0 e2) by exact R2.
    rewrite (on_file_read read_integer v1 e3) by exact R3.
    reflexivity.
Qed.

Lemma Color_bytes_ok (self t : Color.t) (file file1 : rfile) :
  Color.parse_as_bytes (self, file) = ((t, file1), Ok tt) ->
  forall init, method_ok Color.parse_as_bytes Color.write_as_bytes init t.
Proof.
  unfold Color.parse_as_bytes. intros H init. repeat inv_step H.
  apply on_self_inv in H. destruct H as [-> _]. cbv [Color.set_rgb].
  destruct (read_byte_codec _ _ _ Hv) as [e1 [W1 R1]].
  destruct (read_byte_codec _ _ _ Hv0) as [e2 [W2 R2]].
  destruct (read_byte_codec _ _ _ Hv1) as [e3 [W3 R3]].
  exists (e1 ++ e2 ++ e3). split.
  - intros file'. unfold Color.write_as_bytes. rewrite get_self_bind.
    cbn [Color.r Color.g Color.b].
    rewrite (on_file_w _ e1) by exact W1.
    rewrite (on_file_w _ e2) by exact W2.
    rewrite (on_file_w_last _ e3) by exact W3.
    rewrite <- !app_assoc. reflexivity.
  - intros rest. unfold Color.parse_as_bytes. rewrite <- !app_assoc.
    rewrite (on_file_read read_byte v e1) by exact R1.
    rewrite (on_file_read read_byte v0 e2) by exact R2.
    rewrite (on_file_read read_byte v1 e3) by exact R3.
    reflexivity.
Qed.

Lemma Angle_bytes_ok (self t : Angle.t) (file file1 : rfile) :
  Angle.parse_as_bytes (self, file) = ((t, file1), Ok tt) ->
  forall init, method_ok Angle.parse_as_bytes Angle.write_as_bytes init t.
Proof.
  unfold Angle.parse_as_bytes. intros H init. repeat inv_step H.
  apply on_self_inv in H. destruct H as [-> _]. cbv [Angle.set_angle].
  destruct (read_float_codec _ _ _ Hv) as [e1 [W1 R1]].
  destruct (read_float_codec _ _ _ Hv0) as [e2 [W2 R2]].
  destruct (read_float_codec _ _ _ Hv1) as [e3 [W3 R3]].
  exists (e1 ++ e2 ++ e3). split.
  - intros file'. unfold Angle.write_as_bytes. rewrite get_self_bind.
    cbn [Angle.pitch Angle.yaw Angle.roll].
    rewrite (on_file_w _ e1) by exact W1.
    rewrite (on_file_w _ e2) by exact W2.
    rewrite (on_file_w_last _ e3) by exact W3.
    rewrite <- !app_assoc. reflexivity.
  - intros rest. unfold Angle.parse_as_bytes. rewrite <- !app_assoc.
    rewrite (on_file_read read_float v e1) by exact R1.
    rewrite (on_file_read read_float v0 e2) by exact R2.
    rewrite (on_file_read read_float v1 e3) by exact R3.
    reflexivity.
Qed.

Lemma lift_result_bind_inv {S A B} (r : result A) (k : A -> M S B) s s2 b :
  (a <- lift_result r ;; k a) s = (s2, Ok b) ->
  exists a, r = Ok a /\ k a s = (s2, Ok b).
Proof.
  unfold bind, lift_result. destruct r as [a|e]; [eauto | discriminate].
Qed.

Lemma star_args3_inv {A} (args : list A) (a b c : A) :
  star_args3 args = Ok (a, b, c) -> args = [a; b; c].
Proof.
  destruct args as [|x [|y [|z [|w args]]]]; cbn; try discriminate.
  intros H. inversion H. reflexivity.
Qed.

Lemma three_ints_parsed (file f : rfile) (s : string) (vr vg vb : Z) :
  read_string file = (f, Ok s) ->
  map_int (py_split s) = Ok [vr; vg; vb] ->
  let text := (py_str vr ++ " " ++ py_str vg ++ " " ++ py_str vb)%string in
  codec_ok read_string write_string text /\
  map_int (py_split text) = Ok [vr; vg; vb].
Proof.
  intros Hread Hs text.
  destruct (three_ints_text vr vg vb) as [Ha [Hm Hl]]. fold text in Ha, Hm, Hl.
  split; [|exact Hm].
  apply read_string_inv in Hread. destruct Hread as [_ Hlen].
  apply string_codec; [exact Ha|]. specialize (Hl s Hs). lia.
Qed.

Lemma Color_string_ok (self t : Color.t) (file file1 : rfile) :
  Color.parse_as_string (self, file) = ((t, file1), Ok tt) ->
  forall init, method_ok Color.parse_as_string Color.write_as_string init t.
Proof.
  unfold Color.parse_as_string. intros H init. inv_step H.
  apply lift_result_bind_inv in H. destruct H as [values [Hvals H]].
  apply lift_result_bind_inv in H. destruct H as [[[vr vg] vb] [Hargs H]].
  apply on_self_inv in H. destruct H as [-> _]. cbv [Color.set_rgb].
  apply star_args3_inv in Hargs. subst values.
  destruct (three_ints_parsed _ _ _ _ _ _ Hv Hvals) as [[enc [W R]] Hm].
  exists enc. split.
  - intros file'. unfold Color.write_as_string. rewrite get_self_bind.
    cbn [Color.r Color.g Color.b]. apply on_file_w_last. exact W.
  - intros rest. unfold Color.parse_as_string.
    rewrite (on_file_read read_string _ enc) by exact R.
    unfold bind at 1, lift_result at 1. rewrite Hm. reflexivity.
Qed.

Lemma Angle_string_ok (self t : Angle.t) (file file1 : rfile) :
  Angle.parse_as_string (self, file) = ((t, file1), Ok tt) ->
  forall init, method_ok Angle.parse_as_string Angle.write_as_string init t.
Proof.
  unfold Angle.parse_as_string. intros H init. inv_step H.
  apply lift_result_bind_inv in H. destruct H as [values [Hvals H]].
  apply lift_result_bind_inv in H. destruct H as [[[vp vy] vr] [Hargs H]].
  apply on_self_inv in H. destruct H as [-> _]. cbv [Angle.set_angle].
  apply star_args3_inv in Hargs. subst values.
  destruct (three_ints_parsed _ _ _ _ _ _ Hv Hvals) as [[enc [W R]] Hm].
  exists enc. split.
  - intros file'. unfold Angle.write_as_string. rewrite get_self_bind.
    cbn [Angle.pitch Angle.yaw Angle.roll py_round].
    unfold bind, lift_result. apply on_file_w_last. exact W.
  - intros rest. unfold Angle.parse_as_string.
    rewrite (on_file_read read_string _ enc) by exact R.
    unfold bind at 1, lift_result at 1. rewrite Hm. reflexivity.
Qed.

(** *** The aggregates *)

Ltac norm_vertex :=
  cbv [Vertex.set_pos Vertex.set_uv_1 Vertex.set_uv_2 Vertex.set_color];
  cbn [Vertex.pos Vertex.uv_1 Vertex.uv_2 Vertex.color].

Lemma Vertex_ok (self t : Vertex.t) (file file1 : rfile) :
  Vertex.parse (self, file) = ((t, file1), Ok tt) ->
  forall init, method_ok Vertex.parse Vertex.write init t.
Proof.
  unfold Vertex.parse. intros H [ip iu1 iu2 ic]. destruct self as [sp su1 su2 sc].
  repeat inv_step H. apply on_attr_inv in H. destruct H as [x2 [Hx2 ->]].
  norm_vertex. cbn [Vertex.pos Vertex.uv_1 Vertex.uv_2 Vertex.color] in *.
  destruct (Coordinate3_ok _ _ _ _ Hx ip) as [e1 [W1 R1]].
  destruct (UV_ok _ _ _ _ Hx0 iu1) as [e2 [W2 R2]].
  destruct (UV_ok _ _ _ _ Hx1 iu2) as [e3 [W3 R3]].
  destruct (Color_bytes_ok _ _ _ _ Hx2 ic) as [e4 [W4 R4]].
  exists (e1 ++ e2 ++ e3 ++ e4). split.
  - intros file'. unfold Vertex.write.
    rewrite (on_attr_write Vertex.pos Vertex.set_pos _ e1) by exact W1.
    norm_vertex.
    rewrite (on_attr_write Vertex.uv_1 Vertex.set_uv_1 _ e2) by exact W2.
    norm_vertex.
    rewrite (on_attr_write Vertex.uv_2 Vertex.set_uv_2 _ e3) by exact W3.
    norm_vertex.
    rewrite (on_attr_write_last Vertex.color Vertex.set_color _ e4) by exact W4.
    norm_vertex. rewrite <- !app_assoc. reflexivity.
  - intros rest. unfold Vertex.parse. rewrite <- !app_assoc.
    rewrite (on_attr_read Vertex.pos Vertex.set_pos _ x e1) by exact R1.
    norm_vertex.
    rewrite (on_attr_read Vertex.uv_1 Vertex.set_uv_1 _ x0 e2) by exact R2.
    norm_vertex.
    rewrite (on_attr_read Vertex.uv_2 Vertex.set_uv_2 _ x1 e3) by exact R3.
    norm_vertex.
    rewrite (on_attr_read_last Vertex.color Vertex.set_color _ x2 e4) by exact R4.
    reflexivity.
Qed.

Ltac norm_object :=
  cbv [Object.set_textures Object.set_vertices Object.set_triangles Object.init];
  cbn [Object.textures Object.vertices Object.triangles app].

Lemma ensure_textures_two (textures : list Texture.t) :
  List.length textures = 2%nat -> Object.ensure_textures textures = textures.
Proof.
  destruct textures as [|t0 [|t1 [|t2 textures]]]; try discriminate.
  reflexivity.
Qed.

Lemma Object_ok (o : Object.t) (file file1 : rfile) :
  Object.parse (Object.init, file) = ((o, file1), Ok tt) ->
  method_ok Object.parse Object.write Object.init o.
Proof.
  unfold Object.parse. intros H.
  inv_step H. apply append_each_inv in Hx.
  destruct Hx as [texs [-> [Ltex Ptex]]].
  inv_step H. inv_step H.
  destruct (counted_inv _ _ _ _ _ _ _ _ Hv Hx) as [verts [-> [Lv Pv]]].
  inv_step H. apply on_attr_inv in H. destruct H as [x1 [Hx1 ->]].
  destruct (counted_inv _ _ _ _ _ _ _ _ Hv0 Hx1) as [tris [-> [Lt Pt]]].
  norm_object.
  pose proof (new_parsed _ _ Texture.write texs
    (fun x f f1 Hp => Texture_ok _ _ _ _ Hp Texture.init) Ptex) as Ftex.
  pose proof (new_parsed _ _ Vertex.write verts
    (fun x f f1 Hp => Vertex_ok _ _ _ _ Hp Vertex.init) Pv) as Fv.
  pose proof (new_parsed _ _ Triangle.write tris
    (fun x f f1 Hp => Triangle_ok _ _ _ _ Hp Triangle.init) Pt) as Ft.
  destruct (for_each_from_ok _ _ _ _ Ftex) as [et [Wt Rt]].
  rewrite Ltex in Rt.
  destruct (counted_list_ok _ _ _ _ Fv Lv) as [ev [Wcv [Wv [Rcv Rv]]]].
  destruct (counted_list_ok _ _ _ _ Ft Lt) as [etr [Wct [Wtr [Rct Rtr]]]].
  exists (et ++ le_bytes4 (len verts) ++ ev ++ le_bytes4 (len tris) ++ etr).
  split.
  - intros file'. unfold Object.write. rewrite on_self_bind. norm_object.
    rewrite ensure_textures_two by exact Ltex.
    rewrite (on_attr_write Object.textures Object.set_textures _ et)
      by (intros; apply (Wt [])).
    norm_object. rewrite get_self_bind. norm_object.
    rewrite (on_file_w _ (le_bytes4 (len verts))) by exact Wcv.
    rewrite (on_attr_write Object.vertices Object.set_vertices _ ev) by exact Wv.
    norm_object. rewrite get_self_bind. norm_object.
    rewrite (on_file_w _ (le_bytes4 (len tris))) by exact Wct.
    rewrite (on_attr_write_last Object.triangles Object.set_triangles _ etr)
      by exact Wtr.
    norm_object. rewrite <- !app_assoc. reflexivity.
  - intros rest. unfold Object.parse. rewrite <- !app_assoc.
    rewrite (on_attr_read Object.textures Object.set_textures _ texs et)
      by (intros; apply (Rt [])).
    norm_object.
    rewrite (on_file_read read_integer (len verts) (le_bytes4 (len verts)))
      by exact Rcv.
    rewrite (on_attr_read Object.vertices Object.set_vertices _ verts ev)
      by (intros; apply (Rv [])).
    norm_object.
    rewrite (on_file_read read_integer (len tris) (le_bytes4 (len tris)))
      by exact Rct.
    rewrite (on_attr_read_last Object.triangles Object.set_triangles _ tris etr)
      by (intros; apply (Rtr [])).
    reflexivity.
Qed.

Ltac norm_collision :=
  cbv [Collision.set_vertices Collision.set_triangles Collision.init];
  cbn [Collision.vertices Collision.triangles app].

Lemma Collision_ok (c : Collision.t) (file file1 : rfile) :
  Collision.parse (Collision.init, file) = ((c, file1), Ok tt) ->
  method_ok Collision.parse Collision.write Collision.init c.
Proof.
  unfold Collision.parse. intros H.
  inv_step H. inv_step H.
  destruct (counted_inv _ _ _ _ _ _ _ _ Hv Hx) as [verts [-> [Lv Pv]]].
  inv_step H. apply on_attr_inv in H. destruct H as [x1 [Hx1 ->]].
  destruct (counted_inv _ _ _ _ _ _ _ _ Hv0 Hx1) as [tris [-> [Lt Pt]]].
  norm_collision.
  pose proof (new_parsed _ _ Coordinate3.write verts
    (fun x f f1 Hp => Coordinate3_ok _ _ _ _ Hp Coordinate3.init) Pv) as Fv.
  pose proof (new_parsed _ _ Triangle.write tris
    (fun x f f1 Hp => Triangle_ok _ _ _ _ Hp Triangle.init) Pt) as Ft.
  destruct (counted_list_ok _ _ _ _ Fv Lv) as [ev [Wcv [Wv [Rcv Rv]]]].
  destruct (counted_list_ok _ _ _ _ Ft Lt) as [etr [Wct [Wtr [Rct Rtr]]]].
  exists (le_bytes4 (len verts) ++ ev ++ le_bytes4 (len tris) ++ etr).
  split.
  - intros file'. unfold Collision.write. rewrite get_self_bind. norm_collision.
    rewrite (on_file_w _ (le_bytes4 (len verts))) by exact Wcv.
    rewrite (on_attr_write Collision.vertices Collision.set_vertices _ ev)
      by exact Wv.
    norm_collision. rewrite get_self_bind. norm_collision.
    rewrite (on_file_w _ (le_bytes4 (len tris))) by exact Wct.
    rewrite (on_attr_write_last Collision.triangles Collision.set_triangles _ etr)
      by exact Wtr.
    norm_collision. rewrite <- !app_assoc. reflexivity.
  - intros rest. unfold Collision.parse. rewrite <- !app_assoc.
    rewrite (on_file_read read_integer (len verts) (le_bytes4 (len verts)))
      by exact Rcv.
    rewrite (on_attr_read Collision.vertices Collision.set_vertices _ verts ev)
      by (intros; apply (Rv [])).
    norm_collision.
    rewrite (on_file_read read_integer (len tris) (le_bytes4 (len tris)))
      by exact Rct.
    rewrite (on_attr_read_last Collision.triangles Collision.set_triangles
               _ tris etr) by (intros; apply (Rtr [])).
    reflexivity.
Qed.

Ltac norm_trigger :=
  cbv [TriggerBox.set_collisions TriggerBox.set_name TriggerBox.init];
  cbn [TriggerBox.collisions TriggerBox.name app].

Lemma TriggerBox_ok (t : TriggerBox.t) (file file1 : rfile) :
  TriggerBox.parse (TriggerBox.init, file) = ((t, file1), Ok tt) ->
  method_ok TriggerBox.parse TriggerBox.write TriggerBox.init t.
Proof.
  unfold TriggerBox.parse. intros H.
  inv_step H. inv_step H.
  destruct (counted_inv _ _ _ _ _ _ _ _ Hv Hx) as [cols [-> [Lc Pc]]].
  inv_step H. apply on_self_inv in H. destruct H as [-> _].
  norm_trigger.
  pose proof (new_parsed _ _ Collision.write cols
    (fun x f f1 Hp => Collision_ok _ _ _ Hp) Pc) as Fc.
  destruct (counted_list_ok _ _ _ _ Fc Lc) as [ec [Wcc [Wc [Rcc Rc]]]].
  destruct (read_string_codec _ _ _ Hv0) as [es [Ws Rs]].
  exists (le_bytes4 (len cols) ++ ec ++ es).
  split.
  - intros file'. unfold TriggerBox.write. rewrite get_self_bind. norm_trigger.
    rewrite (on_file_w _ (le_bytes4 (len cols))) by exact Wcc.
    rewrite (on_attr_write TriggerBox.collisions TriggerBox.set_collisions _ ec)
      by exact Wc.
    norm_trigger. rewrite get_self_bind. norm_trigger.
    rewrite (on_file_w_last _ es) by exact Ws.
    rewrite <- !app_assoc. reflexivity.
  - intros rest. unfold TriggerBox.parse. rewrite <- !app_assoc.
    rewrite (on_file_read read_integer (len cols) (le_bytes4 (len cols)))
      by exact Rcc.
    rewrite (on_attr_read TriggerBox.collisions TriggerBox.set_collisions
               _ cols ec) by (intros; apply (Rc [])).
    norm_trigger.
    rewrite (on_file_read read_string v0 es) by exact Rs.
    reflexivity.
Qed.

(** *** The point classes *)

Lemma classname_written (name : string) :
  ascii_string name -> str_len name < 2 ^ 32 ->
  forall file, write_string name file = (file ++ wire_string name, Ok tt).
Proof. intros Ha Hl file. apply write_string_ok; assumption. Qed.

Ltac write_classname name :=
  rewrite (on_file_w _ (wire_string name))
    by (apply classname_written; [reflexivity | now vm_compute]).

Ltac norm_screen :=
  cbv [Screen.set_pos Screen.set_path Screen.init];
  cbn [Screen.pos Screen.path Screen.classname].

Lemma Screen_ok (p : Screen.t) (file file1 : rfile) :
  Screen.parse (Screen.init, file) = ((p, file1), Ok tt) ->
  body_ok "screen" Screen.parse Screen.write Screen.init p.
Proof.
  unfold Screen.parse. intros H.
  inv_step H. inv_step H. apply on_self_inv in H. destruct H as [-> _].
  norm_screen.
  destruct (Coordinate3_ok _ _ _ _ Hx Coordinate3.init) as [e1 [W1 R1]].
  destruct (read_string_codec _ _ _ Hv) as [e2 [W2 R2]].
  exists (e1 ++ e2). split.
  - intros file'. unfold Screen.write. rewrite get_self_bind. norm_screen.
    write_classname "screen"%string.
    rewrite (on_attr_write Screen.pos Screen.set_pos _ e1) by exact W1.
    norm_screen. rewrite get_self_bind. norm_screen.
    rewrite (on_file_w_last _ e2) by exact W2.
    rewrite <- !app_assoc. reflexivity.
  - intros rest. unfold Screen.parse. rewrite <- !app_assoc.
    rewrite (on_attr_read Screen.pos Screen.set_pos _ x e1) by exact R1.
    norm_screen.
    rewrite (on_file_read read_string v e2) by exact R2.
    reflexivity.
Qed.

Ltac norm_waypoint :=
  cbv [Waypoint.set_pos Waypoint.init];
  cbn [Waypoint.pos Waypoint.classname].

Lemma Waypoint_ok (p : Waypoint.t) (file file1 : rfile) :
  Waypoint.parse (Waypoint.init, file) = ((p, file1), Ok tt) ->
  body_ok "waypoint" Waypoint.parse Waypoint.write Waypoint.init p.
Proof.
  unfold Waypoint.parse. intros H.
  apply on_attr_inv in H. destruct H as [x [Hx ->]].
  norm_waypoint.
  destruct (Coordinate3_ok _ _ _ _ Hx Coordinate3.init) as [e1 [W1 R1]].
  exists e1. split.
  - intros file'. unfold Waypoint.write. rewrite get_self_bind. norm_waypoint.
    write_classname "waypoint"%string.
    rewrite (on_attr_write_last Waypoint.pos Waypoint.set_pos _ e1) by exact W1.
    norm_waypoint. rewrite <- !app_assoc. reflexivity.
  - intros rest. unfold Waypoint.parse.
    rewrite (on_attr_read_last Waypoint.pos Waypoint.set_pos _ x e1) by exact R1.
    reflexivity.
Qed.

Ltac norm_light :=
  cbv [Light.set_pos Light.set_range Light.set_color Light.set_intensity
       Light.init];
  cbn [Light.pos Light.range Light.color Light.intensity Light.classname].

Lemma Light_ok (p : Light.t) (file file1 : rfile) :
  Light.parse (Light.init, file) = ((p, file1), Ok tt) ->
  body_ok "light" Light.parse Light.write Light.init p.
Proof.
  unfold Light.parse. intros H.
  repeat inv_step H. apply on_self_inv in H. destruct H as [-> _].
  norm_light.
  destruct (Coordinate3_ok _ _ _ _ Hx Coordinate3.init) as [e1 [W1 R1]].
  destruct (read_float_codec _ _ _ Hv) as [e2 [W2 R2]].
  destruct (Color_string_ok _ _ _ _ Hx0 Color.init) as [e3 [W3 R3]].
  destruct (read_float_codec _ _ _ Hv0) as [e4 [W4 R4]].
  exists (e1 ++ e2 ++ e3 ++ e4). split.
  - intros file'. unfold Light.write. rewrite get_self_bind. norm_light.
    write_classname "light"%string.
    rewrite (on_attr_write Light.pos Light.set_pos _ e1) by exact W1.
    norm_light. rewrite get_self_bind. norm_light.
    rewrite (on_file_w _ e2) by exact W2.
    rewrite (on_attr_write Light.color Light.set_color _ e3) by exact W3.
    norm_light. rewrite get_self_bind. norm_light.
    rewrite (on_file_w_last _ e4) by exact W4.
    rewrite <- !app_assoc. reflexivity.
  - intros rest. unfold Light.parse. rewrite <- !app_assoc.
    rewrite (on_attr_read Light.pos Light.set_pos _ x e1) by exact R1.
    norm_light.
    rewrite (on_file_read read_float v e2) by exact R2.
    rewrite on_self_bind. norm_light.
    rewrite (on_attr_read Light.color Light.set_color _ x0 e3) by exact R3.
    norm_light.
    rewrite (on_file_read read_float v0 e4) by exact R4.
    reflexivity.
Qed.

Ltac norm_spotlight :=
  cbv [Spotlight.set_pos Spotlight.set_range Spotlight.set_color
       Spotlight.set_intensity Spotlight.set_angle Spotlight.set_inner_angle
       Spotlight.set_outer_angle Spotlight.init];
  cbn [Spotlight.pos Spotlight.range Spotlight.color Spotlight.intensity
       Spotlight.angle Spotlight.inner_angle Spotlight.outer_angle
       Spotlight.classname].

Lemma Spotlight_ok (p : Spotlight.t) (file file1 : rfile) :
  Spotlight.parse (Spotlight.init, file) = ((p, file1), Ok tt) ->
  body_ok "spotlight" Spotlight.parse Spotlight.write Spotlight.init p.
Proof.
  unfold Spotlight.parse. intros H.
  repeat inv_step H. apply on_self_inv in H. destruct H as [-> _].
  norm_spotlight.
  destruct (Coordinate3_ok _ _ _ _ Hx Coordinate3.init) as [e1 [W1 R1]].
  destruct (read_float_codec _ _ _ Hv) as [e2 [W2 R2]].
  destruct (Color_string_ok _ _ _ _ Hx0 Color.init) as [e3 [W3 R3]].
  destruct (read_float_codec _ _ _ Hv0) as [e4 [W4 R4]].
  destruct (Angle_string_ok _ _ _ _ Hx1 Angle.init) as [e5 [W5 R5]].
  destruct (read_integer_codec _ _ _ Hv1) as [e6 [W6 R6]].
  destruct (read_integer_codec _ _ _ Hv2) as [e7 [W7 R7]].
  exists (e1 ++ e2 ++ e3 ++ e4 ++ e5 ++ e6 ++ e7). split.
  - intros file'. unfold Spotlight.write. rewrite get_self_bind. norm_spotlight.
    write_classname "spotlight"%string.
    rewrite (on_attr_write Spotlight.pos Spotlight.set_pos _ e1) by exact W1.
    norm_spotlight. rewrite get_self_bind. norm_spotlight.
    rewrite (on_file_w _ e2) by exact W2.
    rewrite (on_attr_write Spotlight.color Spotlight.set_color _ e3) by exact W3.
    norm_spotlight. rewrite get_self_bind. norm_spotlight.
    rewrite (on_file_w _ e4) by exact W4.
    rewrite (on_attr_write Spotlight.angle Spotlight.set_angle _ e5) by exact W5.
    norm_spotlight. rewrite get_self_bind. norm_spotlight.
    rewrite (on_file_w _ e6) by exact W6.
    rewrite (on_file_w_last _ e7) by exact W7.
    rewrite <- !app_assoc. reflexivity.
  - intros rest. unfold Spotlight.parse. rewrite <- !app_assoc.
    rewrite (on_attr_read Spotlight.pos Spotlight.set_pos _ x e1) by exact R1.
    norm_spotlight.
    rewrite (on_file_read read_float v e2) by exact R2.
    rewrite on_self_bind. norm_spotlight.
    rewrite (on_attr_read Spotlight.color Spotlight.set_color _ x0 e3)
      by exact R3.
    norm_spotlight.
    rewrite (on_file_read read_float v0 e4) by exact R4.
    rewrite on_self_bind. norm_spotlight.
    rewrite (on_attr_read Spotlight.angle Spotlight.set_angle _ x1 e5)
      by exact R5.
    norm_spotlight.
    rewrite (on_file_read read_integer v1 e6) by exact R6.
    rewrite on_self_bind. norm_spotlight.
    rewrite (on_file_read read_integer v2 e7) by exact R7.
    reflexivity.
Qed.

Ltac norm_soundemitter :=
  cbv [SoundEmitter.set_pos SoundEmitter.set_sound SoundEmitter.set_range
       SoundEmitter.init];
  cbn [SoundEmitter.pos SoundEmitter.sound SoundEmitter.range
       SoundEmitter.classname].

Lemma SoundEmitter_ok (p : SoundEmitter.t) (file file1 : rfile) :
  SoundEmitter.parse (SoundEmitter.init, file) = ((p, file1), Ok tt) ->
  body_ok "soundemitter" SoundEmitter.parse SoundEmitter.write
    SoundEmitter.init p.
Proof.
  unfold SoundEmitter.parse. intros H.
  repeat inv_step H. apply on_self_inv in H. destruct H as [-> _].
  norm_soundemitter.
  destruct (Coordinate3_ok _ _ _ _ Hx Coordinate3.init) as [e1 [W1 R1]].
  destruct (read_integer_codec _ _ _ Hv) as [e2 [W2 R2]].
  destruct (read_float_codec _ _ _ Hv0) as [e3 [W3 R3]].
  exists (e1 ++ e2 ++ e3). split.
  - intros file'. unfold SoundEmitter.write. rewrite get_self_bind.
    norm_soundemitter.
    write_classname "soundemitter"%string.
    rewrite (on_attr_write SoundEmitter.pos SoundEmitter.set_pos _ e1)
      by exact W1.
    norm_soundemitter. rewrite get_self_bind. norm_soundemitter.
    rewrite (on_file_w _ e2) by exact W2.
    rewrite (on_file_w_last _ e3) by exact W3.
    rewrite <- !app_assoc. reflexivity.
  - intros rest. unfold SoundEmitter.parse. rewrite <- !app_assoc.
    rewrite (on_attr_read SoundEmitter.pos SoundEmitter.set_pos _ x e1)
      by exact R1.
    norm_soundemitter.
    rewrite (on_file_read read_integer v e2) by exact R2.
    rewrite on_self_bind. norm_soundemitter.
    rewrite (on_file_read read_float v0 e3) by exact R3.
    reflexivity.
Qed.

Ltac norm_playerstart :=
  cbv [PlayerStart.set_pos PlayerStart.set_angle PlayerStart.init];
  cbn [PlayerStart.pos PlayerStart.angle PlayerStart.classname].

Lemma PlayerStart_ok (p : PlayerStart.t) (file file1 : rfile) :
  PlayerStart.parse (PlayerStart.init, file) = ((p, file1), Ok tt) ->
  body_ok "playerstart" PlayerStart.parse PlayerStart.write PlayerStart.init p.
Proof.
  unfold PlayerStart.parse. intros H.
  inv_step H. apply on_attr_inv in H. destruct H as [x0 [Hx0 ->]].
  norm_playerstart.
  destruct (Coordinate3_ok _ _ _ _ Hx Coordinate3.init) as [e1 [W1 R1]].
  destruct (Angle_string_ok _ _ _ _ Hx0 Angle.init) as [e2 [W2 R2]].
  exists (e1 ++ e2). split.
  - intros file'. unfold PlayerStart.write. rewrite get_self_bind.
    norm_playerstart.
    write_classname "playerstart"%string.
    rewrite (on_attr_write PlayerStart.pos PlayerStart.set_pos _ e1)
      by exact W1.
    norm_playerstart.
    rewrite (on_attr_write_last PlayerStart.angle PlayerStart.set_angle _ e2)
      by exact W2.
    norm_playerstart. rewrite <- !app_assoc. reflexivity.
  - intros rest. unfold PlayerStart.parse. rewrite <- !app_assoc.
    rewrite (on_attr_read PlayerStart.pos PlayerStart.set_pos _ x e1)
      by exact R1.
    norm_playerstart.
    rewrite (on_attr_read_last PlayerStart.angle PlayerStart.set_angle _ x0 e2)
      by exact R2.
    reflexivity.
Qed.

Ltac norm_model :=
  cbv [Model.set_path Model.set_pos Model.set_angle Model.set_scale Model.init];
  cbn [Model.path Model.pos Model.angle Model.scale Model.classname].

Lemma Model_ok (p : Model.t) (file file1 : rfile) :
  Model.parse (Model.init, file) = ((p, file1), Ok tt) ->
  body_ok "model" Model.parse Model.write Model.init p.
Proof.
  unfold Model.parse. intros H.
  repeat inv_step H. apply on_attr_inv in H. destruct H as [x1 [Hx1 ->]].
  norm_model.
  destruct (read_string_codec _ _ _ Hv) as [e1 [W1 R1]].
  destruct (Coordinate3_ok _ _ _ _ Hx Coordinate3.init) as [e2 [W2 R2]].
  destruct (Angle_bytes_ok _ _ _ _ Hx0 Angle.init) as [e3 [W3 R3]].
  destruct (Scale_ok _ _ _ _ Hx1 Scale.init) as [e4 [W4 R4]].
  exists (e1 ++ e2 ++ e3 ++ e4). split.
  - intros file'. unfold Model.write. rewrite get_self_bind. norm_model.
    write_classname "model"%string.
    rewrite (on_file_w _ e1) by exact W1.
    rewrite (on_attr_write Model.pos Model.set_pos _ e2) by exact W2.
    norm_model.
    rewrite (on_attr_write Model.angle Model.set_angle _ e3) by exact W3.
    norm_model.
    rewrite (on_attr_write_last Model.scale Model.set_scale _ e4) by exact W4.
    norm_model. rewrite <- !app_assoc. reflexivity.
  - intros rest. unfold Model.parse. rewrite <- !app_assoc.
    rewrite (on_file_read read_string v e1) by exact R1.
    rewrite on_self_bind. norm_model.
    rewrite (on_attr_read Model.pos Model.set_pos _ x e2) by exact R2.
    norm_model.
    rewrite (on_attr_read Model.angle Model.set_angle _ x0 e3) by exact R3.
    norm_model.
    rewrite (on_attr_read_last Model.scale Model.set_scale _ x1 e4) by exact R4.
    reflexivity.
Qed.

(** *** The points loop *)

Lemma wrapped_point_ok {X} (name : string) (wrap : X -> Point.t)
    (parse : M (X * rfile) unit) (write : M (X * wfile) unit) (init p : X) :
  ascii_string name -> str_len name < 2 ^ 32 ->
  (forall file, Point.write (wrap p, file) = Point.as_point wrap write p file) ->
  RoomMesh.match_classname name = RoomMesh.append_point wrap (new init parse) ->
  body_ok name parse write init p ->
  point_ok (wrap p).
Proof.
  intros Ha Hl Hwrite Hmatch [e [W R]].
  exists (wire_string name ++ e). split.
  - intros file. rewrite Hwrite. unfold Point.as_point. rewrite W. reflexivity.
  - intros points rest. cbn [RoomMesh.points_loop].
    unfold wire_string. rewrite <- !app_assoc.
    erewrite bind_ok by (apply on_file_ok, read_string_written; assumption).
    rewrite Hmatch. unfold RoomMesh.append_point, bind, on_file, new.
    rewrite R. reflexivity.
Qed.

Ltac known_point name Hp class_ok :=
  eapply (wrapped_point_ok name);
  [ reflexivity | now vm_compute | intros; reflexivity | reflexivity
  | eapply class_ok; exact Hp ].

Lemma match_classname_inv (classname : string) (points points1 : list Point.t)
    (file file1 : rfile) :
  RoomMesh.match_classname classname (points, file) = ((points1, file1), Ok tt) ->
  points1 = points \/ exists p, points1 = points ++ [p] /\ point_ok p.
Proof.
  unfold RoomMesh.match_classname. intros H.
  repeat match type of H with
  | context [(classname =? ?lit)%string] =>
      destruct (String.eqb_spec classname lit) as [->|_];
      [ unfold RoomMesh.append_point in H;
        apply on_file_bind_inv in H; destruct H as [p [f1 [Hp H]]];
        apply on_self_inv in H; destruct H as [-> _];
        apply new_inv in Hp; right; eexists; split; [reflexivity|]
      | ]
  end.
  - known_point "screen"%string Hp Screen_ok.
  - known_point "waypoint"%string Hp Waypoint_ok.
  - known_point "light"%string Hp Light_ok.
  - known_point "spotlight"%string Hp Spotlight_ok.
  - known_point "soundemitter"%string Hp SoundEmitter_ok.
  - known_point "playerstart"%string Hp PlayerStart_ok.
  - known_point "model"%string Hp Model_ok.
  - left. inversion H. reflexivity.
Qed.

Lemma points_loop_inv (count : nat) :
  forall (points points1 : list Point.t) (file file1 : rfile),
    RoomMesh.points_loop count (points, file) = ((points1, file1), Ok tt) ->
    exists items,
      points1 = points ++ items /\ (List.length items <= count)%nat /\
      Forall point_ok items.
Proof.
  induction count as [|n IH]; intros points points1 file file1 H.
  - inversion H. exists []. rewrite app_nil_r. auto.
  - cbn [RoomMesh.points_loop] in H.
    apply on_file_bind_inv in H. destruct H as [classname [f1 [_ H]]].
    apply bind_ok_inv in H. destruct H as [[ps f2] [[] [Hm H]]].
    apply IH in H. destruct H as [items [-> [Hlen Hall]]].
    apply match_classname_inv in Hm. destruct Hm as [-> | [p [-> Hp]]].
    + exists items. repeat split; [lia | exact Hall].
    + exists (p :: items). rewrite <- app_assoc. cbn.
      repeat split; [lia | constructor; assumption].
Qed.

Lemma points_loop_S (n : nat) (s : list Point.t * rfile) :
  RoomMesh.points_loop (S n) s =
    (RoomMesh.points_loop 1 ;; RoomMesh.points_loop n)%method s.
Proof.
  cbn [RoomMesh.points_loop]. unfold bind.
  destruct (on_file read_string s) as [s1 [classname|e]]; [|reflexivity].
  destruct (RoomMesh.match_classname classname s1) as [s2 [[]|e]]; reflexivity.
Qed.

Lemma points_written (items : list Point.t) :
  Forall point_ok items ->
  exists enc,
    (forall done file,
        for_each_from Point.write done items file =
          ((done ++ items, file ++ enc), Ok tt)) /\
    (forall points rest,
        RoomMesh.points_loop (List.length items) (points, enc ++ rest) =
          ((points ++ items, rest), Ok tt)).
Proof.
  induction 1 as [|p items [e1 [Hw Hp]] _ [enc [IHw IHp]]].
  - exists []. split; intros; cbn; rewrite !app_nil_r; reflexivity.
  - exists (e1 ++ enc). split.
    + intros done file. cbn [for_each_from]. rewrite Hw, IHw.
      rewrite <- !app_assoc. reflexivity.
    + intros points rest. cbn [List.length]. rewrite points_loop_S.
      rewrite <- app_assoc. rewrite (bind_ok _ _ _ _ _ (Hp _ _)).
      rewrite IHp, <- app_assoc. reflexivity.
Qed.

(** *** The document *)

Ltac norm_roommesh :=
  cbv [RoomMesh.set_signature RoomMesh.set_objects RoomMesh.set_collisions
       RoomMesh.set_triggers RoomMesh.set_points RoomMesh.init];
  cbn [RoomMesh.signature RoomMesh.objects RoomMesh.collisions
       RoomMesh.triggers RoomMesh.points app].

Ltac norm_roommesh_in H :=
  cbv [RoomMesh.set_signature RoomMesh.set_objects RoomMesh.set_collisions
       RoomMesh.set_triggers RoomMesh.set_points RoomMesh.init] in H;
  cbn [RoomMesh.signature RoomMesh.objects RoomMesh.collisions
       RoomMesh.triggers RoomMesh.points app] in H.

(** What [parse], called on a fresh document, can return. *)
Lemma parse_inv (b rest : rfile) (d : RoomMesh.t) :
  RoomMesh.parse (RoomMesh.init, b) = ((d, rest), Ok tt) ->
  exists sig objs cols trigs pts,
    d = RoomMesh.mk sig objs cols trigs pts /\
    codec_ok read_string write_string sig /\
    RoomMesh.known_signature sig = true /\
    (sig <> "RoomMesh.HasTriggerBox"%string -> trigs = []) /\
    (len objs < 2 ^ 32 /\
     Forall (method_ok Object.parse Object.write Object.init) objs) /\
    (len cols < 2 ^ 32 /\
     Forall (method_ok Collision.parse Collision.write Collision.init) cols) /\
    (len trigs < 2 ^ 32 /\
     Forall (method_ok TriggerBox.parse TriggerBox.write TriggerBox.init) trigs) /\
    (len pts < 2 ^ 32 /\ Forall point_ok pts).
Proof.
  unfold RoomMesh.parse. intros H.
  apply bind_ok_inv in H. destruct H as [[d1 f1] [[] [Hsig H]]].
  apply bind_ok_inv in H. destruct H as [[d2 f2] [[] [Hobj H]]].
  apply bind_ok_inv in H. destruct H as [[d3 f3] [[] [Hcol H]]].
  apply bind_ok_inv in H. destruct H as [[d4 f4] [[] [Htri Hpts]]].
  (* the signature *)
  unfold RoomMesh.get_signature in Hsig.
  apply on_file_bind_inv in Hsig. destruct Hsig as [sig [f0 [Hs Hsig]]].
  rewrite on_self_bind, get_self_bind in Hsig. norm_roommesh_in Hsig.
  destruct (RoomMesh.known_signature sig) eqn:Known; [|discriminate].
  cbn [negb] in Hsig. inversion Hsig. subst d1 f1. clear Hsig.
  (* the objects *)
  unfold RoomMesh.get_objects in Hobj.
  apply on_file_bind_inv in Hobj. destruct Hobj as [n1 [g1 [Hn1 Hobj]]].
  apply on_attr_inv in Hobj. destruct Hobj as [objs0 [Hobj ->]].
  destruct (counted_inv _ _ _ _ _ _ _ _ Hn1 Hobj) as [objs [-> [Lo Po]]].
  (* the collisions *)
  unfold RoomMesh.get_collisions in Hcol.
  apply on_file_bind_inv in Hcol. destruct Hcol as [n2 [g2 [Hn2 Hcol]]].
  apply on_attr_inv in Hcol. destruct Hcol as [cols0 [Hcol ->]].
  destruct (counted_inv _ _ _ _ _ _ _ _ Hn2 Hcol) as [cols [-> [Lc Pc]]].
  norm_roommesh_in Htri.
  pose proof (new_parsed _ _ Object.write objs
    (fun x f f1 Hp => Object_ok _ _ _ Hp) Po) as Fo.
  pose proof (new_parsed _ _ Collision.write cols
    (fun x f f1 Hp => Collision_ok _ _ _ Hp) Pc) as Fc.
  (* the trigger boxes *)
  destruct (String.eqb_spec sig "RoomMesh.HasTriggerBox") as [Es | Es].
  - rewrite get_trigger_boxes_read in Htri by exact Es.
    apply on_file_bind_inv in Htri. destruct Htri as [n3 [g3 [Hn3 Htri]]].
    apply on_attr_inv in Htri. destruct Htri as [trigs0 [Htri ->]].
    destruct (counted_inv _ _ _ _ _ _ _ _ Hn3 Htri) as [trigs [-> [Lt Pt]]].
    pose proof (new_parsed _ _ TriggerBox.write trigs
      (fun x f f1 Hp => TriggerBox_ok _ _ _ Hp) Pt) as Ft.
    unfold RoomMesh.get_points in Hpts.
    apply on_file_bind_inv in Hpts. destruct Hpts as [n4 [g4 [Hn4 Hpts]]].
    apply on_attr_inv in Hpts. destruct Hpts as [pts0 [Hpts ->]].
    apply points_loop_inv in Hpts. destruct Hpts as [pts [-> [Lp Pp]]].
    apply read_integer_inv in Hn4. destruct Hn4 as [b0 [b1 [b2 [b3 [_ Hn4]]]]].
    pose proof (unpack_I_range [b0; b1; b2; b3]) as Hr. rewrite <- Hn4 in Hr.
    exists sig, objs, cols, trigs, pts. norm_roommesh.
    repeat split; try assumption.
    + eapply read_string_codec; exact Hs.
    + intros Hne. contradiction.
    + unfold len. lia.
  - rewrite get_trigger_boxes_skip in Htri by exact Es.
    inversion Htri. subst d4 f4. clear Htri.
    unfold RoomMesh.get_points in Hpts.
    apply on_file_bind_inv in Hpts. destruct Hpts as [n4 [g4 [Hn4 Hpts]]].
    apply on_attr_inv in Hpts. destruct Hpts as [pts0 [Hpts ->]].
    apply points_loop_inv in Hpts. destruct Hpts as [pts [-> [Lp Pp]]].
    apply read_integer_inv in Hn4. destruct Hn4 as [b0 [b1 [b2 [b3 [_ Hn4]]]]].
    pose proof (unpack_I_range [b0; b1; b2; b3]) as Hr. rewrite <- Hn4 in Hr.
    exists sig, objs, cols, [], pts. norm_roommesh.
    repeat split; try assumption.
    + eapply read_string_codec; exact Hs.
    + constructor.
    + unfold len. lia.
Qed.

Lemma read_count (n : Z) (rest : rfile) :
  0 <= n < 2 ^ 32 -> read_integer (le_bytes4 n ++ rest) = (rest, Ok n).
Proof.
  intros Hn. destruct (count_codec _ Hn) as [e [Hw Hr]].
  pose proof (Hw []) as E. rewrite write_integer_ok in E by exact Hn.
  inversion E as [E']. cbn [app] in E'. rewrite <- E' in Hr. apply Hr.
Qed.

(** The encoding of the trigger section: nothing for an empty list. *)
Lemma trigger_section_ok (sig : string) (objs : list Object.t)
    (cols : list Collision.t) (trigs : list TriggerBox.t) (pts : list Point.t) :
  (sig <> "RoomMesh.HasTriggerBox"%string -> trigs = []) ->
  (sig = "RoomMesh.HasTriggerBox"%string -> trigs <> []) ->
  len trigs < 2 ^ 32 ->
  Forall (method_ok TriggerBox.parse TriggerBox.write TriggerBox.init) trigs ->
  exists enc,
    (forall file,
        RoomMesh.write_trigger_boxes (RoomMesh.mk sig objs cols trigs pts, file) =
          ((RoomMesh.mk sig objs cols trigs pts, file ++ enc), Ok tt)) /\
    (forall rest,
        RoomMesh.get_trigger_boxes (RoomMesh.mk sig objs cols [] [], enc ++ rest) =
          ((RoomMesh.mk sig objs cols trigs [], rest), Ok tt)).
Proof.
  intros Hskip Hread Lt Ft.
  destruct (String.eqb_spec sig "RoomMesh.HasTriggerBox") as [Es | Es].
  - destruct (counted_list_ok _ _ _ _ Ft Lt) as [et [Wct [Wt [Rct Rt]]]].
    exists (le_bytes4 (len trigs) ++ et). split.
    + intros file. rewrite write_trigger_boxes_nonempty by (apply Hread, Es).
      norm_roommesh.
      rewrite (on_file_w _ (le_bytes4 (len trigs))) by exact Wct.
      rewrite (on_attr_write_last RoomMesh.triggers RoomMesh.set_triggers _ et)
        by exact Wt.
      norm_roommesh. rewrite <- !app_assoc. reflexivity.
    + intros rest. rewrite get_trigger_boxes_read by exact Es.
      rewrite <- !app_assoc.
      rewrite (on_file_read read_integer (len trigs) (le_bytes4 (len trigs)))
        by exact Rct.
      rewrite (on_attr_read_last RoomMesh.triggers RoomMesh.set_triggers
                 _ trigs et) by (intros; apply (Rt [])).
      reflexivity.
  - rewrite (Hskip Es). exists []. split.
    + intros file. rewrite write_trigger_boxes_empty by reflexivity.
      rewrite app_nil_r. reflexivity.
    + intros rest. rewrite get_trigger_boxes_skip by exact Es. reflexivity.
Qed.

(** A document whose parts all read back what they write does so itself,
    provided that its signature announces triggers only when it has some. *)
Lemma document_round_trip (sig : string) (objs : list Object.t)
    (cols : list Collision.t) (trigs : list TriggerBox.t) (pts : list Point.t) :
  codec_ok read_string write_string sig ->
  RoomMesh.known_signature sig = true ->
  (sig <> "RoomMesh.HasTriggerBox"%string -> trigs = []) ->
  (sig = "RoomMesh.HasTriggerBox"%string -> trigs <> []) ->
  len objs < 2 ^ 32 /\
  Forall (method_ok Object.parse Object.write Object.init) objs ->
  len cols < 2 ^ 32 /\
  Forall (method_ok Collision.parse Collision.write Collision.init) cols ->
  len trigs < 2 ^ 32 /\
  Forall (method_ok TriggerBox.parse TriggerBox.write TriggerBox.init) trigs ->
  len pts < 2 ^ 32 /\ Forall point_ok pts ->
  exists enc,
    (forall file,
        RoomMesh.write (RoomMesh.mk sig objs cols trigs pts, file) =
          ((RoomMesh.mk sig objs cols trigs pts,
            file ++ enc ++ wire_string "EOF"), Ok tt)) /\
    (forall rest,
        RoomMesh.parse (RoomMesh.init, enc ++ rest) =
          ((RoomMesh.mk sig objs cols trigs pts, rest), Ok tt)).
Proof.
  intros [es [Ws Rs]] Known Hskip Hread [Lo Fo] [Lc Fc] [Lt Ft] [Lp Fp].
  destruct (counted_list_ok _ _ _ _ Fo Lo) as [eo [Wco [Wo [Rco Ro]]]].
  destruct (counted_list_ok _ _ _ _ Fc Lc) as [ec [Wcc [Wc [Rcc Rc]]]].
  destruct (trigger_section_ok sig objs cols trigs pts Hskip Hread Lt Ft)
    as [et [Wt Rt]].
  destruct (points_written pts Fp) as [ep [Wp Rp]].
  assert (Np : 0 <= len pts < 2 ^ 32)
    by (pose proof (len_nonneg pts); lia).
  exists (es ++ (le_bytes4 (len objs) ++ eo) ++ (le_bytes4 (len cols) ++ ec)
             ++ et ++ le_bytes4 (len pts) ++ ep).
  split.
  - intros file. unfold RoomMesh.write.
    assert (B1 : RoomMesh.write_signature
                   (RoomMesh.mk sig objs cols trigs pts, file) =
                 ((RoomMesh.mk sig objs cols trigs pts, file ++ es), Ok tt)).
    { unfold RoomMesh.write_signature. rewrite get_self_bind. norm_roommesh.
      apply on_file_w_last. exact Ws. }
    rewrite (bind_ok _ _ _ _ _ B1).
    assert (B2 : forall file,
               RoomMesh.write_objects
                   (RoomMesh.mk sig objs cols trigs pts, file) =
                 ((RoomMesh.mk sig objs cols trigs pts,
                   file ++ le_bytes4 (len objs) ++ eo), Ok tt)).
    { intros file'. unfold RoomMesh.write_objects. rewrite get_self_bind.
      norm_roommesh.
      rewrite (on_file_w _ (le_bytes4 (len objs))) by exact Wco.
      rewrite (on_attr_write_last RoomMesh.objects RoomMesh.set_objects _ eo)
        by exact Wo.
      norm_roommesh. rewrite <- !app_assoc. reflexivity. }
    rewrite (bind_ok _ _ _ _ _ (B2 _)).
    assert (B3 : forall file,
               RoomMesh.write_collisions
                   (RoomMesh.mk sig objs cols trigs pts, file) =
                 ((RoomMesh.mk sig objs cols trigs pts,
                   file ++ le_bytes4 (len cols) ++ ec), Ok tt)).
    { intros file'. unfold RoomMesh.write_collisions. rewrite get_self_bind.
      norm_roommesh.
      rewrite (on_file_w _ (le_bytes4 (len cols))) by exact Wcc.
      rewrite (on_attr_write_last RoomMesh.collisions RoomMesh.set_collisions
                 _ ec) by exact Wc.
      norm_roommesh. rewrite <- !app_assoc. reflexivity. }
    rewrite (bind_ok _ _ _ _ _ (B3 _)).
    rewrite (bind_ok _ _ _ _ _ (Wt _)).
    assert (B5 : forall file,
               RoomMesh.write_points
                   (RoomMesh.mk sig objs cols trigs pts, file) =
                 ((RoomMesh.mk sig objs cols trigs pts,
                   file ++ le_bytes4 (len pts) ++ ep), Ok tt)).
    { intros file'. unfold RoomMesh.write_points. rewrite get_self_bind.
      norm_roommesh.
      rewrite (on_file_w _ (le_bytes4 (len pts)))
        by (intros; apply write_integer_ok, Np).
      rewrite (on_attr_write_last RoomMesh.points RoomMesh.set_points _ ep)
        by (intros; apply (Wp [])).
      norm_roommesh. rewrite <- !app_assoc. reflexivity. }
    rewrite (bind_ok _ _ _ _ _ (B5 _)).
    unfold RoomMesh.write_EOF.
    rewrite (on_file_w_last _ (wire_string "EOF"))
      by (apply classname_written; [reflexivity | now vm_compute]).
    rewrite <- !app_assoc. reflexivity.
  - intros rest. unfold RoomMesh.parse. rewrite <- !app_assoc.
    assert (P1 : forall rest,
               RoomMesh.get_signature (RoomMesh.init, es ++ rest) =
                 ((RoomMesh.mk sig [] [] [] [], rest), Ok tt)).
    { intros rest'. unfold RoomMesh.get_signature.
      rewrite (on_file_read read_string sig es) by exact Rs.
      rewrite on_self_bind, get_self_bind. norm_roommesh.
      rewrite Known. reflexivity. }
    rewrite (bind_ok _ _ _ _ _ (P1 _)).
    assert (P2 : forall rest,
               RoomMesh.get_objects
                 (RoomMesh.mk sig [] [] [] [],
                  le_bytes4 (len objs) ++ eo ++ rest) =
                 ((RoomMesh.mk sig objs [] [] [], rest), Ok tt)).
    { intros rest'. unfold RoomMesh.get_objects.
      rewrite (on_file_read read_integer (len objs) (le_bytes4 (len objs)))
        by exact Rco.
      rewrite (on_attr_read_last RoomMesh.objects RoomMesh.set_objects
                 _ objs eo) by (intros; apply (Ro [])).
      reflexivity. }
    rewrite (bind_ok _ _ _ _ _ (P2 _)).
    assert (P3 : forall rest,
               RoomMesh.get_collisions
                 (RoomMesh.mk sig objs [] [] [],
                  le_bytes4 (len cols) ++ ec ++ rest) =
                 ((RoomMesh.mk sig objs cols [] [], rest), Ok tt)).
    { intros rest'. unfold RoomMesh.get_collisions.
      rewrite (on_file_read read_integer (len cols) (le_bytes4 (len cols)))
        by exact Rcc.
      rewrite (on_attr_read_last RoomMesh.collisions RoomMesh.set_collisions
                 _ cols ec) by (intros; apply (Rc [])).
      reflexivity. }
    rewrite (bind_ok _ _ _ _ _ (P3 _)).
    rewrite (bind_ok _ _ _ _ _ (Rt _)).
    unfold RoomMesh.get_points.
    rewrite (on_file_read read_integer (len pts) (le_bytes4 (len pts)))
      by (intros; apply read_count, Np).
    rewrite (on_attr_read_last RoomMesh.points RoomMesh.set_points _ pts ep)
      by (intros; unfold len; rewrite Nat2Z.id; apply (Rp [])).
    reflexivity.
Qed.

(** C1 (amended). A document [d] that [parse] returns for a new instance,
    and whose signature is ["RoomMesh.HasTriggerBox"] only if it has a
    trigger box, is written without error: [write] leaves [d] as it is and
    appends an encoding [enc] of it followed by the ["EOF"] sentinel.
    [parse] of a new instance on [enc], whatever follows it, returns [d]
    with all its fields and stops in front of what follows: the sentinel
    is left unread.  So the stream that [write] produces is parsed back to
    [d], and writing that result gives the same stream again. *)
Theorem C1_parse_write_round_trip (b rest : rfile) (d : RoomMesh.t) :
  RoomMesh.parse (RoomMesh.init, b) = ((d, rest), Ok tt) ->
  (RoomMesh.signature d = "RoomMesh.HasTriggerBox"%string ->
   RoomMesh.triggers d <> []) ->
  exists enc,
    (forall file,
        RoomMesh.write (d, file) =
          ((d, file ++ enc ++ wire_string "EOF"), Ok tt)) /\
    (forall rest',
        RoomMesh.parse (RoomMesh.init, enc ++ rest') = ((d, rest'), Ok tt)).
Proof.
  intros Hparse Htrig.
  destruct (parse_inv _ _ _ Hparse)
    as [sig [objs [cols [trigs [pts [-> [Hs [Hk [Hskip [Ho [Hc [Ht Hp]]]]]]]]]]]].
  cbn [RoomMesh.signature RoomMesh.triggers] in Htrig.
  apply document_round_trip; assumption.
Qed.

Lemma C1_witness :
  RoomMesh.parse (RoomMesh.init, two_points_stream) =
    ((two_points, wire_string "EOF"), Ok tt) /\
  exists enc,
    (forall file,
        RoomMesh.write (two_points, file) =
          ((two_points, file ++ enc ++ wire_string "EOF"), Ok tt)) /\
    (forall rest',
        RoomMesh.parse (RoomMesh.init, enc ++ rest') =
          ((two_points, rest'), Ok tt)).
Proof.
  assert (H : RoomMesh.parse (RoomMesh.init, two_points_stream) =
                ((two_points, wire_string "EOF"), Ok tt))
    by (vm_compute; reflexivity).
  split; [exact H|].
  apply (C1_parse_write_round_trip two_points_stream (wire_string "EOF")
           two_points H).
  cbn. discriminate.
Defined.

(** The stream [no_trigger_stream] is parsed without error; writing the
    document obtained leaves out the trigger count, so the output is four
    bytes shorter than the stream, and parsing that output fails. *)
Lemma C1_counterexample :
  RoomMesh.parse (RoomMesh.init, no_trigger_stream) =
    ((no_trigger, wire_string "EOF"), Ok tt) /\
  RoomMesh.write (no_trigger, []) =
    ((no_trigger,
      wire_string "RoomMesh.HasTriggerBox" ++
      le_bytes4 0 ++ le_bytes4 0 ++ le_bytes4 0 ++ wire_string "EOF"), Ok tt) /\
  emitted RoomMesh.write no_trigger <> no_trigger_stream /\
  RoomMesh.parse (RoomMesh.init, emitted RoomMesh.write no_trigger) =
    ((no_trigger, []), Raise EOFError).
Proof.
  split; [|split; [|split]]; try (vm_compute; reflexivity).
  intros H. apply (f_equal (@List.length byte)) in H. vm_compute in H.
  discriminate.
Qed.

(** * Further properties of the codec *)

(** ** The primitive readers and writers *)

(** X1. [write_integer] and [read_integer] are inverse to each other on the
    32-bit unsigned range.  A value in the range is written as its four
    little-endian bytes and read back from them; and whatever
    [read_integer] returns is in the range and the four bytes it consumed
    are exactly those [write_integer] emits for it. *)
Theorem X1_integer_round_trip :
  (forall (n : Z) (file : wfile) (rest : rfile),
      0 <= n < 2 ^ 32 ->
      write_integer n file = (file ++ le_bytes4 n, Ok tt) /\
      read_integer (le_bytes4 n ++ rest) = (rest, Ok n)) /\
  (forall (file file1 : rfile) (n : Z),
      read_integer file = (file1, Ok n) ->
      0 <= n < 2 ^ 32 /\ file = le_bytes4 n ++ file1).
Proof.
  split.
  - intros n file rest Hn. split.
    + apply write_integer_ok, Hn.
    + apply read_count, Hn.
  - intros file file1 n H. apply read_integer_inv in H.
    destruct H as [b0 [b1 [b2 [b3 [-> ->]]]]]. split.
    + apply unpack_I_range.
    + rewrite le_bytes4_unpack_I. reflexivity.
Qed.

Lemma X1_witness :
  (write_integer 258 [] = ([x02; x01; x00; x00], Ok tt) /\
   read_integer [x02; x01; x00; x00; xff] = ([xff], Ok 258)) /\
  (0 <= 258 < 2 ^ 32 /\ [x02; x01; x00; x00; xff] = le_bytes4 258 ++ [xff]).
Proof.
  split.
  - apply (proj1 X1_integer_round_trip 258 [] [xff]). lia.
  - apply (proj2 X1_integer_round_trip [x02; x01; x00; x00; xff] [xff] 258).
    reflexivity.
Defined.

(** X2. The fixed-size readers fail only at the end of the file.  With
    fewer bytes left than the value takes, [read_byte], [read_integer] and
    [read_float] raise [EOFError] and the bytes that were left are consumed;
    with enough bytes left they return a value and consume exactly one,
    four and four bytes. *)
Theorem X2_fixed_size_readers (file : rfile) :
  (len file < 1 -> read_byte file = ([], Raise EOFError)) /\
  (len file < 4 ->
   read_integer file = ([], Raise EOFError) /\
   read_float file = ([], Raise EOFError)) /\
  (1 <= len file -> exists v, read_byte file = (skipn 1 file, Ok v)) /\
  (4 <= len file ->
   exists n x,
     read_integer file = (skipn 4 file, Ok n) /\
     read_float file = (skipn 4 file, Ok x)).
Proof.
  unfold len.
  destruct file as [|b0 [|b1 [|b2 [|b3 rest]]]]; cbn [List.length];
    (split; [|split; [|split]]); intros H; try lia;
    try (split; reflexivity); try reflexivity.
  - eexists. apply read_byte_cons.
  - eexists. apply read_byte_cons.
  - eexists. apply read_byte_cons.
  - eexists. apply read_byte_cons.
  - do 2 eexists. split; [apply read_integer_cons | apply read_float_cons].
Qed.

Lemma X2_witness :
  read_byte [] = ([], Raise EOFError) /\
  (read_integer [x01; x02; x03] = ([], Raise EOFError) /\
   read_float [x01; x02; x03] = ([], Raise EOFError)) /\
  (exists v, read_byte [x07; x08] = ([x08], Ok v)) /\
  (exists n x,
     read_integer [x01; x00; x00; x00; x09] = ([x09], Ok n) /\
     read_float [x01; x00; x00; x00; x09] = ([x09], Ok x)).
Proof.
  split; [|split; [|split]].
  - apply (proj1 (X2_fixed_size_readers [])). reflexivity.
  - apply (proj1 (proj2 (X2_fixed_size_readers [x01; x02; x03]))). reflexivity.
  - apply (proj1 (proj2 (proj2 (X2_fixed_size_readers [x07; x08])))).
    discriminate.
  - apply (proj2 (proj2 (proj2
             (X2_fixed_size_readers [x01; x00; x00; x00; x09])))).
    discriminate.
Defined.

Lemma read_string_consumed (file file1 : rfile) (s : string) :
  read_string file = (file1, Ok s) -> file = wire_string s ++ file1.
Proof.
  unfold read_string. intros H.
  apply bind_ok_inv in H. destruct H as [f0 [n [Hn H]]].
  apply bind_ok_inv in H. destruct H as [f1 [bs [Hbs H]]].
  destruct (Z.ltb_spec (len bs) n) as [Hlt|Hge]; [discriminate|].
  unfold lift_result in H. injection H as Hf Hd. subst f1.
  apply decode_ascii_inv in Hd. destruct Hd as [_ [Hl Hm]].
  pose proof (file_read_inv _ _ _ _ Hbs) as Hfile.
  apply read_integer_inv in Hn. destruct Hn as [b0 [b1 [b2 [b3 [-> Hn]]]]].
  assert (Hr : 0 <= n < 2 ^ 32) by (rewrite Hn; apply unpack_I_range).
  assert (Hle : len bs <= n).
  { unfold file_read in Hbs. injection Hbs as _ Hb. rewrite <- Hb.
    unfold len. rewrite length_firstn. lia. }
  assert (E : str_len s = n) by lia.
  unfold wire_string. rewrite E, Hm, Hn, le_bytes4_unpack_I, Hfile.
  reflexivity.
Qed.

(** X3. [write_string] and [read_string] are inverse to each other.  An
    ASCII string shorter than 2^32 characters is written as its length on
    four little-endian bytes followed by its characters, and is read back
    from that; and whatever [read_string] returns is such a string, and the
    bytes it consumed are exactly what [write_string] emits for it. *)
Theorem X3_string_round_trip :
  (forall (s : string) (file : wfile) (rest : rfile),
      ascii_string s -> str_len s < 2 ^ 32 ->
      write_string s file = (file ++ wire_string s, Ok tt) /\
      read_string (wire_string s ++ rest) = (rest, Ok s)) /\
  (forall (file file1 : rfile) (s : string),
      read_string file = (file1, Ok s) ->
      ascii_string s /\ str_len s < 2 ^ 32 /\ file = wire_string s ++ file1).
Proof.
  split.
  - intros s file rest Ha Hl. split.
    + apply write_string_ok; assumption.
    + unfold wire_string. rewrite <- app_assoc.
      apply read_string_written; assumption.
  - intros file file1 s H.
    destruct (read_string_inv _ _ _ H) as [Ha Hl].
    repeat split; try assumption. apply read_string_consumed, H.
Qed.

Lemma X3_witness :
  (write_string "ab" [xff] = ([xff; x02; x00; x00; x00; x61; x62], Ok tt) /\
   read_string [x02; x00; x00; x00; x61; x62; x63] = ([x63], Ok "ab"%string)) /\
  (ascii_string "ab" /\ str_len "ab" < 2 ^ 32 /\
   [x02; x00; x00; x00; x61; x62; x63] = wire_string "ab" ++ [x63]).
Proof.
  split.
  - apply (proj1 X3_string_round_trip "ab"%string [xff] [x63]).
    + reflexivity.
    + reflexivity.
  - apply (proj2 X3_string_round_trip
             [x02; x00; x00; x00; x61; x62; x63] [x63] "ab"%string).
    reflexivity.
Defined.

(** X4. The two ways [read_string] fails after a length [n] was read.  If
    fewer than [n] bytes follow, it raises [EOFError], with the file at its
    end.  If [n] bytes follow and one of them is not ASCII, it raises
    [UnicodeDecodeError], with the [n] bytes consumed. *)
Theorem X4_read_string_errors (n : Z) (data : list byte) :
  0 <= n < 2 ^ 32 ->
  (len data < n ->
   read_string (le_bytes4 n ++ data) = ([], Raise EOFError)) /\
  (forall rest : rfile,
      len data = n -> forallb is_ascii_byte data = false ->
      read_string (le_bytes4 n ++ data ++ rest) =
        (rest, Raise UnicodeDecodeError)).
Proof.
  intros Hn. split.
  - intros Hlt. unfold read_string.
    rewrite (bind_ok _ _ _ _ _ (read_count n data Hn)).
    unfold bind, file_read.
    assert (Hl : (List.length data <= Z.to_nat n)%nat) by (unfold len in Hlt; lia).
    rewrite (firstn_all2 _ Hl), (skipn_all2 _ Hl).
    destruct (Z.ltb_spec (len data) n); [reflexivity | lia].
  - intros rest Hl Hbad. unfold read_string.
    rewrite (bind_ok _ _ _ _ _ (read_count n (data ++ rest) Hn)).
    rewrite <- Hl. rewrite (bind_ok _ _ _ _ _ (file_read_app data rest)).
    rewrite Z.ltb_irrefl. unfold lift_result, decode_ascii. rewrite Hbad.
    reflexivity.
Qed.

Lemma X4_witness :
  read_string [x03; x00; x00; x00; x61; x62] = ([], Raise EOFError) /\
  read_string [x02; x00; x00; x00; x61; xe9; x63] =
    ([x63], Raise UnicodeDecodeError).
Proof.
  split.
  - apply (proj1 (X4_read_string_errors 3 [x61; x62] ltac:(lia))). reflexivity.
  - apply (proj2 (X4_read_string_errors 2 [x61; xe9] ltac:(lia)) [x63]);
      reflexivity.
Defined.

Lemma write_string_not_ascii (s : string) (file : wfile) :
  str_len s < 2 ^ 32 ->
  forallb is_ascii_char (list_ascii_of_string s) = false ->
  write_string s file =
    (file ++ le_bytes4 (str_len s), Raise UnicodeEncodeError).
Proof.
  intros Hl Hbad. unfold write_string.
  assert (Hn : 0 <= str_len s < 2 ^ 32) by (unfold str_len in *; lia).
  rewrite (bind_ok _ _ _ _ _ (write_integer_ok _ file Hn)).
  unfold bind, lift_result, encode_ascii. rewrite Hbad. reflexivity.
Qed.

(** X5. [write_string] writes the length before it encodes the string: for
    a string that holds a character outside ASCII the four length bytes are
    in the file when [UnicodeEncodeError] is raised, and none of its
    characters. *)
Theorem X5_write_string_not_ascii (s : string) (file : wfile) :
  str_len s < 2 ^ 32 ->
  forallb is_ascii_char (list_ascii_of_string s) = false ->
  write_string s file =
    (file ++ le_bytes4 (str_len s), Raise UnicodeEncodeError).
Proof. apply write_string_not_ascii. Qed.

Lemma X5_witness :
  write_string (String (ascii_of_nat 233) "a") [] =
    ([x02; x00; x00; x00], Raise UnicodeEncodeError).
Proof.
  apply (X5_write_string_not_ascii (String (ascii_of_nat 233) "a") []);
    reflexivity.
Defined.

(** ** Floats on the wire *)

Lemma bits_of_SF32_of_bits (bits : Z) :
  0 <= bits < 2 ^ 32 ->
  SF32_of_bits bits <> S754_nan ->
  bits_of_SF32 (SF32_of_bits bits) = bits.
Proof.
  intros Hb.
  set (s := 2 ^ 31 <=? bits).
  set (expo := (bits / 2 ^ 23) mod 256).
  set (frac := bits mod 2 ^ 23).
  assert (He : 0 <= expo < 256) by (apply Z.mod_pos_bound; lia).
  assert (Hf : 0 <= frac < 2 ^ 23) by (apply Z.mod_pos_bound; lia).
  assert (E : bits = frac + expo * 2 ^ 23 + (if s then 2 ^ 31 else 0)).
  { unfold s, expo, frac.
    change (2 ^ 23) with 8388608 in *. change (2 ^ 32) with 4294967296 in *.
    change (2 ^ 31) with 2147483648.
    destruct (Z.leb_spec 2147483648 bits); Z.div_mod_to_equations; lia. }
  clearbody s expo frac. subst bits.
  rewrite SF32_of_bits_fields by assumption.
  change (2 ^ 23) with 8388608 in *. change (2 ^ 31) with 2147483648 in *.
  destruct (Z.eqb_spec expo 255) as [E255|N255].
  - destruct (Z.eqb_spec frac 0) as [F0|F0]; [|intros Hn; contradiction].
    intros _. cbn [bits_of_SF32]. subst expo frac.
    rewrite lor_sign_bit
      by (change (Z.shiftl 255 23) with 2139095040;
          change (2 ^ 31) with 2147483648; lia).
    change (Z.shiftl 255 23) with 2139095040.
    change (2 ^ 31) with 2147483648. lia.
  - destruct (Z.eqb_spec expo 0) as [E0|N0].
    + intros _. subst expo. destruct frac as [|m|m]; try lia.
      * cbn [bits_of_SF32]. unfold sign_bit.
        change (Z.shiftl 1 31) with 2147483648. destruct s; reflexivity.
      * cbn [bits_of_SF32].
        replace (Z.pos m <? 2 ^ 23) with true
          by (symmetry; apply Z.ltb_lt; change (2 ^ 23) with 8388608; lia).
        rewrite lor_sign_bit by (change (2 ^ 31) with 2147483648; lia).
        change (2 ^ 31) with 2147483648. lia.
    + intros _. destruct (frac + 8388608) as [|m|m] eqn:Em; try lia.
      cbn [bits_of_SF32].
      replace (Z.pos m <? 2 ^ 23) with false
        by (symmetry; apply Z.ltb_ge; change (2 ^ 23) with 8388608; lia).
      rewrite Z.land_ones by lia. change (2 ^ 23) with 8388608.
      assert (Hmod : Z.pos m mod 8388608 = frac).
      { symmetry. apply Z.mod_unique with (q := 1); lia. }
      rewrite Hmod. replace (expo - 150 + 150) with expo by lia.
      rewrite (Z.lor_comm (Z.shiftl expo 23)), lor_shiftl_add
        by (change (2 ^ 23) with 8388608; lia).
      change (2 ^ 23) with 8388608.
      rewrite lor_sign_bit by (change (2 ^ 31) with 2147483648; lia).
      change (2 ^ 31) with 2147483648. reflexivity.
Qed.

Lemma write_float_binary32 (y : spec_float) (file : wfile) :
  valid_binary prec32 emax32 y = true ->
  write_float (PyFloat (SF64_of_SF32 y)) file =
    (file ++ le_bytes4 (bits_of_SF32 y), Ok tt).
Proof.
  intros Hy. destruct (SF32_of_SF64_of_SF32 y Hy) as [Hn Hfin].
  unfold write_float, bind, lift_result. cbn [float_of_pynum]. unfold pack_f.
  destruct (SF64_of_SF32 y) as [s|s| |s m e]; rewrite Hn;
    destruct y; try contradiction; reflexivity.
Qed.

(** X6. Reading a float and writing it again reproduces the four bytes that
    were read, for every bit pattern that is not a NaN: the widening of a
    binary32 value to a Python float and its narrowing by [struct.pack]
    lose nothing. *)
Theorem X6_float_bytes_preserved (b0 b1 b2 b3 : byte) (rest : rfile)
    (file : wfile) :
  unpack_f [b0; b1; b2; b3] <> S754_nan ->
  exists v,
    read_float (b0 :: b1 :: b2 :: b3 :: rest) = (rest, Ok v) /\
    write_float (PyFloat v) file = (file ++ [b0; b1; b2; b3], Ok tt).
Proof.
  intros Hnan. exists (unpack_f [b0; b1; b2; b3]). split.
  - apply read_float_cons.
  - unfold unpack_f in *.
    pose proof (unpack_I_range [b0; b1; b2; b3]) as Hr.
    rewrite write_float_binary32 by (apply SF32_of_bits_valid, Hr).
    rewrite bits_of_SF32_of_bits, le_bytes4_unpack_I; [reflexivity | exact Hr |].
    intros E. apply Hnan. rewrite E. reflexivity.
Qed.

Lemma X6_witness :
  exists v,
    read_float [xcd; xcc; xcc; x3d; x07] = ([x07], Ok v) /\
    write_float (PyFloat v) [] = ([xcd; xcc; xcc; x3d], Ok tt).
Proof.
  apply (X6_float_bytes_preserved xcd xcc xcc x3d [x07] []).
  vm_compute. discriminate.
Defined.

(** ** Textures and colours *)

Lemma byte_at_val (v : Z) : 0 <= v < 256 -> byte_val (byte_at v 0) = v.
Proof.
  intros Hv. rewrite byte_at_spec by lia. change (2 ^ 0) with 1.
  rewrite Z.div_1_r. apply Z.mod_small, Hv.
Qed.

Lemma write_byte_bad (v : Z) (file : wfile) :
  ~ 0 <= v < 256 -> write_byte v file = (file, Raise StructError).
Proof.
  intros Hv. unfold write_byte, pack_B, bind, lift_result.
  replace ((0 <=? v) && (v <=? 255)) with false; [reflexivity|].
  symmetry. apply andb_false_iff.
  destruct (Z.leb_spec 0 v); [right; apply Z.leb_gt; lia | left; reflexivity].
Qed.

Lemma write_integer_bad (v : Z) (file : wfile) :
  ~ 0 <= v < 2 ^ 32 -> write_integer v file = (file, Raise OverflowError).
Proof.
  intros Hv. unfold write_integer, to_bytes4, bind, lift_result.
  replace ((0 <=? v) && (v <? 2 ^ 32)) with false; [reflexivity|].
  symmetry. apply andb_false_iff.
  destruct (Z.leb_spec 0 v); [right; apply Z.ltb_ge; lia | left; reflexivity].
Qed.

(** X7. A texture with a layer ID from 1 to 255 and an ASCII filename is
    written as the layer byte followed by the length-prefixed filename, and
    [Texture.parse], on any texture object, reads exactly that texture back
    from these bytes. *)
Theorem X7_texture_round_trip (layer : Z) (filename : string) :
  1 <= layer <= 255 -> ascii_string filename -> str_len filename < 2 ^ 32 ->
  (forall file : wfile,
      Texture.write (Texture.mk layer filename, file) =
        ((Texture.mk layer filename,
          file ++ byte_at layer 0 :: wire_string filename), Ok tt)) /\
  (forall (self : Texture.t) (rest : rfile),
      Texture.parse (self, byte_at layer 0 :: wire_string filename ++ rest) =
        ((Texture.mk layer filename, rest), Ok tt)).
Proof.
  intros Hl Ha Hlen. split.
  - intros file. unfold Texture.write. rewrite get_self_bind.
    cbn [Texture.layer_ID Texture.filename].
    destruct (Z.eqb_spec layer 0) as [E|_]; [lia|].
    rewrite (on_file_w _ [byte_at layer 0])
      by (intros; apply write_byte_ok; lia).
    rewrite (on_file_w_last _ (wire_string filename))
      by (intros; apply write_string_ok; assumption).
    rewrite <- app_assoc. reflexivity.
  - intros [l0 f0] rest. unfold Texture.parse.
    erewrite bind_ok by (apply on_file_ok, read_byte_cons).
    rewrite on_self_bind, get_self_bind.
    cbv [Texture.set_layer_ID Texture.set_filename].
    cbn [Texture.layer_ID Texture.filename].
    rewrite byte_at_val by lia.
    destruct (Z.eqb_spec layer 0) as [E|_]; [lia|].
    erewrite bind_ok.
    2:{ apply on_file_ok. unfold wire_string. rewrite <- app_assoc.
        apply read_string_written; assumption. }
    reflexivity.
Qed.

Lemma X7_witness :
  (forall file : wfile,
      Texture.write (Texture.mk 2 "a.png", file) =
        ((Texture.mk 2 "a.png", file ++ byte_at 2 0 :: wire_string "a.png"),
         Ok tt)) /\
  (forall (self : Texture.t) (rest : rfile),
      Texture.parse (self, byte_at 2 0 :: wire_string "a.png" ++ rest) =
        ((Texture.mk 2 "a.png", rest), Ok tt)).
Proof.
  apply (X7_texture_round_trip 2 "a.png"); [lia | reflexivity | reflexivity].
Defined.

(** X8. How [Texture.write] fails.  A layer ID outside 0..255 raises
    [struct.error] before anything is written.  With a layer ID from 1 to
    255 and a filename that is not ASCII, the layer byte and the four
    length bytes of the filename are in the file when [UnicodeEncodeError]
    is raised.  The texture object is unchanged in both cases. *)
Theorem X8_texture_write_errors (layer : Z) (filename : string) (file : wfile) :
  (~ 0 <= layer <= 255 ->
   Texture.write (Texture.mk layer filename, file) =
     ((Texture.mk layer filename, file), Raise StructError)) /\
  (1 <= layer <= 255 -> str_len filename < 2 ^ 32 ->
   forallb is_ascii_char (list_ascii_of_string filename) = false ->
   Texture.write (Texture.mk layer filename, file) =
     ((Texture.mk layer filename,
       file ++ byte_at layer 0 :: le_bytes4 (str_len filename)),
      Raise UnicodeEncodeError)).
Proof.
  split.
  - intros Hl. unfold Texture.write. rewrite get_self_bind.
    cbn [Texture.layer_ID Texture.filename].
    destruct (Z.eqb_spec layer 0) as [E|_]; [lia|].
    unfold bind, on_file. rewrite write_byte_bad by lia. reflexivity.
  - intros Hl Hlen Hbad. unfold Texture.write. rewrite get_self_bind.
    cbn [Texture.layer_ID Texture.filename].
    destruct (Z.eqb_spec layer 0) as [E|_]; [lia|].
    rewrite (on_file_w _ [byte_at layer 0])
      by (intros; apply write_byte_ok; lia).
    unfold on_file.
    rewrite write_string_not_ascii by assumption.
    rewrite <- app_assoc. reflexivity.
Qed.

Lemma X8_witness :
  Texture.write (Texture.mk 256 "a.png", []) =
    ((Texture.mk 256 "a.png", []), Raise StructError) /\
  Texture.write (Texture.mk 1 (String (ascii_of_nat 233) ""), []) =
    ((Texture.mk 1 (String (ascii_of_nat 233) ""),
      [x01; x01; x00; x00; x00]), Raise UnicodeEncodeError).
Proof.
  split.
  - apply (proj1 (X8_texture_write_errors 256 "a.png" [])). lia.
  - apply (proj2 (X8_texture_write_errors 1 (String (ascii_of_nat 233) "") []));
      [lia | reflexivity | reflexivity].
Defined.





(** ** Angles as text *)

Lemma little_double_digits (d : Decimal.uint) :
  (Decimal.nb_digits (Decimal.Little.double d) <= S (Decimal.nb_digits d))%nat /\
  (Decimal.nb_digits (Decimal.Little.succ_double d) <= S (Decimal.nb_digits d))%nat.
Proof. induction d; cbn; lia. Qed.

Lemma to_uint_digits (p : positive) :
  (Decimal.nb_digits (Pos.to_uint p) <= Pos.to_nat (Pos.size p))%nat.
Proof.
  unfold Pos.to_uint. rewrite DecimalFacts.nb_digits_rev.
  induction p as [p IH|p IH|]; cbn [Pos.to_little_uint Pos.size].
  - pose proof (proj2 (little_double_digits (Pos.to_little_uint p))). lia.
  - pose proof (proj1 (little_double_digits (Pos.to_little_uint p))). lia.
  - cbn. lia.
Qed.

(** An integer below [2^k] in absolute value takes at most [k + 1]
    characters. *)
Lemma py_str_length (n k : Z) :
  0 <= k -> Z.abs n < 2 ^ k -> str_len (py_str n) <= k + 1.
Proof.
  intros Hk Hn. unfold str_len.
  pose proof (py_str_cases n) as E. destruct n as [|p|p]; rewrite E.
  - cbn. lia.
  - rewrite uint_string_length. pose proof (to_uint_digits p).
    pose proof (digits2_le p k Hk Hn) as Hd. rewrite digits2_pos_size in Hd. lia.
  - cbn [String.length]. rewrite uint_string_length.
    pose proof (to_uint_digits p).
    pose proof (digits2_le p k Hk Hn) as Hd. rewrite digits2_pos_size in Hd. lia.
Qed.

Lemma round_half_even_bound (m : positive) (e : Z) :
  bounded prec64 emax64 m e = true ->
  0 <= round_half_even m e < 2 ^ 1024.
Proof.
  unfold bounded, canonical_mantissa, fexp, emin, prec64, emax64. intros H.
  apply andb_true_iff in H. destruct H as [Hc He].
  apply Z.eqb_eq in Hc. apply Z.leb_le in He.
  pose proof (digits2_bounds m) as [_ Hhi].
  assert (Hd : Z.pos (digits2_pos m) <= 53) by lia.
  assert (Hm : Z.pos m < 2 ^ 53).
  { eapply Z.lt_le_trans; [exact Hhi|]. apply Z.pow_le_mono_r; lia. }
  unfold round_half_even. destruct (Z.leb_spec 0 e) as [H0|H0].
  - split; [apply Z.mul_nonneg_nonneg; [lia | apply Z.pow_nonneg; lia]|].
    apply Z.lt_le_trans with (2 ^ 53 * 2 ^ e).
    + apply Z.mul_lt_mono_pos_r; [apply Z.pow_pos_nonneg; lia | exact Hm].
    + rewrite <- Z.pow_add_r by lia. apply Z.pow_le_mono_r; lia.
  - assert (Hpos : 0 < 2 ^ (- e)) by (apply Z.pow_pos_nonneg; lia).
    pose proof (Z.div_pos (Z.pos m) (2 ^ (- e)) ltac:(lia) Hpos) as Hq0.
    assert (Hq : Z.pos m / 2 ^ (- e) <= Z.pos m)
      by (apply Z.div_le_upper_bound; nia).
    assert (Hbig : 2 ^ 53 + 1 < 2 ^ 1024).
    { apply Z.lt_le_trans with (2 ^ 54); [reflexivity|].
      apply Z.pow_le_mono_r; lia. }
    destruct (2 * (Z.pos m mod 2 ^ (- e)) ?= 2 ^ (- e));
      [destruct (Z.even _)| |]; lia.
Qed.

Lemma py_round_finite (x : spec_float) :
  finite64 x -> exists n, py_round (PyFloat x) = Ok n /\ Z.abs n < 2 ^ 1024.
Proof.
  destruct x as [s|s| |s m e]; cbn [finite64]; try contradiction; intros H.
  - exists 0. split; [reflexivity|]. apply Z.pow_pos_nonneg; lia.
  - exists (cond_Zopp s (round_half_even m e)). split; [reflexivity|].
    pose proof (round_half_even_bound m e H).
    destruct s; cbn [cond_Zopp]; lia.
Qed.

(** X11. [Angle.write_as_string] succeeds on every angle whose pitch, yaw
    and roll are floats that are neither NaN nor infinite: the three rounded
    integers are below 2^1024, so the text is always short enough for
    [write_string].  It writes the length-prefixed text of the rounded
    integers and leaves the angle as it is. *)
Theorem X11_angle_text_finite (p y r : spec_float) (file : wfile) :
  finite64 p -> finite64 y -> finite64 r ->
  exists vp vy vr,
    py_round (PyFloat p) = Ok vp /\
    py_round (PyFloat y) = Ok vy /\
    py_round (PyFloat r) = Ok vr /\
    Angle.write_as_string (Angle.mk (PyFloat p) (PyFloat y) (PyFloat r), file) =
      ((Angle.mk (PyFloat p) (PyFloat y) (PyFloat r),
        file ++ wire_string (py_str vp ++ " " ++ py_str vy ++ " " ++ py_str vr)),
       Ok tt).
Proof.
  intros Hp Hy Hr.
  destruct (py_round_finite p Hp) as [vp [Ep Bp]].
  destruct (py_round_finite y Hy) as [vy [Ey By]].
  destruct (py_round_finite r Hr) as [vr [Er Br]].
  exists vp, vy, vr. repeat split; try assumption.
  unfold Angle.write_as_string. rewrite get_self_bind.
  cbn [Angle.pitch Angle.yaw Angle.roll].
  unfold bind at 1, lift_result at 1. rewrite Ep.
  unfold bind at 1, lift_result at 1. rewrite Ey.
  unfold bind at 1, lift_result at 1. rewrite Er.
  apply on_file_ok.
  destruct (three_ints_text vp vy vr) as [Ha _].
  apply write_string_ok; [exact Ha|].
  pose proof (py_str_length vp 1024 ltac:(lia) Bp).
  pose proof (py_str_length vy 1024 ltac:(lia) By).
  pose proof (py_str_length vr 1024 ltac:(lia) Br).
  unfold str_len in *. rewrite !string_length_app. cbn [String.length].
  assert (3100 < 2 ^ 32) by reflexivity. lia.
Qed.

Lemma X11_witness :
  exists vp vy vr,
    py_round (PyFloat (f64 89 (-1))) = Ok vp /\
    py_round (PyFloat (S754_zero false)) = Ok vy /\
    py_round (PyFloat (f64 (-3) 0)) = Ok vr /\
    Angle.write_as_string
      (Angle.mk (PyFloat (f64 89 (-1))) (PyFloat (S754_zero false))
                (PyFloat (f64 (-3) 0)), []) =
      ((Angle.mk (PyFloat (f64 89 (-1))) (PyFloat (S754_zero false))
                 (PyFloat (f64 (-3) 0)),
        [] ++ wire_string (py_str vp ++ " " ++ py_str vy ++ " " ++ py_str vr)),
       Ok tt).
Proof.
  apply (X11_angle_text_finite (f64 89 (-1)) (S754_zero false) (f64 (-3) 0) []);
    vm_compute; reflexivity.
Defined.

Lemma py_round_raises (v : pynum) (e : exn) :
  py_round v = Raise e -> e = ValueError \/ e = OverflowError.
Proof.
  destruct v as [n|[s|s| |s m ex]]; cbn; intros H; inversion H; auto.
Qed.

(** X12. [Angle.write_as_string] rounds the three components before it
    writes anything: if one of them is a NaN or an infinity, the method
    raises [ValueError] or [OverflowError] (those of the builtin [round]),
    the file is untouched and the angle unchanged. *)
Theorem X12_angle_text_errors (a : Angle.t) (file : wfile) :
  (exists v,
      (v = Angle.pitch a \/ v = Angle.yaw a \/ v = Angle.roll a) /\
      (v = PyFloat S754_nan \/ exists s, v = PyFloat (S754_infinity s))) ->
  exists e,
    (e = ValueError \/ e = OverflowError) /\
    Angle.write_as_string (a, file) = ((a, file), Raise e).
Proof.
  intros [v [Hv Hbad]].
  assert (Hr : exists e, py_round v = Raise e).
  { destruct Hbad as [-> | [s ->]]; eexists; reflexivity. }
  destruct Hr as [e0 Hr].
  unfold Angle.write_as_string. rewrite get_self_bind.
  unfold bind, lift_result.
  destruct (py_round (Angle.pitch a)) as [vp|e] eqn:Ep.
  2:{ exists e. split; [eapply py_round_raises; exact Ep | reflexivity]. }
  destruct (py_round (Angle.yaw a)) as [vy|e] eqn:Ey.
  2:{ exists e. split; [eapply py_round_raises; exact Ey | reflexivity]. }
  destruct (py_round (Angle.roll a)) as [vr|e] eqn:Er.
  2:{ exists e. split; [eapply py_round_raises; exact Er | reflexivity]. }
  destruct Hv as [-> | [-> | ->]]; congruence.
Qed.

Lemma X12_witness :
  exists e,
    (e = ValueError \/ e = OverflowError) /\
    Angle.write_as_string
      (Angle.mk (PyInt 1) (PyFloat S754_nan) (PyInt 0), [x01]) =
      ((Angle.mk (PyInt 1) (PyFloat S754_nan) (PyInt 0), [x01]), Raise e).
Proof.
  apply (X12_angle_text_errors
           (Angle.mk (PyInt 1) (PyFloat S754_nan) (PyInt 0)) [x01]).
  exists (PyFloat S754_nan). split; [right; left; reflexivity | left; reflexivity].
Defined.

(** ** Records of a fixed size *)

(** A step of a method that consumes [size] bytes, or fails at the end of
    the file. *)
Lemma fixed_step {S A} (size1 size2 : nat) (m : M (S * rfile) A)
    (k : A -> M (S * rfile) unit) :
  (forall (self : S) (file : rfile),
      ((size1 <= List.length file)%nat ->
       exists self1 a, m (self, file) = ((self1, skipn size1 file), Ok a)) /\
      ((List.length file < size1)%nat ->
       exists self1, m (self, file) = ((self1, []), Raise EOFError))) ->
  (forall a, fixed_size size2 (k a)) ->
  fixed_size (size1 + size2) (bind m k).
Proof.
  intros Hm Hk self file. split; intros Hlen.
  - destruct (proj1 (Hm self file) ltac:(lia)) as [s1 [a E]].
    unfold bind. rewrite E.
    destruct (proj1 (Hk a s1 (skipn size1 file))
                ltac:(rewrite length_skipn; lia)) as [s2 E2].
    exists s2.
    replace (skipn (size1 + size2) file) with (skipn size2 (skipn size1 file))
      by (rewrite skipn_skipn; f_equal; lia).
    exact E2.
  - unfold bind.
    destruct (Nat.lt_ge_cases (List.length file) size1) as [Hlt|Hge].
    + destruct (proj2 (Hm self file) Hlt) as [s1 E]. rewrite E. eauto.
    + destruct (proj1 (Hm self file) Hge) as [s1 [a E]]. rewrite E.
      apply (proj2 (Hk a s1 (skipn size1 file))).
      rewrite length_skipn. lia.
Qed.

Lemma fixed_on_self {S} (f : S -> S) : fixed_size 0 (on_self (F := rfile) f).
Proof.
  intros self file. split; intros H; [|lia].
  exists (f self). reflexivity.
Qed.

Lemma fixed_reader {S A} (size : nat) (rd : M rfile A) :
  (forall file : rfile,
      ((size <= List.length file)%nat ->
       exists a, rd file = (skipn size file, Ok a)) /\
      ((List.length file < size)%nat -> rd file = ([], Raise EOFError))) ->
  forall (self : S) (file : rfile),
    ((size <= List.length file)%nat ->
     exists self1 a, on_file rd (self, file) = ((self1, skipn size file), Ok a)) /\
    ((List.length file < size)%nat ->
     exists self1, on_file rd (self, file) = ((self1, []), Raise EOFError)).
Proof.
  intros Hrd self file. unfold on_file. split; intros H.
  - destruct (proj1 (Hrd file) H) as [a E]. rewrite E. eauto.
  - rewrite (proj2 (Hrd file) H). eauto.
Qed.

Lemma fixed_on_attr {S X} (size : nat) (get : S -> X) set
    (m : M (X * rfile) unit) :
  fixed_size size m ->
  forall (self : S) (file : rfile),
    ((size <= List.length file)%nat ->
     exists self1 a,
       on_attr get set m (self, file) = ((self1, skipn size file), Ok a)) /\
    ((List.length file < size)%nat ->
     exists self1, on_attr get set m (self, file) = ((self1, []), Raise EOFError)).
Proof.
  intros Hm self file. unfold on_attr. split; intros H.
  - destruct (proj1 (Hm (get self) file) H) as [x E]. rewrite E. eauto.
  - destruct (proj2 (Hm (get self) file) H) as [x E]. rewrite E. eauto.
Qed.

Lemma fixed_last {S X} (size : nat) (get : S -> X) set
    (m : M (X * rfile) unit) :
  fixed_size size m -> fixed_size size (on_attr (S := S) get set m).
Proof.
  intros Hm self file. unfold on_attr. split; intros H.
  - destruct (proj1 (Hm (get self) file) H) as [x E]. rewrite E. eauto.
  - destruct (proj2 (Hm (get self) file) H) as [x E]. rewrite E. eauto.
Qed.

Lemma read_byte_sized (file : rfile) :
  ((1 <= List.length file)%nat -> exists a, read_byte file = (skipn 1 file, Ok a)) /\
  ((List.length file < 1)%nat -> read_byte file = ([], Raise EOFError)).
Proof.
  destruct file as [|b rest]; cbn [List.length]; split; intros H; try lia.
  - reflexivity.
  - eexists. apply read_byte_cons.
Qed.

Lemma read_integer_sized (file : rfile) :
  ((4 <= List.length file)%nat ->
   exists a, read_integer file = (skipn 4 file, Ok a)) /\
  ((List.length file < 4)%nat -> read_integer file = ([], Raise EOFError)).
Proof.
  destruct file as [|b0 [|b1 [|b2 [|b3 rest]]]]; cbn [List.length];
    split; intros H; try lia; try reflexivity.
  eexists. apply read_integer_cons.
Qed.

Lemma read_float_sized (file : rfile) :
  ((4 <= List.length file)%nat ->
   exists a, read_float file = (skipn 4 file, Ok a)) /\
  ((List.length file < 4)%nat -> read_float file = ([], Raise EOFError)).
Proof.
  destruct file as [|b0 [|b1 [|b2 [|b3 rest]]]]; cbn [List.length];
    split; intros H; try lia; try reflexivity.
  eexists. apply read_float_cons.
Qed.

Ltac fixed_steps :=
  repeat first
    [ apply fixed_on_self
    | apply (fixed_step 4 _ _ _ (fixed_reader 4 read_float read_float_sized));
      intros ?
    | apply (fixed_step 4 _ _ _ (fixed_reader 4 read_integer read_integer_sized));
      intros ?
    | apply (fixed_step 1 _ _ _ (fixed_reader 1 read_byte read_byte_sized));
      intros ? ].

Lemma Coordinate3_fixed : fixed_size 12 Coordinate3.parse.
Proof. unfold Coordinate3.parse. change 12%nat with (4 + (4 + (4 + 0)))%nat. fixed_steps. Qed.

Lemma UV_fixed : fixed_size 8 UV.parse.
Proof. unfold UV.parse. change 8%nat with (4 + (4 + 0))%nat. fixed_steps. Qed.

Lemma Color_bytes_fixed : fixed_size 3 Color.parse_as_bytes.
Proof.
  unfold Color.parse_as_bytes. change 3%nat with (1 + (1 + (1 + 0)))%nat.
  fixed_steps.
Qed.

Lemma Triangle_fixed : fixed_size 12 Triangle.parse.
Proof. unfold Triangle.parse. change 12%nat with (4 + (4 + (4 + 0)))%nat. fixed_steps. Qed.

Lemma Vertex_fixed : fixed_size 31 Vertex.parse.
Proof.
  unfold Vertex.parse. change 31%nat with (12 + (8 + (8 + 3)))%nat.
  apply fixed_step; [apply fixed_on_attr, Coordinate3_fixed | intros _].
  apply fixed_step; [apply fixed_on_attr, UV_fixed | intros _].
  apply fixed_step; [apply fixed_on_attr, UV_fixed | intros _].
  apply fixed_last, Color_bytes_fixed.
Qed.

(** X13. The geometry records have a fixed size.  [Vertex.parse] takes 31
    bytes (a position of 12, two UV pairs of 8, a colour of 3) and
    [Triangle.parse] and [Coordinate3.parse] take 12: with that many bytes
    left they always return, whatever the bytes are, having consumed
    exactly that many; with fewer they raise [EOFError] and the file is at
    its end. *)
Theorem X13_geometry_fixed_size :
  fixed_size 31 Vertex.parse /\
  fixed_size 12 Triangle.parse /\
  fixed_size 12 Coordinate3.parse.
Proof.
  split; [apply Vertex_fixed | split; [apply Triangle_fixed | apply Coordinate3_fixed]].
Qed.

(** ** Objects *)

(** X14. [Object.parse] always reads exactly two textures and appends them
    to those the object holds.  So an object that comes out of
    [Object.parse] has at least two textures, and the padding loop of
    [Object.write] leaves its texture list as it is. *)
Theorem X14_parsed_object_not_padded (self o : Object.t) (file file1 : rfile) :
  Object.parse (self, file) = ((o, file1), Ok tt) ->
  (exists t1 t2, Object.textures o = Object.textures self ++ [t1; t2]) /\
  Object.ensure_textures (Object.textures o) = Object.textures o.
Proof.
  unfold Object.parse. intros H.
  inv_step H. apply append_each_inv in Hx. destruct Hx as [texs [-> [Ltex _]]].
  inv_step H. inv_step H. inv_step H.
  apply on_attr_inv in H. destruct H as [x1 [_ ->]].
  cbv [Object.set_textures Object.set_vertices Object.set_triangles].
  cbn [Object.textures Object.vertices Object.triangles].
  destruct texs as [|t1 [|t2 [|t3 texs]]]; try discriminate.
  split; [eauto|].
  unfold Object.ensure_textures. cbn [Object.ensure_textures_loop].
  replace (len (Object.textures self ++ [t1; t2]) <? 2) with false;
    [reflexivity|].
  symmetry. apply Z.ltb_ge. unfold len. rewrite length_app.
  cbn [List.length]. lia.
Qed.

Lemma X14_witness :
  (exists t1 t2,
      Object.textures
        (Object.mk [Texture.mk 0 ""; Texture.mk 1 "a"] [] []) =
      Object.textures Object.init ++ [t1; t2]) /\
  Object.ensure_textures
    (Object.textures (Object.mk [Texture.mk 0 ""; Texture.mk 1 "a"] [] [])) =
  Object.textures (Object.mk [Texture.mk 0 ""; Texture.mk 1 "a"] [] []).
Proof.
  apply (X14_parsed_object_not_padded Object.init
           (Object.mk [Texture.mk 0 ""; Texture.mk 1 "a"] [] [])
           ([x00; x01; x01; x00; x00; x00; x61] ++ le_bytes4 0 ++ le_bytes4 0 ++ [xff])
           [xff]).
  vm_compute. reflexivity.
Defined.

(** ** What [write] does to the document *)

Lemma bind_inv_any {S A B} (m : M S A) (k : A -> M S B) s s2 r :
  bind m k s = (s2, r) ->
  (exists e, m s = (s2, Raise e) /\ r = Raise e) \/
  (exists s1 a, m s = (s1, Ok a) /\ k a s1 = (s2, r)).
Proof.
  unfold bind. destruct (m s) as [s1 [a|e]]; intros H.
  - right. eauto.
  - left. inversion H. eauto.
Qed.

Lemma keeps_bind {S F A B} (m : M (S * F) A) (k : A -> M (S * F) B) :
  keeps_self m -> (forall a, keeps_self (k a)) -> keeps_self (bind m k).
Proof.
  intros Hm Hk self file self1 file1 r H.
  apply bind_inv_any in H. destruct H as [[e [H _]] | [[s1 f1] [a [H1 H2]]]].
  - eapply Hm, H.
  - apply Hm in H1. subst s1. eapply Hk, H2.
Qed.

Lemma keeps_get_self {S F} : keeps_self (@get_self S F).
Proof. intros self file self1 file1 r H. inversion H. reflexivity. Qed.

Lemma keeps_on_file {S F A} (m : M F A) : keeps_self (on_file (S := S) m).
Proof.
  intros self file self1 file1 r H. apply on_file_inv in H. tauto.
Qed.

Lemma keeps_lift_result {S F A} (r : result A) :
  keeps_self (lift_result (S := S * F) r).
Proof. intros self file self1 file1 r' H. inversion H. reflexivity. Qed.

Lemma keeps_ret {S F A} (a : A) : keeps_self (ret (S := S * F) a).
Proof. intros self file self1 file1 r' H. inversion H. reflexivity. Qed.

Lemma keeps_on_attr {S X F A} (get : S -> X) set (m : M (X * F) A) :
  (forall self, set (get self) self = self) ->
  keeps_self m -> keeps_self (on_attr get set m).
Proof.
  intros Heta Hm self file self1 file1 r H.
  apply on_attr_inv in H. destruct H as [x1 [H ->]].
  apply Hm in H. subst x1. apply Heta.
Qed.

Lemma for_each_from_maps {X F} (w : M (X * F) unit) (g : X -> X) :
  (forall x f x1 f1 r, w (x, f) = ((x1, f1), r) -> x1 = g x) ->
  forall todo done file l file1,
    for_each_from w done todo file = ((l, file1), Ok tt) ->
    l = done ++ map g todo.
Proof.
  intros Hw. induction todo as [|item todo IH]; intros done file l file1 H.
  - inversion H. rewrite app_nil_r. reflexivity.
  - cbn [for_each_from] in H.
    destruct (w (item, file)) as [[item1 f1] [[]|e]] eqn:E; [|discriminate].
    apply Hw in E. subst item1. apply IH in H. rewrite H, <- app_assoc.
    reflexivity.
Qed.

Lemma keeps_for_each {X F} (w : M (X * F) unit) :
  keeps_self w -> keeps_self (for_each w).
Proof.
  intros Hw xs file l file1 r. unfold for_each.
  assert (G : forall todo done f,
             for_each_from w done todo f = ((l, file1), r) -> l = done ++ todo).
  { induction todo as [|item todo IH]; intros done f H.
    - inversion H. rewrite app_nil_r. reflexivity.
    - cbn [for_each_from] in H.
      destruct (w (item, f)) as [[item1 f1] [[]|e]] eqn:E.
      + apply Hw in E. subst item1. apply IH in H. rewrite H, <- app_assoc.
        reflexivity.
      + apply Hw in E. subst item1. inversion H. reflexivity. }
  intros H. apply (G xs [] file H).
Qed.

Ltac keeps :=
  repeat first
    [ assumption
    | apply keeps_get_self
    | apply keeps_on_file
    | apply keeps_lift_result
    | apply keeps_ret
    | apply keeps_for_each
    | apply keeps_on_attr; [intros []; reflexivity|]
    | apply keeps_bind; [|intros ?]
    | match goal with
      | |- keeps_self (if ?c then _ else _) => destruct c
      end ].

Lemma Texture_write_keeps : keeps_self Texture.write.
Proof. unfold Texture.write. keeps. Qed.

Lemma Coordinate3_write_keeps : keeps_self Coordinate3.write.
Proof. unfold Coordinate3.write. keeps. Qed.

Lemma UV_write_keeps : keeps_self UV.write.
Proof. unfold UV.write. keeps. Qed.

Lemma Color_write_as_bytes_keeps : keeps_self Color.write_as_bytes.
Proof. unfold Color.write_as_bytes. keeps. Qed.

Lemma Color_write_as_string_keeps : keeps_self Color.write_as_string.
Proof. unfold Color.write_as_string. keeps. Qed.

Lemma Angle_write_as_bytes_keeps : keeps_self Angle.write_as_bytes.
Proof. unfold Angle.write_as_bytes. keeps. Qed.

Lemma Angle_write_as_string_keeps : keeps_self Angle.write_as_string.
Proof. unfold Angle.write_as_string. keeps. Qed.

Lemma Scale_write_keeps : keeps_self Scale.write.
Proof. unfold Scale.write. keeps. Qed.

Lemma Triangle_write_keeps : keeps_self Triangle.write.
Proof. unfold Triangle.write. keeps. Qed.

Lemma Vertex_write_keeps : keeps_self Vertex.write.
Proof.
  pose proof Coordinate3_write_keeps. pose proof UV_write_keeps.
  pose proof Color_write_as_bytes_keeps.
  unfold Vertex.write. keeps.
Qed.

Lemma Collision_write_keeps : keeps_self Collision.write.
Proof.
  pose proof Coordinate3_write_keeps. pose proof Triangle_write_keeps.
  unfold Collision.write. keeps.
Qed.

Lemma TriggerBox_write_keeps : keeps_self TriggerBox.write.
Proof.
  pose proof Collision_write_keeps. unfold TriggerBox.write. keeps.
Qed.

Lemma as_point_keeps {X} (wrap : X -> Point.t) (w : M (X * wfile) unit)
    (p : X) (file : wfile) (q : Point.t) (file1 : wfile) (r : result unit) :
  keeps_self w -> Point.as_point wrap w p file = ((q, file1), r) -> q = wrap p.
Proof.
  intros Hw. unfold Point.as_point.
  destruct (w (p, file)) as [[p1 f1] r1] eqn:E. apply Hw in E. subst p1.
  intros H. inversion H. reflexivity.
Qed.

Lemma Point_write_keeps : keeps_self Point.write.
Proof.
  pose proof Coordinate3_write_keeps. pose proof Color_write_as_string_keeps.
  pose proof Angle_write_as_string_keeps. pose proof Angle_write_as_bytes_keeps.
  pose proof Scale_write_keeps.
  intros [p|p|p|p|p|p|p] file q file1 r; unfold Point.write;
    apply as_point_keeps.
  - unfold Screen.write. keeps.
  - unfold Waypoint.write. keeps.
  - unfold Light.write. keeps.
  - unfold Spotlight.write. keeps.
  - unfold SoundEmitter.write. keeps.
  - unfold PlayerStart.write. keeps.
  - unfold Model.write. keeps.
Qed.

Lemma Object_write_pads (o o1 : Object.t) (file file1 : wfile) (r : result unit) :
  Object.write (o, file) = ((o1, file1), r) -> o1 = padded o.
Proof.
  pose proof Texture_write_keeps. pose proof Vertex_write_keeps.
  pose proof Triangle_write_keeps.
  unfold Object.write. rewrite on_self_bind. fold (padded o).
  revert file1 r. generalize (padded o). intros o' file1 r.
  match goal with
  | |- ?m (_, _) = _ -> _ => assert (K : keeps_self m) by keeps
  end.
  apply K.
Qed.

Lemma write_objects_pads (d d1 : RoomMesh.t) (file file1 : wfile)
    (r : result unit) :
  RoomMesh.write_objects (d, file) = ((d1, file1), r) ->
  RoomMesh.signature d1 = RoomMesh.signature d /\
  RoomMesh.collisions d1 = RoomMesh.collisions d /\
  RoomMesh.triggers d1 = RoomMesh.triggers d /\
  RoomMesh.points d1 = RoomMesh.points d /\
  (r = Ok tt -> RoomMesh.objects d1 = map padded (RoomMesh.objects d)).
Proof.
  unfold RoomMesh.write_objects. rewrite get_self_bind. intros H.
  apply bind_inv_any in H. destruct H as [[e [H ->]] | [[s1 f1] [[] [H1 H2]]]].
  - apply keeps_on_file in H. subst d1. repeat split. discriminate.
  - apply keeps_on_file in H1. subst s1.
    apply on_attr_inv in H2. destruct H2 as [objs [H2 ->]].
    repeat split. intros ->. cbn [RoomMesh.set_objects RoomMesh.objects].
    unfold for_each in H2.
    apply (for_each_from_maps _ padded
             (fun x f x1 f2 r' => Object_write_pads x x1 f f2 r')) in H2.
    exact H2.
Qed.

Lemma RoomMesh_write_frame (d d1 : RoomMesh.t) (file file1 : wfile)
    (r : result unit) :
  RoomMesh.write (d, file) = ((d1, file1), r) ->
  RoomMesh.signature d1 = RoomMesh.signature d /\
  RoomMesh.collisions d1 = RoomMesh.collisions d /\
  RoomMesh.triggers d1 = RoomMesh.triggers d /\
  RoomMesh.points d1 = RoomMesh.points d /\
  (r = Ok tt -> RoomMesh.objects d1 = map padded (RoomMesh.objects d)).
Proof.
  pose proof Collision_write_keeps as KC.
  pose proof TriggerBox_write_keeps as KT.
  pose proof Point_write_keeps as KP.
  unfold RoomMesh.write. intros H.
  apply bind_inv_any in H. destruct H as [[e [H ->]] | [[s1 f1] [[] [H1 H]]]].
  { assert (K : keeps_self RoomMesh.write_signature)
      by (unfold RoomMesh.write_signature; keeps).
    apply K in H. subst d1. repeat split. discriminate. }
  assert (K1 : keeps_self RoomMesh.write_signature)
    by (unfold RoomMesh.write_signature; keeps).
  apply K1 in H1. subst s1.
  apply bind_inv_any in H. destruct H as [[e [H ->]] | [[s2 f2] [[] [H2 H]]]].
  { apply write_objects_pads in H. destruct H as [? [? [? [? _]]]].
    repeat split; try assumption. discriminate. }
  apply write_objects_pads in H2. destruct H2 as [S2 [C2 [T2 [P2 O2]]]].
  match type of H with
  | ?m (_, _) = _ => assert (K : keeps_self m)
  end.
  { unfold RoomMesh.write_collisions, RoomMesh.write_trigger_boxes,
      RoomMesh.write_points, RoomMesh.write_EOF. keeps. }
  apply K in H. subst d1. repeat split; try assumption.
  intros _. apply O2. reflexivity.
Qed.


(** X15. [RoomMesh.write] does not change the document, except for the
    texture padding of [Object.write].  Whether it returns or raises, the
    signature, the collisions, the trigger boxes and the points are what
    they were; when it returns, every object is what it was with its
    texture list padded to two entries, and so is unchanged if it had two
    textures or more. *)
Theorem X15_write_keeps_document (d d1 : RoomMesh.t) (file file1 : wfile)
    (r : result unit) :
  RoomMesh.write (d, file) = ((d1, file1), r) ->
  RoomMesh.signature d1 = RoomMesh.signature d /\
  RoomMesh.collisions d1 = RoomMesh.collisions d /\
  RoomMesh.triggers d1 = RoomMesh.triggers d /\
  RoomMesh.points d1 = RoomMesh.points d /\
  (r = Ok tt -> RoomMesh.objects d1 = map padded (RoomMesh.objects d)).
Proof. apply RoomMesh_write_frame. Qed.

Lemma X15_witness :
  RoomMesh.signature
    (RoomMesh.mk "RoomMesh"
       [Object.mk [Texture.mk 1 ""; Texture.mk 1 "a"] [] []] [] [] []) =
  RoomMesh.signature
    (RoomMesh.mk "RoomMesh" [Object.mk [Texture.mk 1 "a"] [] []] [] [] []) /\
  RoomMesh.collisions
    (RoomMesh.mk "RoomMesh"
       [Object.mk [Texture.mk 1 ""; Texture.mk 1 "a"] [] []] [] [] []) =
  RoomMesh.collisions
    (RoomMesh.mk "RoomMesh" [Object.mk [Texture.mk 1 "a"] [] []] [] [] []) /\
  RoomMesh.triggers
    (RoomMesh.mk "RoomMesh"
       [Object.mk [Texture.mk 1 ""; Texture.mk 1 "a"] [] []] [] [] []) =
  RoomMesh.triggers
    (RoomMesh.mk "RoomMesh" [Object.mk [Texture.mk 1 "a"] [] []] [] [] []) /\
  RoomMesh.points
    (RoomMesh.mk "RoomMesh"
       [Object.mk [Texture.mk 1 ""; Texture.mk 1 "a"] [] []] [] [] []) =
  RoomMesh.points
    (RoomMesh.mk "RoomMesh" [Object.mk [Texture.mk 1 "a"] [] []] [] [] []) /\
  (Ok tt = Ok tt ->
   RoomMesh.objects
    (RoomMesh.mk "RoomMesh"
       [Object.mk [Texture.mk 1 ""; Texture.mk 1 "a"] [] []] [] [] []) =
   map padded
     (RoomMesh.objects
        (RoomMesh.mk "RoomMesh" [Object.mk [Texture.mk 1 "a"] [] []] [] [] []))).
Proof.
  apply (X15_write_keeps_document
           (RoomMesh.mk "RoomMesh" [Object.mk [Texture.mk 1 "a"] [] []] [] [] [])
           _ []
           (emitted RoomMesh.write
              (RoomMesh.mk "RoomMesh" [Object.mk [Texture.mk 1 "a"] [] []] [] [] []))
           (Ok tt)).
  vm_compute. reflexivity.
Defined.

(** ** What follows the bytes that [parse] consumes *)

Lemma ignores_bind {S A B} (m : M (S * rfile) A) (k : A -> M (S * rfile) B) :
  ignores_tail m -> (forall a, ignores_tail (k a)) -> ignores_tail (bind m k).
Proof.
  intros Hm Hk self file self1 file1 b tail H.
  apply bind_ok_inv in H. destruct H as [[s1 f1] [a [H1 H2]]].
  rewrite (bind_ok _ _ _ _ _ (Hm _ _ _ _ _ tail H1)).
  apply Hk, H2.
Qed.

Lemma ignores_get_self {S} : ignores_tail (@get_self S rfile).
Proof. intros self file self1 file1 a tail H. inversion H. reflexivity. Qed.

Lemma ignores_on_self {S} (f : S -> S) : ignores_tail (on_self (F := rfile) f).
Proof. intros self file self1 file1 a tail H. inversion H. reflexivity. Qed.

Lemma ignores_ret {S A} (a : A) : ignores_tail (ret (S := S * rfile) a).
Proof. intros self file self1 file1 a' tail H. inversion H. reflexivity. Qed.

Lemma ignores_raise {S A} (e : exn) :
  ignores_tail (raise (S := S * rfile) (A := A) e).
Proof. intros self file self1 file1 a' tail H. inversion H. Qed.

Lemma ignores_lift_result {S A} (r : result A) :
  ignores_tail (lift_result (S := S * rfile) r).
Proof.
  intros self file self1 file1 a' tail H. unfold lift_result in *.
  inversion H. reflexivity.
Qed.

Lemma ignores_on_file {S A} (rd : M rfile A) :
  (forall (file file1 : rfile) a tail,
      rd file = (file1, Ok a) -> rd (file ++ tail) = (file1 ++ tail, Ok a)) ->
  ignores_tail (on_file (S := S) rd).
Proof.
  intros Hrd self file self1 file1 a tail H.
  apply on_file_inv in H. destruct H as [-> H].
  apply on_file_ok, Hrd, H.
Qed.

Lemma ignores_on_attr {S X A} (get : S -> X) set (m : M (X * rfile) A) :
  ignores_tail m -> ignores_tail (on_attr (S := S) get set m).
Proof.
  intros Hm self file self1 file1 a tail H.
  apply on_attr_inv in H. destruct H as [x1 [H ->]].
  apply on_attr_ok, Hm, H.
Qed.

Lemma read_byte_tail (file file1 : rfile) a tail :
  read_byte file = (file1, Ok a) ->
  read_byte (file ++ tail) = (file1 ++ tail, Ok a).
Proof.
  intros H. apply read_byte_inv in H. destruct H as [b [-> ->]].
  apply read_byte_cons.
Qed.

Lemma read_integer_tail (file file1 : rfile) a tail :
  read_integer file = (file1, Ok a) ->
  read_integer (file ++ tail) = (file1 ++ tail, Ok a).
Proof.
  intros H. apply read_integer_inv in H.
  destruct H as [b0 [b1 [b2 [b3 [-> ->]]]]]. apply read_integer_cons.
Qed.

Lemma read_float_tail (file file1 : rfile) a tail :
  read_float file = (file1, Ok a) ->
  read_float (file ++ tail) = (file1 ++ tail, Ok a).
Proof.
  intros H. apply read_float_inv in H.
  destruct H as [b0 [b1 [b2 [b3 [-> ->]]]]]. apply read_float_cons.
Qed.

Lemma read_string_tail (file file1 : rfile) a tail :
  read_string file = (file1, Ok a) ->
  read_string (file ++ tail) = (file1 ++ tail, Ok a).
Proof.
  intros H. destruct (read_string_inv _ _ _ H) as [Ha Hl].
  rewrite (read_string_consumed _ _ _ H). unfold wire_string.
  rewrite <- !app_assoc. apply read_string_written; assumption.
Qed.

Lemma new_tail {X} (init : X) (m : M (X * rfile) unit) :
  ignores_tail m ->
  forall (file file1 : rfile) a tail,
    new init m file = (file1, Ok a) ->
    new init m (file ++ tail) = (file1 ++ tail, Ok a).
Proof.
  intros Hm file file1 a tail H. apply new_inv in H.
  apply new_ok, Hm, H.
Qed.

Lemma ignores_append_each {X} (init : X) (m : M (X * rfile) unit) (count : nat) :
  ignores_tail m -> ignores_tail (append_each (new init m) count).
Proof.
  intros Hm. induction count as [|n IH].
  - apply ignores_ret.
  - cbn [append_each]. apply ignores_bind.
    + apply ignores_on_file, new_tail, Hm.
    + intros item. apply ignores_bind; [apply ignores_on_self | intros _; exact IH].
Qed.

Ltac ignores :=
  repeat first
    [ assumption
    | apply ignores_get_self
    | apply ignores_on_self
    | apply ignores_ret
    | apply ignores_raise
    | apply ignores_lift_result
    | apply ignores_on_file; first
        [ apply read_byte_tail | apply read_integer_tail
        | apply read_float_tail | apply read_string_tail ]
    | apply ignores_append_each
    | apply ignores_on_attr
    | apply ignores_bind; [|intros ?]
    | match goal with
      | |- ignores_tail (if ?c then _ else _) => destruct c
      | |- ignores_tail (let '(_, _) := ?p in _) => destruct p
      end ].

Lemma Texture_parse_ignores : ignores_tail Texture.parse.
Proof. unfold Texture.parse. ignores. Qed.

Lemma Coordinate3_parse_ignores : ignores_tail Coordinate3.parse.
Proof. unfold Coordinate3.parse. ignores. Qed.

Lemma UV_parse_ignores : ignores_tail UV.parse.
Proof. unfold UV.parse. ignores. Qed.

Lemma Color_parse_as_bytes_ignores : ignores_tail Color.parse_as_bytes.
Proof. unfold Color.parse_as_bytes. ignores. Qed.

Lemma Color_parse_as_string_ignores : ignores_tail Color.parse_as_string.
Proof. unfold Color.parse_as_string. ignores. Qed.

Lemma Angle_parse_as_bytes_ignores : ignores_tail Angle.parse_as_bytes.
Proof. unfold Angle.parse_as_bytes. ignores. Qed.

Lemma Angle_parse_as_string_ignores : ignores_tail Angle.parse_as_string.
Proof. unfold Angle.parse_as_string. ignores. Qed.

Lemma Scale_parse_ignores : ignores_tail Scale.parse.
Proof. unfold Scale.parse. ignores. Qed.

Lemma Triangle_parse_ignores : ignores_tail Triangle.parse.
Proof. unfold Triangle.parse. ignores. Qed.

Lemma Vertex_parse_ignores : ignores_tail Vertex.parse.
Proof.
  pose proof Coordinate3_parse_ignores. pose proof UV_parse_ignores.
  pose proof Color_parse_as_bytes_ignores.
  unfold Vertex.parse. ignores.
Qed.

Lemma Object_parse_ignores : ignores_tail Object.parse.
Proof.
  pose proof Texture_parse_ignores. pose proof Vertex_parse_ignores.
  pose proof Triangle_parse_ignores.
  unfold Object.parse. ignores.
Qed.

Lemma Collision_parse_ignores : ignores_tail Collision.parse.
Proof.
  pose proof Coordinate3_parse_ignores. pose proof Triangle_parse_ignores.
  unfold Collision.parse. ignores.
Qed.

Lemma TriggerBox_parse_ignores : ignores_tail TriggerBox.parse.
Proof.
  pose proof Collision_parse_ignores. unfold TriggerBox.parse. ignores.
Qed.

Lemma append_point_ignores {X} (wrap : X -> Point.t) (init : X)
    (m : M (X * rfile) unit) :
  ignores_tail m -> ignores_tail (RoomMesh.append_point wrap (new init m)).
Proof.
  intros Hm. unfold RoomMesh.append_point. apply ignores_bind.
  - apply ignores_on_file, new_tail, Hm.
  - intros p. apply ignores_on_self.
Qed.

Lemma match_classname_ignores (classname : string) :
  ignores_tail (RoomMesh.match_classname classname).
Proof.
  pose proof Coordinate3_parse_ignores. pose proof Color_parse_as_string_ignores.
  pose proof Angle_parse_as_string_ignores. pose proof Angle_parse_as_bytes_ignores.
  pose proof Scale_parse_ignores.
  unfold RoomMesh.match_classname.
  repeat match goal with
  | |- ignores_tail (if ?c then _ else _) =>
      destruct c; [apply append_point_ignores|]
  end.
  - unfold Screen.parse. ignores.
  - unfold Waypoint.parse. ignores.
  - unfold Light.parse. ignores.
  - unfold Spotlight.parse. ignores.
  - unfold SoundEmitter.parse. ignores.
  - unfold PlayerStart.parse. ignores.
  - unfold Model.parse. ignores.
  - apply ignores_ret.
Qed.

Lemma points_loop_ignores (count : nat) :
  ignores_tail (RoomMesh.points_loop count).
Proof.
  induction count as [|n IH]; cbn [RoomMesh.points_loop].
  - apply ignores_ret.
  - apply ignores_bind; [apply ignores_on_file, read_string_tail | intros c].
    apply ignores_bind; [apply match_classname_ignores | intros _; exact IH].
Qed.

Lemma RoomMesh_parse_ignores : ignores_tail RoomMesh.parse.
Proof.
  pose proof Object_parse_ignores. pose proof Collision_parse_ignores.
  pose proof TriggerBox_parse_ignores.
  unfold RoomMesh.parse, RoomMesh.get_signature, RoomMesh.get_objects,
    RoomMesh.get_collisions, RoomMesh.get_trigger_boxes, RoomMesh.get_points.
  repeat first
    [ apply points_loop_ignores
    | apply ignores_on_attr
    | progress ignores ].
Qed.

(** X16. [RoomMesh.parse] never looks at what follows the point section:
    when it returns on a stream, it returns the same document on that
    stream with any bytes appended, and leaves the same bytes unread,
    followed by the appended ones.  In particular it does not read the
    ["EOF"] sentinel, and does not notice if it is missing or followed by
    other data. *)
Theorem X16_parse_ignores_tail (self d : RoomMesh.t) (b rest : rfile) :
  RoomMesh.parse (self, b) = ((d, rest), Ok tt) ->
  forall tail : list byte,
    RoomMesh.parse (self, b ++ tail) = ((d, rest ++ tail), Ok tt).
Proof. intros H tail. apply RoomMesh_parse_ignores, H. Qed.

Lemma X16_witness :
  RoomMesh.parse
    (RoomMesh.init,
     (wire_string "RoomMesh" ++ le_bytes4 0 ++ le_bytes4 0 ++ le_bytes4 0) ++
     [x2a; x2a]) =
  ((RoomMesh.mk "RoomMesh" [] [] [] [], [] ++ [x2a; x2a]), Ok tt).
Proof.
  apply (X16_parse_ignores_tail RoomMesh.init (RoomMesh.mk "RoomMesh" [] [] [] [])
           (wire_string "RoomMesh" ++ le_bytes4 0 ++ le_bytes4 0 ++ le_bytes4 0)
           []).
  vm_compute. reflexivity.
Defined.

(** ** Colours between the importer and the exporter *)

Lemma byte_component_round_trip (n : Z) :
  0 <= n <= 255 ->
  exists x,
    roommesh_import.div_255 n = Ok x /\ roommesh_export.times_255 x = Ok n.
Proof.
  intros Hn.
  assert (Hall :
    forallb
      (fun k =>
         match roommesh_import.div_255 (Z.of_nat k) with
         | Ok x =>
             match roommesh_export.times_255 x with
             | Ok m => m =? Z.of_nat k
             | Raise _ => false
             end
         | Raise _ => false
         end) (seq 0 256) = true) by (vm_compute; reflexivity).
  rewrite forallb_forall in Hall.
  specialize (Hall (Z.to_nat n)).
  rewrite Z2Nat.id in Hall by lia.
  assert (Hin : In (Z.to_nat n) (seq 0 256)) by (apply in_seq; lia).
  specialize (Hall Hin).
  destruct (roommesh_import.div_255 n) as [x|e]; [|discriminate].
  exists x. split; [reflexivity|].
  destruct (roommesh_export.times_255 x) as [m|e]; [|discriminate].
  apply Z.eqb_eq in Hall. subst m. reflexivity.
Qed.

(** X17. The exporter's [normalize_color] undoes the importer's: for a
    colour with its three components in 0..255, the importer's function
    returns three floats (followed by 1.0 when [use_alpha] is set), and the
    exporter's function applied to these three floats returns the three
    integers again.  Dividing by 255.0 and multiplying by 255 loses nothing
    on any of the 256 values. *)
Theorem X17_normalize_color_round_trip (r g b : Z) :
  0 <= r <= 255 -> 0 <= g <= 255 -> 0 <= b <= 255 ->
  exists fr fg fb,
    roommesh_import.normalize_color (Color.mk r g b) false = Ok [fr; fg; fb] /\
    roommesh_import.normalize_color (Color.mk r g b) true =
      Ok [fr; fg; fb; f64 1 0] /\
    roommesh_export.normalize_color fr fg fb = Ok (r, g, b).
Proof.
  intros Hr Hg Hb.
  destruct (byte_component_round_trip r Hr) as [fr [Dr Tr]].
  destruct (byte_component_round_trip g Hg) as [fg [Dg Tg]].
  destruct (byte_component_round_trip b Hb) as [fb [Db Tb]].
  exists fr, fg, fb.
  unfold roommesh_import.normalize_color, roommesh_export.normalize_color.
  cbn [Color.r Color.g Color.b]. rewrite Dr, Dg, Db, Tr, Tg, Tb. auto.
Qed.

Lemma X17_witness :
  exists fr fg fb,
    roommesh_import.normalize_color (Color.mk 255 128 1) false = Ok [fr; fg; fb] /\
    roommesh_import.normalize_color (Color.mk 255 128 1) true =
      Ok [fr; fg; fb; f64 1 0] /\
    roommesh_export.normalize_color fr fg fb = Ok (255, 128, 1).
Proof. apply (X17_normalize_color_round_trip 255 128 1); lia. Defined.

(** *** Rounding a product *)

Lemma shr_1_spec (mrs : shr_record) :
  0 <= shr_m mrs ->
  shr_m (shr_1 mrs) = shr_m mrs / 2 /\
  shr_r (shr_1 mrs) = Z.odd (shr_m mrs) /\
  shr_s (shr_1 mrs) = (shr_r mrs || shr_s mrs)%bool.
Proof.
  destruct mrs as [m r s]. cbn [shr_m shr_r shr_s]. intros H.
  destruct m as [|[p|p|]|p]; try lia; cbn [shr_1 shr_m shr_r shr_s];
    repeat split.
  - change (Z.pos p~1) with (2 * Z.pos p + 1).
    apply Z.div_unique with (r := 1); lia.
  - change (Z.pos p~0) with (2 * Z.pos p).
    apply Z.div_unique with (r := 0); lia.
Qed.

Lemma shr_1_step (m k : Z) (mrs : shr_record) :
  0 <= k ->
  shr_m mrs = m / 2 ^ k -> 0 <= shr_m mrs ->
  ((shr_r mrs || shr_s mrs)%bool = true -> m mod 2 ^ k <> 0) ->
  shr_m (shr_1 mrs) = m / 2 ^ (k + 1) /\ 0 <= shr_m (shr_1 mrs) /\
  ((shr_r (shr_1 mrs) || shr_s (shr_1 mrs))%bool = true ->
   m mod 2 ^ (k + 1) <> 0).
Proof.
  intros Hk Hm H0 Hrs.
  destruct (shr_1_spec mrs H0) as [E1 [E2 E3]].
  assert (Hp : 0 < 2 ^ k) by (apply Z.pow_pos_nonneg; lia).
  assert (Hpow : 2 ^ (k + 1) = 2 ^ k * 2)
    by (rewrite Z.pow_add_r by lia; reflexivity).
  rewrite E1, E2, E3, Hpow. split; [|split].
  - rewrite Hm. apply Z.div_div; lia.
  - apply Z.div_pos; lia.
  - intros Hflag Hmod.
    assert (Hdiv : m = 2 ^ k * 2 * (m / (2 ^ k * 2))).
    { pose proof (Z.div_mod m (2 ^ k * 2) ltac:(lia)). lia. }
    assert (Hmk : m mod 2 ^ k = 0).
    { rewrite Hdiv. rewrite <- Z.mul_assoc, Z.mul_comm.
      apply Z.mod_mul. lia. }
    apply orb_true_iff in Hflag. destruct Hflag as [Hodd | Hold].
    + rewrite Hm in Hodd.
      assert (Hq : m / 2 ^ k = 2 * (m / (2 ^ k * 2))).
      { rewrite Hdiv at 1. rewrite <- Z.mul_assoc, Z.mul_comm.
        apply Z.div_mul. lia. }
      rewrite Hq, Z.odd_mul in Hodd. discriminate.
    + apply Hrs; assumption.
Qed.

Lemma iter_shr_1_spec (m : Z) (p : positive) :
  forall (mrs : shr_record) (k : Z),
    0 <= k ->
    shr_m mrs = m / 2 ^ k -> 0 <= shr_m mrs ->
    ((shr_r mrs || shr_s mrs)%bool = true -> m mod 2 ^ k <> 0) ->
    shr_m (iter_pos shr_1 p mrs) = m / 2 ^ (k + Z.pos p) /\
    0 <= shr_m (iter_pos shr_1 p mrs) /\
    ((shr_r (iter_pos shr_1 p mrs) || shr_s (iter_pos shr_1 p mrs))%bool = true ->
     m mod 2 ^ (k + Z.pos p) <> 0).
Proof.
  induction p as [p IH|p IH|]; intros mrs k Hk Hm H0 Hrs; cbn [iter_pos].
  - destruct (shr_1_step m k mrs Hk Hm H0 Hrs) as [A1 [A2 A3]].
    destruct (IH _ (k + 1) ltac:(lia) A1 A2 A3) as [B1 [B2 B3]].
    destruct (IH _ (k + 1 + Z.pos p) ltac:(lia) B1 B2 B3) as [C1 [C2 C3]].
    replace (k + Z.pos p~1) with (k + 1 + Z.pos p + Z.pos p) by lia. auto.
  - destruct (IH _ k Hk Hm H0 Hrs) as [B1 [B2 B3]].
    destruct (IH _ (k + Z.pos p) ltac:(lia) B1 B2 B3) as [C1 [C2 C3]].
    replace (k + Z.pos p~0) with (k + Z.pos p + Z.pos p) by lia. auto.
  - apply shr_1_step; assumption.
Qed.

(** Shifting an exact mantissa right: what is left of it, and whether
    something was lost. *)
Lemma shr_spec (m e n : Z) :
  0 <= m ->
  exists mrs,
    shr (shr_record_of_loc m loc_Exact) e n = (mrs, e + Z.max 0 n) /\
    shr_m mrs = m / 2 ^ Z.max 0 n /\
    (loc_of_shr_record mrs <> loc_Exact -> m mod 2 ^ Z.max 0 n <> 0).
Proof.
  intros Hm. cbn [shr_record_of_loc].
  destruct n as [|p|p]; cbn [shr].
  - eexists. split; [rewrite Z.add_0_r; reflexivity|].
    cbn. rewrite Z.div_1_r. split; [reflexivity | intros H; contradiction].
  - eexists. split; [reflexivity|].
    destruct (iter_shr_1_spec m p (Build_shr_record m false false) 0
                ltac:(lia) ltac:(cbn; rewrite Z.div_1_r; reflexivity)
                Hm ltac:(cbn; discriminate)) as [A1 [A2 A3]].
    replace (Z.max 0 (Z.pos p)) with (0 + Z.pos p) by lia.
    split; [exact A1|]. intros Hloc. apply A3.
    destruct (iter_pos shr_1 p _) as [m1 [|] [|]]; cbn in *;
      try reflexivity. contradiction.
  - eexists. split; [rewrite Z.add_0_r; reflexivity|].
    cbn. rewrite Z.div_1_r. split; [reflexivity | intros H; contradiction].
Qed.

Lemma round_nearest_even_bound (m : Z) (l : location) :
  m <= round_nearest_even m l <= m + 1 /\
  (round_nearest_even m l <> m -> l <> loc_Exact).
Proof.
  destruct l as [|[| |]]; cbn [round_nearest_even];
    try destruct (Z.even m); split; try lia; intros; discriminate.
Qed.

Lemma Zdigits2_le (m k : Z) : 0 <= k -> 0 <= m < 2 ^ k -> Zdigits2 m <= k.
Proof.
  intros Hk Hm. destruct m as [|p|p]; cbn [Zdigits2]; try lia.
  apply digits2_le; lia.
Qed.

(** The product of a float [M * 2^ex] that is at most 255 with nothing
    lost so far, rounded to binary64: still at most 255. *)
Lemma round_product_bound (M : positive) (ex : Z) :
  ex <= -45 ->
  Z.pos M <= 255 * 2 ^ (- ex) ->
  match binary_round_aux prec64 emax64 false (Z.pos M) ex loc_Exact with
  | S754_zero false => True
  | S754_finite false m e => e < 0 /\ Z.pos m <= 255 * 2 ^ (- e)
  | _ => False
  end.
Proof.
  intros Hex HM.
  assert (Hfexp : forall (m e : Z),
             e <= -45 -> 0 <= m <= 255 * 2 ^ (- e) ->
             fexp prec64 emax64 (Zdigits2 m + e) <= -45).
  { intros m e He Hm.
    assert (Hp : 0 < 2 ^ (- e)) by (apply Z.pow_pos_nonneg; lia).
    assert (Hlt : m < 2 ^ (8 - e)).
    { replace (8 - e) with (8 + - e) by lia. rewrite Z.pow_add_r by lia.
      change (2 ^ 8) with 256. lia. }
    pose proof (Zdigits2_le m (8 - e) ltac:(lia) ltac:(lia)).
    unfold fexp, emin, prec64, emax64. lia. }
  assert (Hsplit : forall e N, 0 <= N -> e + N <= 0 ->
             2 ^ (- e) = 2 ^ (- (e + N)) * 2 ^ N).
  { intros e N HN He. rewrite <- Z.pow_add_r by lia. f_equal. lia. }
  unfold binary_round_aux, shr_fexp.
  set (n := fexp prec64 emax64 (Zdigits2 (Z.pos M) + ex) - ex).
  destruct (shr_spec (Z.pos M) ex n ltac:(lia)) as [mrs [E [Hm Hloc]]].
  rewrite E.
  pose proof (Hfexp (Z.pos M) ex Hex ltac:(lia)) as Hf1. fold n in Hf1.
  set (N := Z.max 0 n) in *. set (e1 := ex + N).
  assert (He1 : e1 <= -45) by (unfold e1, N, n in *; lia).
  assert (HN : 0 <= N) by (unfold N; lia).
  assert (HpN : 0 < 2 ^ N) by (apply Z.pow_pos_nonneg; lia).
  set (B1 := 255 * 2 ^ (- e1)).
  assert (HMB : Z.pos M <= B1 * 2 ^ N).
  { unfold B1, e1. rewrite (Hsplit ex N HN) in HM by (fold e1; lia). lia. }
  destruct (round_nearest_even_bound (shr_m mrs) (loc_of_shr_record mrs))
    as [[Hlo Hhi] Hne].
  set (m1 := round_nearest_even (shr_m mrs) (loc_of_shr_record mrs)) in *.
  assert (Hq0 : 0 <= Z.pos M / 2 ^ N) by (apply Z.div_pos; lia).
  assert (Hm1 : 0 <= m1 <= B1).
  { split; [lia|].
    assert (Hq : Z.pos M / 2 ^ N <= B1)
      by (apply Z.div_le_upper_bound; lia).
    destruct (Z.eq_dec m1 (shr_m mrs)) as [Eq|Ne]; [lia|].
    specialize (Hloc (Hne Ne)).
    pose proof (Z.div_mod (Z.pos M) (2 ^ N) ltac:(lia)) as Hdm.
    pose proof (Z.mod_pos_bound (Z.pos M) (2 ^ N) HpN) as Hr.
    assert (Z.pos M / 2 ^ N < B1) by nia. lia. }
  set (n2 := fexp prec64 emax64 (Zdigits2 m1 + e1) - e1).
  destruct (shr_spec m1 e1 n2 ltac:(lia)) as [mrs2 [E2 [Hm2 _]]].
  rewrite E2.
  pose proof (Hfexp m1 e1 He1 Hm1) as Hf2. fold n2 in Hf2.
  set (N2 := Z.max 0 n2) in *. set (e2 := e1 + N2).
  assert (He2 : e2 <= -45) by (unfold e2, N2, n2 in *; lia).
  assert (HN2 : 0 <= N2) by (unfold N2; lia).
  assert (HpN2 : 0 < 2 ^ N2) by (apply Z.pow_pos_nonneg; lia).
  assert (Hb2 : 0 <= shr_m mrs2 <= 255 * 2 ^ (- e2)).
  { rewrite Hm2. split; [apply Z.div_pos; lia|].
    apply Z.div_le_upper_bound; [lia|].
    unfold B1 in Hm1. rewrite (Hsplit e1 N2 HN2) in Hm1 by (fold e2; lia).
    fold e2 in Hm1. lia. }
  destruct (shr_m mrs2) as [|m|m]; [exact I | | lia].
  replace (e2 <=? emax64 - prec64) with true
    by (symmetry; apply Z.leb_le; unfold emax64, prec64; lia).
  split; lia.
Qed.

Lemma times_255_unit (x : spec_float) :
  unit_float x ->
  exists n, roommesh_export.times_255 x = Ok n /\ 0 <= n <= 255.
Proof.
  assert (K : f64 255 0 = S754_finite false 8972014882652160 (-45))
    by (vm_compute; reflexivity).
  unfold roommesh_export.times_255. rewrite K.
  destruct x as [s|s| |[|] m e]; cbn [unit_float]; try contradiction.
  - intros _. exists 0. split; [reflexivity | lia].
  - intros [He Hm]. cbn [SFmul xorb].
    pose proof (round_product_bound (m * 8972014882652160) (e + -45)
                  ltac:(lia)) as H.
    assert (Hb : Z.pos (m * 8972014882652160) <= 255 * 2 ^ (- (e + -45))).
    { replace (- (e + -45)) with (- e + 45) by lia.
      rewrite Z.pow_add_r by lia. change (2 ^ 45) with 35184372088832.
      rewrite Pos2Z.inj_mul. lia. }
    specialize (H Hb).
    destruct (binary_round_aux prec64 emax64 false
                (Z.pos (m * 8972014882652160)) (e + -45) loc_Exact)
      as [[|]|[|]| |[|] m' e']; try contradiction.
    + exists 0. split; [reflexivity | lia].
    + destruct H as [He' Hm']. cbn [int_of_float cond_Zopp].
      destruct (Z.leb_spec 0 e'); [lia|].
      eexists. split; [reflexivity|].
      assert (Hp : 0 < 2 ^ (- e')) by (apply Z.pow_pos_nonneg; lia).
      split; [apply Z.div_pos; lia | apply Z.div_le_upper_bound; lia].
Qed.

Lemma color_bytes_written (r g b : Z) (file : wfile) :
  0 <= r <= 255 -> 0 <= g <= 255 -> 0 <= b <= 255 ->
  Color.write_as_bytes (Color.mk r g b, file) =
    ((Color.mk r g b, file ++ [byte_at r 0; byte_at g 0; byte_at b 0]), Ok tt).
Proof.
  intros Hr Hg Hb. unfold Color.write_as_bytes. rewrite get_self_bind.
  cbn [Color.r Color.g Color.b].
  rewrite (on_file_w _ [byte_at r 0]) by (intros; apply write_byte_ok; lia).
  rewrite (on_file_w _ [byte_at g 0]) by (intros; apply write_byte_ok; lia).
  rewrite (on_file_w_last _ [byte_at b 0]) by (intros; apply write_byte_ok; lia).
  rewrite <- !app_assoc. reflexivity.
Qed.

(** X18. The exporter's [normalize_color] takes floats between 0 and 1 to
    integers between 0 and 255: the product with 255 is rounded to a float
    that is still at most 255, and [int] truncates it.  So a colour made
    from such floats is always accepted by [Color.write_as_bytes]. *)
Theorem X18_normalize_color_in_range (r g b : spec_float) (file : wfile) :
  unit_float r -> unit_float g -> unit_float b ->
  exists vr vg vb,
    roommesh_export.normalize_color r g b = Ok (vr, vg, vb) /\
    0 <= vr <= 255 /\ 0 <= vg <= 255 /\ 0 <= vb <= 255 /\
    Color.write_as_bytes (Color.mk vr vg vb, file) =
      ((Color.mk vr vg vb, file ++ [byte_at vr 0; byte_at vg 0; byte_at vb 0]),
       Ok tt).
Proof.
  intros Hr Hg Hb.
  destruct (times_255_unit r Hr) as [vr [Er Rr]].
  destruct (times_255_unit g Hg) as [vg [Eg Rg]].
  destruct (times_255_unit b Hb) as [vb [Eb Rb]].
  exists vr, vg, vb. unfold roommesh_export.normalize_color.
  rewrite Er, Eg, Eb. repeat split; try lia.
  apply color_bytes_written; assumption.
Qed.

Lemma X18_witness :
  exists vr vg vb,
    roommesh_export.normalize_color (f64 1 0) (f64 1 (-1)) (S754_zero false) =
      Ok (vr, vg, vb) /\
    0 <= vr <= 255 /\ 0 <= vg <= 255 /\ 0 <= vb <= 255 /\
    Color.write_as_bytes (Color.mk vr vg vb, []) =
      ((Color.mk vr vg vb, [] ++ [byte_at vr 0; byte_at vg 0; byte_at vb 0]),
       Ok tt).
Proof.
  apply (X18_normalize_color_in_range (f64 1 0) (f64 1 (-1)) (S754_zero false) []).
  - vm_compute. split; discriminate.
  - vm_compute. split; discriminate.
  - exact I.
Defined.

(** ** The exporter's scene loop *)

Lemma append_to_trigger_some (name : string) (collision : Collision.t) :
  forall triggers triggers1,
    roommesh_export.append_to_trigger name collision triggers = Some triggers1 ->
    map TriggerBox.name triggers1 = map TriggerBox.name triggers /\
    forall n,
      collisions_of n triggers1 =
        collisions_of n triggers ++
        (if (name =? n)%string then [collision] else []).
Proof.
  induction triggers as [|t ts IH]; intros triggers1 H; [discriminate|].
  cbn [roommesh_export.append_to_trigger] in H.
  destruct (String.eqb_spec name (TriggerBox.name t)) as [E|N].
  - inversion H. subst triggers1. clear H. split; [reflexivity|].
    intros n. unfold collisions_of. cbn [find TriggerBox.name
      TriggerBox.set_collisions TriggerBox.collisions].
    destruct (String.eqb_spec (TriggerBox.name t) n) as [E'|N'].
    + replace (name =? n)%string with true
        by (symmetry; apply String.eqb_eq; congruence).
      reflexivity.
    + replace (name =? n)%string with false
        by (symmetry; apply String.eqb_neq; congruence).
      rewrite app_nil_r. reflexivity.
  - destruct (roommesh_export.append_to_trigger name collision ts) as [ts1|] eqn:E;
      [|discriminate].
    cbn [option_map] in H. inversion H. subst triggers1. clear H.
    destruct (IH ts1 eq_refl) as [Hn Hc]. split.
    + cbn [map]. rewrite Hn. reflexivity.
    + intros n. unfold collisions_of in *. cbn [find].
      destruct (String.eqb_spec (TriggerBox.name t) n) as [E'|N'].
      * replace (name =? n)%string with false
          by (symmetry; apply String.eqb_neq; congruence).
        rewrite app_nil_r. reflexivity.
      * apply Hc.
Qed.

Lemma append_to_trigger_none (name : string) (collision : Collision.t) :
  forall triggers,
    roommesh_export.append_to_trigger name collision triggers = None ->
    ~ In name (map TriggerBox.name triggers).
Proof.
  induction triggers as [|t ts IH]; intros H; [intros []|].
  cbn [roommesh_export.append_to_trigger] in H.
  destruct (String.eqb_spec name (TriggerBox.name t)) as [E|N]; [discriminate|].
  destruct (roommesh_export.append_to_trigger name collision ts) as [ts1|];
    [discriminate|].
  cbn [map In]. intros [E|Hin]; [congruence | exact (IH eq_refl Hin)].
Qed.

Lemma collisions_of_absent (name : string) (triggers : list TriggerBox.t) :
  ~ In name (map TriggerBox.name triggers) -> collisions_of name triggers = [].
Proof.
  unfold collisions_of. induction triggers as [|t ts IH]; intros H;
    [reflexivity|].
  cbn [find]. cbn [map In] in H.
  destruct (String.eqb_spec (TriggerBox.name t) name) as [E|N]; [tauto|].
  apply IH. tauto.
Qed.

Lemma collisions_of_snoc (n : string) (triggers : list TriggerBox.t)
    (t : TriggerBox.t) :
  collisions_of n (triggers ++ [t]) =
    if existsb (fun t' => (TriggerBox.name t' =? n)%string) triggers
    then collisions_of n triggers
    else if (TriggerBox.name t =? n)%string then TriggerBox.collisions t else [].
Proof.
  unfold collisions_of. induction triggers as [|t0 ts IH].
  - cbn [app find existsb]. destruct (TriggerBox.name t =? n)%string; reflexivity.
  - cbn [app find existsb].
    destruct (TriggerBox.name t0 =? n)%string; [reflexivity | exact IH].
Qed.

Lemma existsb_named (n : string) (triggers : list TriggerBox.t) :
  existsb (fun t' => (TriggerBox.name t' =? n)%string) triggers = true <->
  In n (map TriggerBox.name triggers).
Proof.
  rewrite existsb_exists, in_map_iff. split; intros [t [H1 H2]]; exists t.
  - apply String.eqb_eq in H2. tauto.
  - split; [tauto | apply String.eqb_eq; tauto].
Qed.

Lemma NoDup_snoc {A} (l : list A) (a : A) :
  NoDup l -> ~ In a l -> NoDup (l ++ [a]).
Proof.
  induction l as [|x l IH]; intros Hl Ha.
  - cbn. constructor; [intros [] | constructor].
  - inversion Hl as [|x' l' Hx Hl']. subst. cbn [app]. constructor.
    + rewrite in_app_iff. cbn [In] in *. intros [H|[H|[]]]; [tauto | subst; tauto].
    + apply IH; [exact Hl' | cbn [In] in Ha; tauto].
Qed.

Section SceneProperties.
Variable BObject : Type.
Variable obj_type : BObject -> string.
Variable is_collision : BObject -> bool.
Variable is_trigger : BObject -> bool.
Variable trigger_name : BObject -> string.
Variable role : BObject -> string.
Variable light_type : BObject -> string.
Variable convert_object : BObject -> result Object.t.
Variable convert_collision : BObject -> result Collision.t.
Variable convert_screen : BObject -> result Screen.t.
Variable convert_waypoint : BObject -> result Waypoint.t.
Variable convert_light : BObject -> result Light.t.
Variable convert_spotlight : BObject -> result Spotlight.t.
Variable convert_soundemitter : BObject -> result SoundEmitter.t.
Variable convert_playerstart : BObject -> result PlayerStart.t.

Local Abbreviation convert_trigger_box :=
  (roommesh_export.convert_trigger_box BObject trigger_name convert_collision).
Local Abbreviation export_object :=
  (roommesh_export.export_object BObject obj_type is_collision is_trigger
     trigger_name role light_type convert_object convert_collision
     convert_screen convert_waypoint convert_light convert_spotlight
     convert_soundemitter convert_playerstart).
Local Abbreviation export_objects :=
  (roommesh_export.export_objects BObject obj_type is_collision is_trigger
     trigger_name role light_type convert_object convert_collision
     convert_screen convert_waypoint convert_light convert_spotlight
     convert_soundemitter convert_playerstart).
Local Abbreviation export_roommesh :=
  (roommesh_export.export_roommesh BObject obj_type is_collision is_trigger
     trigger_name role light_type convert_object convert_collision
     convert_screen convert_waypoint convert_light convert_spotlight
     convert_soundemitter convert_playerstart).
Local Abbreviation trigger_object :=
  (is_trigger_object BObject obj_type is_collision is_trigger).
Local Abbreviation converted :=
  (converted_triggers BObject obj_type is_collision is_trigger trigger_name
     convert_collision).

Lemma convert_trigger_box_spec (obj : BObject) (room room1 : RoomMesh.t) :
  convert_trigger_box obj room = (room1, Ok tt) ->
  exists collision,
    convert_collision obj = Ok collision /\
    RoomMesh.points room1 = RoomMesh.points room /\
    RoomMesh.triggers room1 <> [] /\
    (NoDup (map TriggerBox.name (RoomMesh.triggers room)) ->
     NoDup (map TriggerBox.name (RoomMesh.triggers room1))) /\
    forall n,
      collisions_of n (RoomMesh.triggers room1) =
        collisions_of n (RoomMesh.triggers room) ++
        (if (trigger_name obj =? n)%string then [collision] else []).
Proof.
  unfold roommesh_export.convert_trigger_box, bind, lift_result.
  destruct (convert_collision obj) as [c|e]; [|discriminate].
  destruct (roommesh_export.append_to_trigger (trigger_name obj) c
              (RoomMesh.triggers room)) as [ts1|] eqn:E;
    intros H; inversion H; subst room1; clear H; exists c;
    cbn [RoomMesh.set_triggers RoomMesh.triggers RoomMesh.points].
  - destruct (append_to_trigger_some _ _ _ _ E) as [Hn Hc].
    repeat split; try assumption.
    + intros ->. cbn [map] in Hn. symmetry in Hn. apply map_eq_nil in Hn.
      rewrite Hn in E. discriminate.
    + rewrite Hn. auto.
  - apply append_to_trigger_none in E.
    cbv [TriggerBox.set_collisions TriggerBox.set_name TriggerBox.init].
    cbn [TriggerBox.collisions TriggerBox.name app].
    repeat split.
    + intros H. apply app_eq_nil in H. destruct H; discriminate.
    + intros Hnd. rewrite map_app. cbn [map TriggerBox.name].
      apply NoDup_snoc; assumption.
    + intros n. rewrite collisions_of_snoc. cbn [TriggerBox.name TriggerBox.collisions].
      destruct (existsb _ (RoomMesh.triggers room)) eqn:Ex.
      * apply existsb_named in Ex.
        replace (trigger_name obj =? n)%string with false;
          [rewrite app_nil_r; reflexivity|].
        symmetry. apply String.eqb_neq. intros Hx. subst n. tauto.
      * assert (Hno : ~ In n (map TriggerBox.name (RoomMesh.triggers room))).
        { intros Hin. apply existsb_named in Hin. congruence. }
        rewrite (collisions_of_absent n _ Hno).
        destruct (trigger_name obj =? n)%string; reflexivity.
Qed.

Lemma append_point_of_spec {X} (wrap : X -> Point.t) (r : result X)
    (room room1 : RoomMesh.t) :
  roommesh_export.append_point_of wrap r room = (room1, Ok tt) ->
  RoomMesh.triggers room1 = RoomMesh.triggers room /\
  exists p, r = Ok p /\
    RoomMesh.points room1 = RoomMesh.points room ++ [wrap p].
Proof.
  unfold roommesh_export.append_point_of, bind, lift_result.
  destruct r as [p|e]; [|discriminate]. intros H. inversion H.
  split; [reflexivity | eauto].
Qed.

Lemma append_to_spec {X} (get : RoomMesh.t -> list X) set (r : result X)
    (room room1 : RoomMesh.t) :
  (forall v d, RoomMesh.triggers (set v d) = RoomMesh.triggers d) ->
  (forall v d, RoomMesh.points (set v d) = RoomMesh.points d) ->
  roommesh_export.append_to get set r room = (room1, Ok tt) ->
  RoomMesh.triggers room1 = RoomMesh.triggers room /\
  RoomMesh.points room1 = RoomMesh.points room.
Proof.
  intros Ht Hp. unfold roommesh_export.append_to, bind, lift_result.
  destruct r as [x|e]; [|discriminate]. intros H. inversion H. auto.
Qed.

(** One turn of the scene loop: a trigger object goes through
    [convert_trigger_box], any other object leaves the triggers alone; and
    a point that is appended is never a model. *)
Lemma export_object_spec (obj : BObject) (room room1 : RoomMesh.t) :
  export_object obj room = (room1, Ok tt) ->
  (if trigger_object obj
   then convert_trigger_box obj room = (room1, Ok tt)
   else RoomMesh.triggers room1 = RoomMesh.triggers room) /\
  (RoomMesh.points room1 = RoomMesh.points room \/
   exists p, not_model p /\ RoomMesh.points room1 = RoomMesh.points room ++ [p]).
Proof.
  unfold roommesh_export.export_object, is_trigger_object.
  destruct (obj_type obj =? "MESH")%string.
  - destruct (is_collision obj); [destruct (is_trigger obj)|]; cbn [andb];
      intros H.
    + split; [exact H|]. left.
      apply convert_trigger_box_spec in H. destruct H as [c [_ [Hp _]]].
      exact Hp.
    + apply append_to_spec in H; [|reflexivity|reflexivity]. tauto.
    + apply append_to_spec in H; [|reflexivity|reflexivity]. tauto.
  - cbn [andb].
    repeat match goal with
    | |- context [if (?a =? ?b)%string then _ else _] =>
        destruct (a =? b)%string
    end;
    intros H;
    try (apply append_point_of_spec in H; destruct H as [Ht [p [_ Hp]]];
         split; [exact Ht | right; eexists; split; [|exact Hp]; exact I]);
    inversion H; auto.
Qed.

Lemma export_objects_spec (objs : list BObject) :
  forall room room1,
    export_objects objs room = (room1, Ok tt) ->
    (NoDup (map TriggerBox.name (RoomMesh.triggers room)) ->
     NoDup (map TriggerBox.name (RoomMesh.triggers room1))) /\
    (forall n,
        collisions_of n (RoomMesh.triggers room1) =
          collisions_of n (RoomMesh.triggers room) ++ converted n objs) /\
    (RoomMesh.triggers room1 <> [] <->
     RoomMesh.triggers room <> [] \/
     exists obj, In obj objs /\ trigger_object obj = true) /\
    (Forall not_model (RoomMesh.points room) ->
     Forall not_model (RoomMesh.points room1)).
Proof.
  induction objs as [|obj objs IH]; intros room room1 H.
  - inversion H. subst room1. repeat split; try tauto.
    + intros n. cbn. rewrite app_nil_r. reflexivity.
    + intros [Hne | [obj [[] _]]]. exact Hne.
  - cbn [roommesh_export.export_objects] in H.
    apply bind_ok_inv in H. destruct H as [room0 [[] [Hstep Hrest]]].
    apply IH in Hrest. destruct Hrest as [Hnd [Hc [Hne Hpm]]].
    apply export_object_spec in Hstep. destruct Hstep as [Htr Hpt].
    assert (Hpm0 : Forall not_model (RoomMesh.points room) ->
                   Forall not_model (RoomMesh.points room0)).
    { intros Hf. destruct Hpt as [-> | [p [Hp ->]]]; [exact Hf|].
      apply Forall_app. split; [exact Hf | constructor; [exact Hp | constructor]]. }
    destruct (trigger_object obj) eqn:Et.
    + apply convert_trigger_box_spec in Htr.
      destruct Htr as [c [Ec [_ [Hne0 [Hnd0 Hc0]]]]].
      repeat split.
      * tauto.
      * intros n. rewrite Hc, Hc0, <- app_assoc. f_equal.
        unfold converted_triggers at 2. cbn [flat_map]. rewrite Et, Ec.
        cbn [andb]. destruct (trigger_name obj =? n)%string; reflexivity.
      * intros _. right. exists obj. split; [left; reflexivity | exact Et].
      * intros _. apply Hne. left. exact Hne0.
      * tauto.
    + repeat split.
      * rewrite <- Htr. exact Hnd.
      * intros n. rewrite Hc, Htr.  f_equal.
        unfold converted_triggers at 2. cbn [flat_map]. rewrite Et.
        reflexivity.
      * intros H. apply Hne in H. rewrite Htr in H.
        destruct H as [H | [o [Hin Ho]]]; [tauto|].
        right. exists o. split; [right; exact Hin | exact Ho].
      * intros H. apply Hne. rewrite Htr.
        destruct H as [H | [o [[<- | Hin] Ho]]]; [tauto | congruence |].
        right. eauto.
      * tauto.
Qed.

(** X19. The exporter groups the trigger objects of the scene by their
    trigger name.  When the scene loop returns on a new room, no two
    trigger boxes of the room have the same name, and under every name the
    trigger box holds the converted collisions of exactly the trigger
    objects (meshes flagged as collision and as trigger) with that name, in
    the order of the scene. *)
Theorem X19_export_groups_triggers (objs : list BObject) (room : RoomMesh.t) :
  export_objects objs RoomMesh.init = (room, Ok tt) ->
  NoDup (map TriggerBox.name (RoomMesh.triggers room)) /\
  forall name : string,
    collisions_of name (RoomMesh.triggers room) = converted name objs.
Proof.
  intros H. apply export_objects_spec in H. destruct H as [Hnd [Hc _]].
  split; [apply Hnd; constructor|]. intros name. rewrite Hc. reflexivity.
Qed.

(** X20. The signature the exporter writes agrees with the trigger list.
    Whenever [export_roommesh] gets as far as writing the file, the
    document has the signature ["RoomMesh.HasTriggerBox"] and at least one
    trigger box if the scene has a trigger object, and the signature
    ["RoomMesh"] and no trigger box otherwise.  So [write] never leaves out
    a trigger count that [parse] would look for. *)
Theorem X20_export_signature (objs : list BObject) (room : RoomMesh.t)
    (file : wfile) (r : result unit) :
  export_roommesh objs = ((room, Some file), r) ->
  (RoomMesh.signature room = "RoomMesh.HasTriggerBox"%string /\
   RoomMesh.triggers room <> [] /\
   exists obj, In obj objs /\ trigger_object obj = true) \/
  (RoomMesh.signature room = "RoomMesh"%string /\
   RoomMesh.triggers room = [] /\
   forall obj, In obj objs -> trigger_object obj = false).
Proof.
  unfold roommesh_export.export_roommesh.
  destruct ((export_objects objs ;; roommesh_export.choose_signature)
              RoomMesh.init) as [room0 [[]|e]] eqn:E; [|discriminate].
  destruct (RoomMesh.write (room0, [])) as [[room1 file1] r1] eqn:W.
  intros H. inversion H. subst room1 file1 r1. clear H.
  apply RoomMesh_write_frame in W. destruct W as [Ws [_ [Wt _]]].
  rewrite Ws, Wt.
  apply bind_ok_inv in E. destruct E as [room00 [[] [Eobjs Esig]]].
  apply export_objects_spec in Eobjs. destruct Eobjs as [_ [_ [Hne _]]].
  unfold roommesh_export.choose_signature in Esig.
  destruct (Z.gtb_spec (len (RoomMesh.triggers room00)) 0) as [Hlen|Hlen];
    inversion Esig; subst room0; clear Esig;
    cbn [RoomMesh.set_signature RoomMesh.signature RoomMesh.triggers].
  - left. assert (Hn : RoomMesh.triggers room00 <> [])
      by (intros Hnil; rewrite Hnil in Hlen; cbn in Hlen; lia).
    split; [reflexivity|]. split; [exact Hn|].
    apply Hne in Hn. destruct Hn as [Hn | Hn]; [|exact Hn].
    cbn in Hn. contradiction.
  - right. assert (Hn : RoomMesh.triggers room00 = []).
    { destruct (RoomMesh.triggers room00); [reflexivity|].
      unfold len in Hlen. cbn [List.length] in Hlen. lia. }
    split; [reflexivity|]. split; [exact Hn|].
    intros obj Hin. destruct (trigger_object obj) eqn:Et; [|reflexivity].
    exfalso. apply (proj2 Hne); [right; eauto | exact Hn].
Qed.

(** X21. The exporter never writes a model: whatever the scene holds, the
    points of the document that [export_roommesh] writes are screens,
    waypoints, player starts, lights, spotlights and sound emitters only. *)
Theorem X21_export_no_model (objs : list BObject) (room : RoomMesh.t)
    (file : wfile) (r : result unit) :
  export_roommesh objs = ((room, Some file), r) ->
  Forall not_model (RoomMesh.points room).
Proof.
  unfold roommesh_export.export_roommesh.
  destruct ((export_objects objs ;; roommesh_export.choose_signature)
              RoomMesh.init) as [room0 [[]|e]] eqn:E; [|discriminate].
  destruct (RoomMesh.write (room0, [])) as [[room1 file1] r1] eqn:W.
  intros H. inversion H. subst room1 file1 r1. clear H.
  apply RoomMesh_write_frame in W. destruct W as [_ [_ [_ [Wp _]]]].
  rewrite Wp.
  apply bind_ok_inv in E. destruct E as [room00 [[] [Eobjs Esig]]].
  apply export_objects_spec in Eobjs. destruct Eobjs as [_ [_ [_ Hpm]]].
  unfold roommesh_export.choose_signature in Esig.
  destruct (len (RoomMesh.triggers room00) >? 0); inversion Esig;
    cbn [RoomMesh.set_signature RoomMesh.points]; apply Hpm; constructor.
Qed.
End SceneProperties.

Lemma X19_witness :
  NoDup
    (map TriggerBox.name
       [TriggerBox.mk [Collision.init; Collision.init] "a";
        TriggerBox.mk [Collision.init] "b"]) /\
  forall name : string,
    collisions_of name
      [TriggerBox.mk [Collision.init; Collision.init] "a";
       TriggerBox.mk [Collision.init] "b"] =
    converted_triggers string (fun _ => "MESH"%string) (fun _ => true)
      (fun _ => true) (fun s => s) (fun _ => Ok Collision.init) name
      ["a"; "b"; "a"]%string.
Proof.
  apply (X19_export_groups_triggers string
           (fun _ => "MESH"%string) (fun _ => true) (fun _ => true)
           (fun s => s) (fun _ => ""%string) (fun _ => ""%string)
           (fun _ => Ok Object.init) (fun _ => Ok Collision.init)
           (fun _ => Ok Screen.init) (fun _ => Ok Waypoint.init)
           (fun _ => Ok Light.init) (fun _ => Ok Spotlight.init)
           (fun _ => Ok SoundEmitter.init) (fun _ => Ok PlayerStart.init)
           ["a"; "b"; "a"]%string
           (RoomMesh.mk "" [] []
              [TriggerBox.mk [Collision.init; Collision.init] "a";
               TriggerBox.mk [Collision.init] "b"] [])).
  vm_compute. reflexivity.
Defined.

Lemma X20_witness :
  (RoomMesh.signature
     (RoomMesh.mk "RoomMesh.HasTriggerBox" [] []
        [TriggerBox.mk [Collision.init] "a"] [Point.waypoint Waypoint.init]) =
     "RoomMesh.HasTriggerBox"%string /\
   RoomMesh.triggers
     (RoomMesh.mk "RoomMesh.HasTriggerBox" [] []
        [TriggerBox.mk [Collision.init] "a"] [Point.waypoint Waypoint.init])
     <> [] /\
   exists obj,
     In obj ["a"; ""]%string /\
     is_trigger_object string
       (fun s => if (s =? "")%string then "EMPTY" else "MESH")%string
       (fun _ => true) (fun _ => true) obj = true) \/
  (RoomMesh.signature
     (RoomMesh.mk "RoomMesh.HasTriggerBox" [] []
        [TriggerBox.mk [Collision.init] "a"] [Point.waypoint Waypoint.init]) =
     "RoomMesh"%string /\
   RoomMesh.triggers
     (RoomMesh.mk "RoomMesh.HasTriggerBox" [] []
        [TriggerBox.mk [Collision.init] "a"] [Point.waypoint Waypoint.init])
     = [] /\
   forall obj,
     In obj ["a"; ""]%string ->
     is_trigger_object string
       (fun s => if (s =? "")%string then "EMPTY" else "MESH")%string
       (fun _ => true) (fun _ => true) obj = false).
Proof.
  eapply (X20_export_signature string
           (fun s => if (s =? "")%string then "EMPTY" else "MESH")%string
           (fun _ => true) (fun _ => true)
           (fun s => s) (fun _ => "WAYPOINT"%string) (fun _ => ""%string)
           (fun _ => Ok Object.init) (fun _ => Ok Collision.init)
           (fun _ => Ok Screen.init) (fun _ => Ok Waypoint.init)
           (fun _ => Ok Light.init) (fun _ => Ok Spotlight.init)
           (fun _ => Ok SoundEmitter.init) (fun _ => Ok PlayerStart.init)
           ["a"; ""]%string).
  vm_compute. reflexivity.
Defined.

Lemma X21_witness :
  Forall not_model
    (RoomMesh.points
       (RoomMesh.mk "RoomMesh.HasTriggerBox" [] []
          [TriggerBox.mk [Collision.init] "a"] [Point.waypoint Waypoint.init])).
Proof.
  eapply (X21_export_no_model string
           (fun s => if (s =? "")%string then "EMPTY" else "MESH")%string
           (fun _ => true) (fun _ => true)
           (fun s => s) (fun _ => "WAYPOINT"%string) (fun _ => ""%string)
           (fun _ => Ok Object.init) (fun _ => Ok Collision.init)
           (fun _ => Ok Screen.init) (fun _ => Ok Waypoint.init)
           (fun _ => Ok Light.init) (fun _ => Ok Spotlight.init)
           (fun _ => Ok SoundEmitter.init) (fun _ => Ok PlayerStart.init)
           ["a"; ""]%string).
  vm_compute. reflexivity.
Defined.
